(** * System health monitor: a shallow embedding of [monitor.py]

    The development follows the source file top to bottom: the values the
    program handles (Python numbers, the configuration document, the
    statistics dictionary), the pure threshold evaluator, the effectful
    methods of [SystemMonitor] written in a small state-and-exception monad,
    and the continuous loop driven by a finite prefix of the environment.

    Conventions.
    - A Python [float] is modelled by the rational number it denotes.
      Comparisons ([>]) and fixed-point formatting ([:.1f]) are exact
      operations on that value in CPython, so they are exact here too.
      NaN, infinities and the negative zero are outside the model (psutil
      reports none of them).
    - A dictionary with a fixed set of keys is a record; the empty dictionary
      returned by a failed sampling is [None].
    - What the program receives from outside (psutil readings, the clock, the
      SMTP server, the file system, the signal that interrupts a sleep) is an
      explicit argument.
    - A text is the sequence of the bytes of its UTF-8 encoding; the
      literals of the console report and of the e-mail are those of the
      source, byte for byte. *)

From Stdlib Require Import ZArith QArith Qround Qabs Qpower Qreduction.
From Stdlib Require Import String Ascii List Bool Lia Lqa.
Import ListNotations.

Local Open Scope string_scope.
Local Open Scope Z_scope.

(** ** Python numbers *)

(** [int] and [float] values as they come out of the YAML loader or of
    psutil. *)
Inductive number : Type :=
| NInt (z : Z)
| NFloat (q : Q).

Definition num_value (n : number) : Q :=
  match n with
  | NInt z => inject_Z z
  | NFloat q => q
  end.

(** [a > b] on the values of two Python numbers: an [int] and a [float] are
    compared as the numbers they are. *)
Definition Qgtb (a b : Q) : bool := negb (Qle_bool a b).

(** *** Decimal text *)

Definition digit_char (d : Z) : ascii := ascii_of_N (48 + Z.to_N d).

(** The decimal digits of [n], most significant first, in front of [acc]. *)
Fixpoint digits_acc (fuel : nat) (n : Z) (acc : string) : string :=
  match fuel with
  | O => acc
  | S fuel' =>
      let acc' := String (digit_char (n mod 10)) acc in
      if n <? 10 then acc' else digits_acc fuel' (n / 10) acc'
  end.

(** A natural number has no more decimal digits than binary ones. *)
Definition str_nat (n : Z) : string :=
  digits_acc (S (Z.to_nat (Z.log2 n))) n EmptyString.

(** [str(n)] for an [int]. *)
Definition str_int (z : Z) : string :=
  if z <? 0 then String "-" (str_nat (- z)) else str_nat z.

(** Rounding to the nearest integer, ties to the even one: the rule used by
    [round] and by the [f] presentation type. *)
Definition round_half_even (q : Q) : Z :=
  let f := Qfloor q in
  match Qcompare (q - inject_Z f) (1 # 2) with
  | Lt => f
  | Gt => f + 1
  | Eq => if Z.even f then f else f + 1
  end.

(** [f"{x:.1f}"]: sign, integer part, a dot and one digit. *)
Definition format_1f (q : Q) : string :=
  let n := round_half_even (Qabs q * 10) in
  (if Qgtb 0 q then "-" else EmptyString)
    ++ str_int (n / 10) ++ "." ++ str_int (n mod 10).

(** *** Doubles *)

(** [2 ** k] and [10 ** k] as rationals, for any integer [k]. *)
Definition Qpow2 (k : Z) : Q := Qpower 2 k.

Definition Qpow10 (k : Z) : Q := Qpower 10 k.

(** [floor (log2 q)] for a positive rational. *)
Definition Qlog2 (q : Q) : Z :=
  let e := Z.log2 (Qnum q) - Z.log2 (Zpos (Qden q)) in
  if Qle_bool (Qpow2 e) q then e else e - 1.

(** The double nearest to a positive rational (53 significant bits, ties to
    even), as a fraction in lowest terms.  The exponent range is not
    bounded: overflow and subnormal numbers do not arise for the quantities
    the monitor computes. *)
Definition fl_pos (a : Q) : Q :=
  let e := Qlog2 a in
  let m := round_half_even (a * Qpow2 (52 - e)) in
  Qred (inject_Z m * Qpow2 (e - 52)).

(** The double nearest to a rational. *)
Definition fl (q : Q) : Q :=
  let q := Qred q in
  if Qeq_bool q 0 then 0%Q
  else if Qgtb 0 q then (- fl_pos (- q))%Q
  else fl_pos q.

(** [round(x, 2)] on a [float]: rounded to two decimals on its exact value,
    ties to even, and converted back to a double. *)
Definition round2 (q : Q) : Q :=
  fl (inject_Z (round_half_even (q * 100)) / 100).

(** [round(x, 2)] on a number: an [int] is returned unchanged. *)
Definition py_round2 (n : number) : number :=
  match n with
  | NInt z => NInt z
  | NFloat q => NFloat (round2 q)
  end.

(** [a / b] on integers (true division), [None] for [ZeroDivisionError].
    The quotient of integers beyond the range of a double is an
    [OverflowError] in Python; the byte counts of a machine are far below
    that range, and the properties that depend on the division succeeding
    take them below [2 ** 64]. *)
Definition py_truediv (a b : Z) : option Q :=
  if b =? 0 then None else Some (fl (inject_Z a / inject_Z b)).

(** *** [repr] of a float

    CPython prints the shortest decimal string that reads back as the same
    double and, among those, the one closest to it.  The digits are searched
    by increasing length; at each length only the two decimals that enclose
    the value can qualify. *)

Fixpoint dec_exponent_up (fuel : nat) (a : Q) (n : Z) : Z :=
  match fuel with
  | O => n
  | S fuel' => if Qle_bool (Qpow10 n) a then dec_exponent_up fuel' a (n + 1) else n
  end.

Fixpoint dec_exponent_down (fuel : nat) (a : Q) (n : Z) : Z :=
  match fuel with
  | O => n
  | S fuel' =>
      if Qgtb (Qpow10 (n - 1)) a then dec_exponent_down fuel' a (n - 1) else n
  end.

(** The [n] with [10 ^ (n - 1) <= a < 10 ^ n], for a positive [a]: an
    estimate from the binary logarithm, then a few corrections upwards and
    as many as needed downwards (the fuel of the second loop is a bound on
    them, not their number). *)
Definition dec_exponent (a : Q) : Z :=
  let e := Qlog2 a in
  let n0 := (e * 30103) / 100000 in
  let n1 := dec_exponent_up 4 a n0 in
  dec_exponent_down (Z.to_nat (n1 - Z.min 0 e)) a n1.

(** The decimal [c * 10 ^ e] reads back as the positive double [a]. *)
Definition candidate (c e : Z) (a : Q) : bool :=
  (0 <? c) && Qeq_bool (fl (inject_Z c * Qpow10 e)) a.

(** The shortest decimal [d * 10 ^ e] that reads back as the positive double
    [a], searched from [k] digits on; [n] is the decimal exponent of [a]. *)
Fixpoint shortest_digits (fuel : nat) (k : Z) (n : Z) (a : Q) : option (Z * Z) :=
  match fuel with
  | O => None
  | S fuel' =>
      let scaled := (a * Qpow10 (k - n))%Q in
      let lo := Qfloor scaled in
      let hi := Qceiling scaled in
      let vlo := (inject_Z lo * Qpow10 (n - k))%Q in
      let vhi := (inject_Z hi * Qpow10 (n - k))%Q in
      let oklo := candidate lo (n - k) a in
      let okhi := candidate hi (n - k) a in
      let lo_closer :=
        match Qcompare (a - vlo) (vhi - a) with
        | Lt => true
        | Gt => false
        | Eq => Z.even lo
        end in
      if oklo && (lo_closer || negb okhi) then Some (lo, n - k)
      else if okhi then Some (hi, n - k)
      else shortest_digits fuel' (k + 1) n a
  end.

(** Trailing zeros go from the digits to the exponent. *)
Fixpoint strip_zeros (fuel : nat) (d e : Z) : Z * Z :=
  match fuel with
  | O => (d, e)
  | S fuel' =>
      if (d mod 10 =? 0) && negb (d =? 0) then strip_zeros fuel' (d / 10) (e + 1)
      else (d, e)
  end.

Fixpoint zeros (n : nat) : string :=
  match n with
  | O => EmptyString
  | S n' => String "0" (zeros n')
  end.

(** [s[:n]] and [s[n:]] *)
Fixpoint take (n : nat) (s : string) : string :=
  match n, s with
  | S n', String c s' => String c (take n' s')
  | _, _ => EmptyString
  end.

Fixpoint drop (n : nat) (s : string) : string :=
  match n, s with
  | S n', String _ s' => drop n' s'
  | _, _ => s
  end.

(** The [r] layout of the digits [digits] with the decimal point after
    [decpt] of them: fixed notation when [-4 < decpt <= 16], with [.0]
    appended to an integral value; otherwise exponent notation with at least
    two exponent digits. *)
Definition layout_repr (digits : string) (decpt : Z) : string :=
  let len := Z.of_nat (String.length digits) in
  if (decpt <=? -4) || (16 <? decpt) then
    let e := decpt - 1 in
    let ae := Z.abs e in
    take 1 digits
      ++ (if len <=? 1 then EmptyString else String "." (drop 1 digits))
      ++ String "e" (String (if e <? 0 then "-"%char else "+"%char)
                       ((if ae <? 10 then "0" else EmptyString) ++ str_nat ae))
  else if decpt <=? 0 then
    String "0" (String "." (zeros (Z.to_nat (- decpt)) ++ digits))
  else if len <=? decpt then
    digits ++ zeros (Z.to_nat (decpt - len)) ++ ".0"
  else
    take (Z.to_nat decpt) digits ++ String "." (drop (Z.to_nat decpt) digits).

(** The text of a positive double: its shortest digits, laid out.  [None]
    when the search finds nothing within 17 digits, which does not happen on
    a double. *)
Definition repr_pos (a : Q) : option string :=
  match shortest_digits 17 1 (dec_exponent a) a with
  | Some (d, e) =>
      let (d', e') := strip_zeros 17 d e in
      let digits := str_nat d' in
      Some (layout_repr digits (Z.of_nat (String.length digits) + e'))
  | None => None
  end.

(** [repr(x)] (also [str(x)] and the text written by [json.dump]). *)
Definition float_repr (q : Q) : string :=
  if Qeq_bool q 0 then "0.0"
  else
    match repr_pos (Qabs q) with
    | Some text => if Qgtb 0 q then String "-" text else text
    | None => "nan"
    end.

(** The rationals that are doubles: rounding leaves them as they are. *)
Definition is_double (q : Q) : Prop := (fl q == q)%Q.

(** The rationals [float_repr] has a text for: zero, and those the digit
    search ends on.  Every double is one of them (17 significant digits
    tell two doubles apart). *)
Definition has_repr (q : Q) : bool :=
  Qeq_bool q 0
  || match repr_pos (Qabs q) with
     | Some _ => true
     | None => false
     end.

(** [str(n)] on a number. *)
Definition str_number (n : number) : string :=
  match n with
  | NInt z => str_int z
  | NFloat q => float_repr q
  end.

(** ** The configuration document *)

Module Thresholds.
Record t : Type := mk { cpu : number; memory : number; disk : number }.
End Thresholds.

Module Email.
Record t : Type := mk {
  enabled : bool;
  smtp_server : string;
  port : Z;
  from_ : string;
  to_ : string;
  username : string;
  password : string
}.
End Email.

Module Logging.
Record t : Type := mk { level : string; file : string }.
End Logging.

Record Config : Type := mkConfig {
  thresholds : Thresholds.t;
  check_interval : number;
  email : Email.t;
  logging : Logging.t
}.

(** [SystemMonitor._get_default_config] *)
Definition _get_default_config : Config :=
  {| thresholds := {| Thresholds.cpu := NInt 80;
                      Thresholds.memory := NInt 85;
                      Thresholds.disk := NInt 90 |};
     check_interval := NInt 60;
     email := {| Email.enabled := false;
                 Email.smtp_server := "smtp.gmail.com";
                 Email.port := 587;
                 Email.from_ := "monitoring@example.com";
                 Email.to_ := "admin@example.com";
                 Email.username := EmptyString;
                 Email.password := EmptyString |};
     logging := {| Logging.level := "INFO";
                   Logging.file := "system_monitor.log" |} |}.

(** ** The statistics dictionary *)

Module Cpu.
Record t : Type := mk {
  percent : Q;
  count_logical : option Z;
  count_physical : option Z;
  load_avg : number
}.
End Cpu.

Module Memory.
Record t : Type := mk {
  percent : Q;
  total_gb : Q;
  used_gb : Q;
  available_gb : Q
}.
End Memory.

Module Disk.
Record t : Type := mk {
  percent : Q;
  total_gb : Q;
  used_gb : Q;
  free_gb : Q
}.
End Disk.

Module Network.
Record t : Type := mk {
  bytes_sent : Z;
  bytes_recv : Z;
  packets_sent : Z;
  packets_recv : Z
}.
End Network.

Module System.
Record t : Type := mk {
  uptime_days : Z;
  uptime_hours : Z;
  process_count : Z;
  boot_time : string
}.
End System.

Record Stats : Type := mkStats {
  timestamp : string;
  cpu : Cpu.t;
  memory : Memory.t;
  disk : Disk.t;
  network : Network.t;
  system : System.t
}.

(** ** [SystemMonitor.check_thresholds] *)

Definition cpu_alert (config : Config) (stats : Stats) : string :=
  "CPU usage: " ++ format_1f (Cpu.percent (cpu stats)) ++ "% "
    ++ "(threshold: " ++ str_number (Thresholds.cpu (thresholds config)) ++ "%)".

Definition memory_alert (config : Config) (stats : Stats) : string :=
  "Memory usage: " ++ format_1f (Memory.percent (memory stats)) ++ "% "
    ++ "(threshold: " ++ str_number (Thresholds.memory (thresholds config)) ++ "%) - "
    ++ format_1f (Memory.used_gb (memory stats)) ++ "GB used".

Definition disk_alert (config : Config) (stats : Stats) : string :=
  "Disk usage: " ++ format_1f (Disk.percent (disk stats)) ++ "% "
    ++ "(threshold: " ++ str_number (Thresholds.disk (thresholds config)) ++ "%) - "
    ++ format_1f (Disk.used_gb (disk stats)) ++ "GB used".

Definition check_thresholds (config : Config) (stats : Stats) : list string :=
  let alerts := [] in
  let th := thresholds config in
  (* Check CPU threshold *)
  let alerts :=
    if Qgtb (Cpu.percent (cpu stats)) (num_value (Thresholds.cpu th))
    then (alerts ++ [cpu_alert config stats])%list else alerts in
  (* Check Memory threshold *)
  let alerts :=
    if Qgtb (Memory.percent (memory stats)) (num_value (Thresholds.memory th))
    then (alerts ++ [memory_alert config stats])%list else alerts in
  (* Check Disk threshold *)
  let alerts :=
    if Qgtb (Disk.percent (disk stats)) (num_value (Thresholds.disk th))
    then (alerts ++ [disk_alert config stats])%list else alerts in
  alerts.

(** *** Reading an alert message back

    The three metrics, and the metric an alert message is about, read off the
    label the message starts with. *)
Inductive metric : Type := MCpu | MMemory | MDisk.

Definition metric_eq_dec (a b : metric) : {a = b} + {a <> b}.
Proof. decide equality. Defined.

Definition metric_label (m : metric) : string :=
  match m with
  | MCpu => "CPU usage: "
  | MMemory => "Memory usage: "
  | MDisk => "Disk usage: "
  end.

(** [s.startswith(p)] *)
Fixpoint starts_with (p s : string) {struct p} : bool :=
  match p with
  | EmptyString => true
  | String a p' =>
      match s with
      | EmptyString => false
      | String b s' => Ascii.eqb a b && starts_with p' s'
      end
  end.

Definition alert_metric (msg : string) : option metric :=
  if starts_with (metric_label MCpu) msg then Some MCpu
  else if starts_with (metric_label MMemory) msg then Some MMemory
  else if starts_with (metric_label MDisk) msg then Some MDisk
  else None.

Definition metric_percent (stats : Stats) (m : metric) : Q :=
  match m with
  | MCpu => Cpu.percent (cpu stats)
  | MMemory => Memory.percent (memory stats)
  | MDisk => Disk.percent (disk stats)
  end.

Definition metric_threshold (config : Config) (m : metric) : number :=
  match m with
  | MCpu => Thresholds.cpu (thresholds config)
  | MMemory => Thresholds.memory (thresholds config)
  | MDisk => Thresholds.disk (thresholds config)
  end.

(** The metric is over its threshold. *)
Definition exceeds (config : Config) (stats : Stats) (m : metric) : bool :=
  Qgtb (metric_percent stats m) (num_value (metric_threshold config m)).

(** The metrics of the alerts of a list, in the order of the list. *)
Definition alert_metrics (alerts : list string) : list (option metric) :=
  map alert_metric alerts.

(** A statistics dictionary with the given three percentages, for examples. *)
Definition sample_stats (c m d : Q) : Stats :=
  {| timestamp := "2024-05-01 12:00:00";
     cpu := {| Cpu.percent := c; Cpu.count_logical := Some 8;
               Cpu.count_physical := Some 4; Cpu.load_avg := NFloat (3 # 2) |};
     memory := {| Memory.percent := m; Memory.total_gb := 16;
                  Memory.used_gb := 96 # 10; Memory.available_gb := 64 # 10 |};
     disk := {| Disk.percent := d; Disk.total_gb := 500;
                Disk.used_gb := 225; Disk.free_gb := 275 |};
     network := {| Network.bytes_sent := 1000; Network.bytes_recv := 2000;
                   Network.packets_sent := 10; Network.packets_recv := 20 |};
     system := {| System.uptime_days := 3; System.uptime_hours := 7;
                  System.process_count := 200;
                  System.boot_time := "2024-04-28 04:12:09" |} |}.

(** ** Effects: exceptions, the event trace and the monitor object *)

(** The exceptions the program can meet.  [KeyboardInterrupt] is not an
    [Exception]; every other class is. *)
Inductive exn : Type :=
| KeyboardInterrupt
| FileNotFoundError (msg : string)
| YAMLError (msg : string)
| ValueError (msg : string)
| ZeroDivisionError (msg : string)
| OtherException (msg : string).

Definition is_Exception (e : exn) : bool :=
  match e with
  | KeyboardInterrupt => false
  | _ => true
  end.

(** [str(e)] *)
Definition exn_str (e : exn) : string :=
  match e with
  | KeyboardInterrupt => EmptyString
  | FileNotFoundError m | YAMLError m | ValueError m
  | ZeroDivisionError m | OtherException m => m
  end.

Inductive log_level : Type := INFO | WARNING | ERROR.

(** What the SMTP conversation ([smtplib.SMTP(...)], [starttls], [login],
    [send_message], [quit]) does when it is attempted: every call returns,
    or one of them raises.  When a call raises, the message may or may not
    have reached the server: [quit] can raise after [send_message] was
    accepted. *)
Inductive SmtpOutcome : Type :=
| SmtpOk
| SmtpRaises (e : exn).

(** What the program does, in order: the calls it makes to the outside
    world.
    - [Log level msg]: [self.logger.<level>(msg)] is called; whether the
      handlers write the record depends on the level [_setup_logging] has
      set.
    - [Print text]: [print(text)] is called.
    - [Display stats alerts]: [display_stats] is called with these
      arguments and starts printing the report.
    - [SmtpSend settings alerts stats answer]: the SMTP conversation is
      attempted for the message composed from [alerts] and [stats];
      [answer] is what it did.
    - [Sleep seconds]: [time.sleep(seconds)] has started to wait.
    - [FileWrite filename text]: [open(filename, 'w')] has created or
      truncated the file, and [text] is what reached it.
    - [LogFileOpen filename]: [logging.FileHandler(filename)] has opened
      the log file for appending, creating it when it did not exist. *)
Inductive event : Type :=
| Log (level : log_level) (msg : string)
| Print (text : string)
| Display (stats : Stats) (alerts : list string)
| SmtpSend (settings : Email.t) (alerts : list string) (stats : Stats)
    (answer : SmtpOutcome)
| Sleep (seconds : number)
| FileWrite (filename : string) (text : string)
| LogFileOpen (filename : string).

(** The fields of a [SystemMonitor] instance (the logger is the trace). *)
Record SystemMonitor : Type := mkMonitor {
  config_file : string;
  config : Config;
  alert_sent : bool
}.

Definition set_alert_sent (b : bool) (self : SystemMonitor) : SystemMonitor :=
  {| config_file := config_file self; config := config self; alert_sent := b |}.

Inductive outcome (A : Type) : Type :=
| Ret (a : A)
| Raise (e : exn).
Arguments Ret {A} a.
Arguments Raise {A} e.

(** A method of the monitor: from the object to a result or an exception,
    the object afterwards, and the events emitted on the way. *)
Definition M (A : Type) : Type :=
  SystemMonitor -> outcome A * SystemMonitor * list event.

Definition ret {A} (a : A) : M A := fun self => (Ret a, self, []).

Definition raise {A} (e : exn) : M A := fun self => (Raise e, self, []).

Definition bind {A B} (m : M A) (k : A -> M B) : M B :=
  fun self =>
    match m self with
    | (Ret a, self1, t1) =>
        match k a self1 with
        | (r, self2, t2) => (r, self2, (t1 ++ t2)%list)
        end
    | (Raise e, self1, t1) => (Raise e, self1, t1)
    end.

Notation "x <- m ;; k" := (bind m (fun x => k))
  (at level 61, m at next level, right associativity).
Notation "m ;;; k" := (bind m (fun _ => k))
  (at level 61, right associativity).

Definition emit (ev : event) : M unit := fun self => (Ret tt, self, [ev]).

Definition get_config : M Config := fun self => (Ret (config self), self, []).

Definition get_alert_sent : M bool := fun self => (Ret (alert_sent self), self, []).

Definition put_alert_sent (b : bool) : M unit :=
  fun self => (Ret tt, set_alert_sent b self, []).

(** [try: body  except Exception as e: handler(e)] *)
Definition try_except_Exception {A} (body : M A) (handler : exn -> M A) : M A :=
  fun self =>
    match body self with
    | (Raise e, self1, t1) =>
        if is_Exception e then
          match handler e self1 with
          | (r, self2, t2) => (r, self2, (t1 ++ t2)%list)
          end
        else (Raise e, self1, t1)
    | r => r
    end.

(** [try: body  except KeyboardInterrupt: on_interrupt
     except Exception as e: on_exception(e)] *)
Definition try_except_Interrupt_Exception {A} (body : M A)
    (on_interrupt : M A) (on_exception : exn -> M A) : M A :=
  fun self =>
    match body self with
    | (Raise e, self1, t1) =>
        match (if is_Exception e then on_exception e else on_interrupt) self1 with
        | (r, self2, t2) => (r, self2, (t1 ++ t2)%list)
        end
    | r => r
    end.

Definition nl : string := String (ascii_of_nat 10) EmptyString.

(** ** Dates: [datetime] and [timedelta] *)

(** A naive [datetime]. *)
Record datetime : Type := mkDatetime {
  year : Z; month : Z; day : Z;
  hour : Z; minute : Z; second : Z; microsecond : Z
}.

(** A [timedelta], normalised as the constructor leaves it:
    [0 <= seconds < 86400] and [0 <= microseconds < 1000000]. *)
Record timedelta : Type := mkTimedelta {
  days : Z; seconds : Z; microseconds : Z
}.

Definition is_leap (y : Z) : bool :=
  (y mod 4 =? 0) && (negb (y mod 100 =? 0) || (y mod 400 =? 0)).

Definition days_before_year (y : Z) : Z :=
  let y1 := y - 1 in y1 * 365 + y1 / 4 - y1 / 100 + y1 / 400.

Definition days_in_month (y m : Z) : Z :=
  if m =? 2 then (if is_leap y then 29 else 28)
  else if (m =? 4) || (m =? 6) || (m =? 9) || (m =? 11) then 30
  else 31.

Fixpoint days_before_month_aux (y : Z) (k : nat) : Z :=
  match k with
  | O => 0
  | S k' => days_before_month_aux y k' + days_in_month y (Z.of_nat k)
  end.

Definition days_before_month (y m : Z) : Z :=
  days_before_month_aux y (Z.to_nat (m - 1)).

(** [datetime.toordinal] *)
Definition toordinal (d : datetime) : Z :=
  days_before_year (year d) + days_before_month (year d) (month d) + day d.

(** [timedelta(days, seconds, microseconds)] on integers: the carries are
    floor divisions. *)
Definition timedelta_new (d s us : Z) : timedelta :=
  let s := s + us / 1000000 in
  let us := us mod 1000000 in
  let d := d + s / 86400 in
  let s := s mod 86400 in
  {| days := d; seconds := s; microseconds := us |}.

(** [a - b] on naive datetimes. *)
Definition datetime_sub (a b : datetime) : timedelta :=
  let secs (x : datetime) := second x + minute x * 60 + hour x * 3600 in
  timedelta_new (toordinal a - toordinal b) (secs a - secs b)
                (microsecond a - microsecond b).

(** The elapsed time a [timedelta] stands for, in microseconds. *)
Definition total_microseconds (t : timedelta) : Z :=
  (days t * 86400 + seconds t) * 1000000 + microseconds t.

Definition pad2 (z : Z) : string :=
  (if z <? 10 then "0" else EmptyString) ++ str_int z.

Definition pad4 (z : Z) : string :=
  (if z <? 10 then "000" else if z <? 100 then "00"
   else if z <? 1000 then "0" else EmptyString) ++ str_int z.

(** [d.strftime('%Y-%m-%d %H:%M:%S')] *)
Definition strftime_stamp (d : datetime) : string :=
  pad4 (year d) ++ "-" ++ pad2 (month d) ++ "-" ++ pad2 (day d) ++ " "
    ++ pad2 (hour d) ++ ":" ++ pad2 (minute d) ++ ":" ++ pad2 (second d).

(** [d.strftime('%Y%m%d_%H%M%S')] *)
Definition strftime_compact (d : datetime) : string :=
  pad4 (year d) ++ pad2 (month d) ++ pad2 (day d) ++ "_"
    ++ pad2 (hour d) ++ pad2 (minute d) ++ pad2 (second d).

(** ** [SystemMonitor.get_system_stats] *)

(** What psutil and the clock answer during one sampling. *)
Record Readings : Type := mkReadings {
  cpu_percent : Q;                  (* psutil.cpu_percent(interval=1) *)
  cpu_count_logical : option Z;     (* psutil.cpu_count() *)
  cpu_count_physical : option Z;    (* psutil.cpu_count(logical=False) *)
  memory_percent : Q;               (* psutil.virtual_memory() *)
  memory_total : Z;
  memory_used : Z;
  memory_available : Z;
  disk_total : Z;                   (* psutil.disk_usage('/') *)
  disk_used : Z;
  disk_free : Z;
  getloadavg : option Q;            (* None: not available, or OSError *)
  net_bytes_sent : Z;               (* psutil.net_io_counters() *)
  net_bytes_recv : Z;
  net_packets_sent : Z;
  net_packets_recv : Z;
  boot_datetime : datetime;         (* datetime.fromtimestamp(psutil.boot_time()) *)
  now_uptime : datetime;            (* datetime.now(), for the uptime *)
  pids : nat;                       (* len(psutil.pids()) *)
  now_timestamp : datetime          (* datetime.now(), for the timestamp *)
}.

(** One sampling either raises somewhere in the [try] block or reads. *)
Inductive Probe : Type :=
| ProbeRaises (e : exn)
| ProbeReads (r : Readings).

(** [round(n / (1024**3), 2)] *)
Definition bytes_to_gb (n : Z) : Q :=
  round2 (fl (inject_Z n / inject_Z (1024 ^ 3))).

Definition collect (r : Readings) : outcome Stats :=
  match py_truediv (disk_used r) (disk_total r) with
  | None => Raise (ZeroDivisionError "division by zero")
  | Some ratio =>
      let disk_percent := round2 (fl (ratio * 100)) in
      let load_avg :=
        match getloadavg r with
        | Some l => NFloat l
        | None => NInt 0
        end in
      let uptime := datetime_sub (now_uptime r) (boot_datetime r) in
      Ret {| timestamp := strftime_stamp (now_timestamp r);
             cpu := {| Cpu.percent := cpu_percent r;
                       Cpu.count_logical := cpu_count_logical r;
                       Cpu.count_physical := cpu_count_physical r;
                       Cpu.load_avg := py_round2 load_avg |};
             memory := {| Memory.percent := memory_percent r;
                          Memory.total_gb := bytes_to_gb (memory_total r);
                          Memory.used_gb := bytes_to_gb (memory_used r);
                          Memory.available_gb := bytes_to_gb (memory_available r) |};
             disk := {| Disk.percent := disk_percent;
                        Disk.total_gb := bytes_to_gb (disk_total r);
                        Disk.used_gb := bytes_to_gb (disk_used r);
                        Disk.free_gb := bytes_to_gb (disk_free r) |};
             network := {| Network.bytes_sent := net_bytes_sent r;
                           Network.bytes_recv := net_bytes_recv r;
                           Network.packets_sent := net_packets_sent r;
                           Network.packets_recv := net_packets_recv r |};
             system := {| System.uptime_days := days uptime;
                          System.uptime_hours := seconds uptime / 3600;
                          System.process_count := Z.of_nat (pids r);
                          System.boot_time := strftime_stamp (boot_datetime r) |} |}
  end.

(** The empty dictionary of the [except] branch is [None]. *)
Definition get_system_stats (p : Probe) : M (option Stats) :=
  try_except_Exception
    (match p with
     | ProbeRaises e => raise e
     | ProbeReads r =>
         match collect r with
         | Ret stats => ret (Some stats)
         | Raise e => raise e
         end
     end)
    (fun e =>
       emit (Log ERROR ("Error collecting system stats: " ++ exn_str e)) ;;;
       ret None).

Definition sample_readings : Readings :=
  {| cpu_percent := fl (923 # 10);
     cpu_count_logical := Some 8; cpu_count_physical := Some 4;
     memory_percent := fl (601 # 10);
     memory_total := 17179869184; memory_used := 10325000000;
     memory_available := 6854869184;
     disk_total := 500107862016; disk_used := 225000000000;
     disk_free := 275107862016;
     getloadavg := Some (fl (1523 # 1000));
     net_bytes_sent := 123456789; net_bytes_recv := 987654321;
     net_packets_sent := 100000; net_packets_recv := 200000;
     boot_datetime := mkDatetime 2024 2 27 22 12 9 0;
     now_uptime := mkDatetime 2024 3 1 5 30 0 250000;
     pids := 212;
     now_timestamp := mkDatetime 2024 3 1 5 30 0 250100 |}.

(** ** JSON documents and [json.dump(stats, f, indent=2)] *)

(** The value forms a statistics dictionary is made of. *)
#[warnings="-register-all"]
Inductive json : Type :=
| JNull
| JInt (z : Z)
| JFloat (q : Q)
| JString (s : string)
| JObject (members : list (string * json)).

Definition json_of_number (n : number) : json :=
  match n with
  | NInt z => JInt z
  | NFloat q => JFloat q
  end.

Definition json_of_option_int (o : option Z) : json :=
  match o with
  | Some z => JInt z
  | None => JNull
  end.

(** The dictionary built by [get_system_stats], key by key, in insertion
    order. *)
Definition stats_document (stats : Stats) : json :=
  JObject
    [ ("timestamp", JString (timestamp stats));
      ("cpu", JObject
         [ ("percent", JFloat (Cpu.percent (cpu stats)));
           ("count_logical", json_of_option_int (Cpu.count_logical (cpu stats)));
           ("count_physical", json_of_option_int (Cpu.count_physical (cpu stats)));
           ("load_avg", json_of_number (Cpu.load_avg (cpu stats))) ]);
      ("memory", JObject
         [ ("percent", JFloat (Memory.percent (memory stats)));
           ("total_gb", JFloat (Memory.total_gb (memory stats)));
           ("used_gb", JFloat (Memory.used_gb (memory stats)));
           ("available_gb", JFloat (Memory.available_gb (memory stats))) ]);
      ("disk", JObject
         [ ("percent", JFloat (Disk.percent (disk stats)));
           ("total_gb", JFloat (Disk.total_gb (disk stats)));
           ("used_gb", JFloat (Disk.used_gb (disk stats)));
           ("free_gb", JFloat (Disk.free_gb (disk stats))) ]);
      ("network", JObject
         [ ("bytes_sent", JInt (Network.bytes_sent (network stats)));
           ("bytes_recv", JInt (Network.bytes_recv (network stats)));
           ("packets_sent", JInt (Network.packets_sent (network stats)));
           ("packets_recv", JInt (Network.packets_recv (network stats))) ]);
      ("system", JObject
         [ ("uptime_days", JInt (System.uptime_days (system stats)));
           ("uptime_hours", JInt (System.uptime_hours (system stats)));
           ("process_count", JInt (System.process_count (system stats)));
           ("boot_time", JString (System.boot_time (system stats))) ]) ].

Definition dquote : ascii := ascii_of_nat 34.

Definition hex_digit (n : N) : ascii :=
  ascii_of_N (if (n <? 10)%N then 48 + n else 87 + n).

(** One character of a string literal ([ensure_ascii=True]): the printable
    ASCII characters stand for themselves, but for the quote and the
    backslash.  A character is read as the code point of its code, below
    256. *)
Definition encode_char (c : ascii) : string :=
  let n := N_of_ascii c in
  if (n =? 34)%N then String "\" (String dquote EmptyString)
  else if (n =? 92)%N then "\\"
  else if (n =? 10)%N then "\n"
  else if (n =? 13)%N then "\r"
  else if (n =? 9)%N then "\t"
  else if (n =? 8)%N then "\b"
  else if (n =? 12)%N then "\f"
  else if ((n <? 32) || (126 <? n))%N then
    "\u00" ++ String (hex_digit (n / 16)) (String (hex_digit (n mod 16)) EmptyString)
  else String c EmptyString.

Fixpoint encode_chars (s : string) : string :=
  match s with
  | EmptyString => EmptyString
  | String c rest => encode_char c ++ encode_chars rest
  end.

Definition encode_string (s : string) : string :=
  String dquote (encode_chars s ++ String dquote EmptyString).

(** [indent * level] spaces, with [indent=2]. *)
Fixpoint spaces (n : nat) : string :=
  match n with
  | O => EmptyString
  | S n' => String " " (spaces n')
  end.

Definition newline_indent (level : nat) : string := nl ++ spaces (2 * level).

(** The encoder, at a nesting level.  An empty dictionary is [{}]; the
    members of another one are written one per line, separated by a comma. *)
Fixpoint dumps_at (level : nat) (j : json) : string :=
  match j with
  | JNull => "null"
  | JInt z => str_int z
  | JFloat q => float_repr q
  | JString s => encode_string s
  | JObject members =>
      match members with
      | [] => "{}"
      | (k0, v0) :: rest =>
          "{" ++ newline_indent (S level)
            ++ encode_string k0 ++ ": " ++ dumps_at (S level) v0
            ++ (fix members_tail (ms : list (string * json)) : string :=
                  match ms with
                  | [] => newline_indent level ++ "}"
                  | (k, v) :: ms' =>
                      "," ++ newline_indent (S level)
                        ++ encode_string k ++ ": " ++ dumps_at (S level) v
                        ++ members_tail ms'
                  end) rest
      end
  end.

(** [json.dumps(obj, indent=2)] *)
Definition json_dumps (j : json) : string := dumps_at 0 j.

(** ** Reading a JSON text back: [json.loads]

    The reader follows the decoder of the [json] module on the value forms
    above: [null], numbers, strings and objects.  Arrays, booleans and the
    non-standard constants are not read (a statistics file holds none). *)

Definition is_digit (c : ascii) : bool :=
  let n := N_of_ascii c in ((48 <=? n) && (n <=? 57))%N.

Definition digit_value (c : ascii) : Z := Z.of_N (N_of_ascii c) - 48.

(** The longest run of digits at the head of a text, and what follows. *)
Fixpoint span_digits (s : string) : string * string :=
  match s with
  | EmptyString => (EmptyString, EmptyString)
  | String c s' =>
      if is_digit c
      then let (d, r) := span_digits s' in (String c d, r)
      else (EmptyString, s)
  end.

Fixpoint digits_value_acc (acc : Z) (s : string) : Z :=
  match s with
  | EmptyString => acc
  | String c s' => digits_value_acc (acc * 10 + digit_value c) s'
  end.

(** [int(s)] on a run of digits. *)
Definition digits_value (s : string) : Z := digits_value_acc 0 s.

Definition is_whitespace (c : ascii) : bool :=
  let n := N_of_ascii c in
  ((n =? 32) || (n =? 9) || (n =? 10) || (n =? 13))%N.

Fixpoint skip_ws (s : string) : string :=
  match s with
  | EmptyString => EmptyString
  | String c s' => if is_whitespace c then skip_ws s' else s
  end.

(** The integer part of a number: [0], or a run of digits that does not
    start with [0]. *)
Definition scan_int_part (s : string) : option (string * string) :=
  match s with
  | EmptyString => None
  | String c r =>
      if Ascii.eqb c "0" then Some ("0", r)
      else if is_digit c then Some (span_digits s)
      else None
  end.

(** The fraction: a dot and at least one digit. *)
Definition scan_frac (s : string) : option string * string :=
  match s with
  | EmptyString => (None, s)
  | String c r =>
      if Ascii.eqb c "." then
        match span_digits r with
        | (EmptyString, _) => (None, s)
        | (fs, r') => (Some fs, r')
        end
      else (None, s)
  end.

(** The exponent: [e] or [E], an optional sign and at least one digit. *)
Definition scan_exp (s : string) : option (bool * string) * string :=
  match s with
  | EmptyString => (None, s)
  | String c r =>
      if Ascii.eqb c "e" || Ascii.eqb c "E" then
        let (neg, r1) :=
          match r with
          | EmptyString => (false, r)
          | String g r' =>
              if Ascii.eqb g "-" then (true, r')
              else if Ascii.eqb g "+" then (false, r')
              else (false, r)
          end in
        match span_digits r1 with
        | (EmptyString, _) => (None, s)
        | (es, r') => (Some (neg, es), r')
        end
      else (None, s)
  end.

(** A number after its sign: an [int] when it has neither fraction nor
    exponent, otherwise the [float] nearest to the decimal written. *)
Definition parse_magnitude (neg : bool) (s1 : string) : option (json * string) :=
  match scan_int_part s1 with
  | None => None
  | Some (ip, s2) =>
      let (frac, s3) := scan_frac s2 in
      let (exp, s4) := scan_exp s3 in
      match frac, exp with
      | None, None =>
          Some (JInt (if neg then - digits_value ip else digits_value ip), s4)
      | _, _ =>
          let fv :=
            match frac with
            | Some fs =>
                (inject_Z (digits_value fs)
                   * Qpow10 (- Z.of_nat (String.length fs)))%Q
            | None => 0%Q
            end in
          let ev :=
            match exp with
            | Some (eneg, es) =>
                if eneg then - digits_value es else digits_value es
            | None => 0
            end in
          let mag := fl ((inject_Z (digits_value ip) + fv) * Qpow10 ev) in
          Some (JFloat (if neg then (- mag)%Q else mag), s4)
      end
  end.

(** A number, with its optional minus sign. *)
Definition parse_number (s : string) : option (json * string) :=
  match s with
  | EmptyString => None
  | String c r =>
      if Ascii.eqb c "-" then parse_magnitude true r else parse_magnitude false s
  end.

Definition hex_value (c : ascii) : option N :=
  let n := N_of_ascii c in
  if ((48 <=? n) && (n <=? 57))%N then Some (n - 48)%N
  else if ((97 <=? n) && (n <=? 102))%N then Some (n - 87)%N
  else if ((65 <=? n) && (n <=? 70))%N then Some (n - 55)%N
  else None.

(** The character an escape letter stands for. *)
Definition unescape (c : ascii) : option ascii :=
  let n := N_of_ascii c in
  if (n =? 34)%N then Some c            (* quote *)
  else if (n =? 92)%N then Some c       (* backslash *)
  else if (n =? 47)%N then Some c       (* slash *)
  else if (n =? 98)%N then Some (ascii_of_N 8)
  else if (n =? 102)%N then Some (ascii_of_N 12)
  else if (n =? 110)%N then Some (ascii_of_N 10)
  else if (n =? 114)%N then Some (ascii_of_N 13)
  else if (n =? 116)%N then Some (ascii_of_N 9)
  else None.

(** The content of a string literal, read from after its opening quote, and
    the text after its closing quote.  Control characters must be escaped;
    an escaped code point of 256 or more is outside the model. *)
Fixpoint scan_string (s : string) : option (string * string) :=
  match s with
  | EmptyString => None
  | String c r =>
      if (N_of_ascii c =? 34)%N then Some (EmptyString, r)
      else if (N_of_ascii c =? 92)%N then
        match r with
        | EmptyString => None
        | String e r' =>
            if (N_of_ascii e =? 117)%N then
              match r' with
              | String h1 (String h2 (String h3 (String h4 r''))) =>
                  match hex_value h1, hex_value h2, hex_value h3, hex_value h4 with
                  | Some a, Some b, Some c', Some d =>
                      let n := (((a * 16 + b) * 16 + c') * 16 + d)%N in
                      if (n <? 256)%N then
                        match scan_string r'' with
                        | Some (str, rest) => Some (String (ascii_of_N n) str, rest)
                        | None => None
                        end
                      else None
                  | _, _, _, _ => None
                  end
              | _ => None
              end
            else
              match unescape e with
              | Some ch =>
                  match scan_string r' with
                  | Some (str, rest) => Some (String ch str, rest)
                  | None => None
                  end
              | None => None
              end
        end
      else if (N_of_ascii c <? 32)%N then None
      else
        match scan_string r with
        | Some (str, rest) => Some (String c str, rest)
        | None => None
        end
  end.

(** [d[k] = v] on a dictionary kept in insertion order. *)
Fixpoint dict_set (k : string) (v : json) (d : list (string * json))
  : list (string * json) :=
  match d with
  | [] => [(k, v)]
  | (k', v') :: d' =>
      if String.eqb k k' then (k', v) :: d' else (k', v') :: dict_set k v d'
  end.

(** [dict(pairs)] *)
Definition dict_of_pairs (pairs : list (string * json)) : list (string * json) :=
  fold_left (fun d kv => dict_set (fst kv) (snd kv) d) pairs [].

(** One value ([scan_once]) and the members of an object ([JSONObject],
    entered after the opening quote of a key).  The fuel bounds the number
    of nested calls. *)
Fixpoint parse_value (fuel : nat) (s : string) {struct fuel}
  : option (json * string) :=
  match fuel with
  | O => None
  | S fuel' =>
      match s with
      | EmptyString => None
      | String c r =>
          if (N_of_ascii c =? 34)%N then
            match scan_string r with
            | Some (str, rest) => Some (JString str, rest)
            | None => None
            end
          else if (N_of_ascii c =? 123)%N then
            match skip_ws r with
            | EmptyString => None
            | String c1 r1 =>
                if (N_of_ascii c1 =? 125)%N then Some (JObject [], r1)
                else if (N_of_ascii c1 =? 34)%N then
                  match parse_members fuel' r1 with
                  | Some (pairs, rest) => Some (JObject (dict_of_pairs pairs), rest)
                  | None => None
                  end
                else None
            end
          else if (N_of_ascii c =? 110)%N then
            if starts_with "ull" r then Some (JNull, drop 3 r) else None
          else parse_number s
      end
  end
with parse_members (fuel : nat) (s : string) {struct fuel}
  : option (list (string * json) * string) :=
  match fuel with
  | O => None
  | S fuel' =>
      match scan_string s with
      | None => None
      | Some (key, s1) =>
          match skip_ws s1 with
          | EmptyString => None
          | String c s2 =>
              if (N_of_ascii c =? 58)%N then
                match parse_value fuel' (skip_ws s2) with
                | None => None
                | Some (v, s3) =>
                    match skip_ws s3 with
                    | EmptyString => None
                    | String c' s4 =>
                        if (N_of_ascii c' =? 125)%N then Some ([(key, v)], s4)
                        else if (N_of_ascii c' =? 44)%N then
                          match skip_ws s4 with
                          | EmptyString => None
                          | String q s5 =>
                              if (N_of_ascii q =? 34)%N then
                                match parse_members fuel' s5 with
                                | Some (ms, rest) => Some ((key, v) :: ms, rest)
                                | None => None
                                end
                              else None
                          end
                        else None
                    end
                end
              else None
          end
      end
  end.

(** [json.loads(s)]: one value between optional whitespace, and nothing
    after it. *)
Definition json_loads (s : string) : option json :=
  match parse_value (S (String.length s)) (skip_ws s) with
  | Some (j, rest) =>
      match skip_ws rest with
      | EmptyString => Some j
      | _ => None
      end
  | None => None
  end.

(** Two documents are the same when they have the same shape, the same
    keys in the same order, and equal values; floats are compared by
    value. *)
Fixpoint json_equiv (a b : json) : Prop :=
  match a, b with
  | JNull, JNull => True
  | JInt x, JInt y => x = y
  | JFloat x, JFloat y => (x == y)%Q
  | JString x, JString y => x = y
  | JObject ms, JObject ns =>
      (fix members (ms ns : list (string * json)) : Prop :=
         match ms, ns with
         | [], [] => True
         | (k, v) :: ms', (k', v') :: ns' =>
             k = k' /\ json_equiv v v' /\ members ms' ns'
         | _, _ => False
         end) ms ns
  | _, _ => False
  end.

(** *** Reading a snapshot off a document

    What a reader of the file does with the document: [doc["cpu"]["percent"]]
    and so on, for every field of the snapshot. *)

(** [d[k]] on a dictionary. *)
Fixpoint dict_get (k : string) (d : list (string * json)) : option json :=
  match d with
  | [] => None
  | (k', v) :: d' => if String.eqb k k' then Some v else dict_get k d'
  end.

(** [doc[k1][k2]...]: [None] when a key is missing or a value on the way is
    not a dictionary. *)
Fixpoint json_path (doc : json) (path : list string) : option json :=
  match path with
  | [] => Some doc
  | k :: path' =>
      match doc with
      | JObject members =>
          match dict_get k members with
          | Some v => json_path v path'
          | None => None
          end
      | _ => None
      end
  end.

Definition float_at (doc : json) (path : list string) : option Q :=
  match json_path doc path with
  | Some (JFloat q) => Some q
  | _ => None
  end.

Definition int_at (doc : json) (path : list string) : option Z :=
  match json_path doc path with
  | Some (JInt z) => Some z
  | _ => None
  end.

Definition string_at (doc : json) (path : list string) : option string :=
  match json_path doc path with
  | Some (JString s) => Some s
  | _ => None
  end.

(** An [int] or [None]. *)
Definition option_int_at (doc : json) (path : list string) : option (option Z) :=
  match json_path doc path with
  | Some (JInt z) => Some (Some z)
  | Some JNull => Some None
  | _ => None
  end.

(** An [int] or a [float]. *)
Definition number_at (doc : json) (path : list string) : option number :=
  match json_path doc path with
  | Some (JInt z) => Some (NInt z)
  | Some (JFloat q) => Some (NFloat q)
  | _ => None
  end.

Definition and_then {A B} (o : option A) (k : A -> option B) : option B :=
  match o with
  | Some a => k a
  | None => None
  end.

(** The snapshot a document holds: every field, read at its path. *)
Definition stats_of_document (doc : json) : option Stats :=
  and_then (string_at doc ["timestamp"]) (fun ts =>
  and_then (float_at doc ["cpu"; "percent"]) (fun cpu_percent =>
  and_then (option_int_at doc ["cpu"; "count_logical"]) (fun count_logical =>
  and_then (option_int_at doc ["cpu"; "count_physical"]) (fun count_physical =>
  and_then (number_at doc ["cpu"; "load_avg"]) (fun load_avg =>
  and_then (float_at doc ["memory"; "percent"]) (fun memory_percent =>
  and_then (float_at doc ["memory"; "total_gb"]) (fun memory_total_gb =>
  and_then (float_at doc ["memory"; "used_gb"]) (fun memory_used_gb =>
  and_then (float_at doc ["memory"; "available_gb"]) (fun memory_available_gb =>
  and_then (float_at doc ["disk"; "percent"]) (fun disk_percent =>
  and_then (float_at doc ["disk"; "total_gb"]) (fun disk_total_gb =>
  and_then (float_at doc ["disk"; "used_gb"]) (fun disk_used_gb =>
  and_then (float_at doc ["disk"; "free_gb"]) (fun disk_free_gb =>
  and_then (int_at doc ["network"; "bytes_sent"]) (fun bytes_sent =>
  and_then (int_at doc ["network"; "bytes_recv"]) (fun bytes_recv =>
  and_then (int_at doc ["network"; "packets_sent"]) (fun packets_sent =>
  and_then (int_at doc ["network"; "packets_recv"]) (fun packets_recv =>
  and_then (int_at doc ["system"; "uptime_days"]) (fun uptime_days =>
  and_then (int_at doc ["system"; "uptime_hours"]) (fun uptime_hours =>
  and_then (int_at doc ["system"; "process_count"]) (fun process_count =>
  and_then (string_at doc ["system"; "boot_time"]) (fun boot_time =>
  Some
    {| timestamp := ts;
       cpu := {| Cpu.percent := cpu_percent;
                 Cpu.count_logical := count_logical;
                 Cpu.count_physical := count_physical;
                 Cpu.load_avg := load_avg |};
       memory := {| Memory.percent := memory_percent;
                    Memory.total_gb := memory_total_gb;
                    Memory.used_gb := memory_used_gb;
                    Memory.available_gb := memory_available_gb |};
       disk := {| Disk.percent := disk_percent;
                  Disk.total_gb := disk_total_gb;
                  Disk.used_gb := disk_used_gb;
                  Disk.free_gb := disk_free_gb |};
       network := {| Network.bytes_sent := bytes_sent;
                     Network.bytes_recv := bytes_recv;
                     Network.packets_sent := packets_sent;
                     Network.packets_recv := packets_recv |};
       system := {| System.uptime_days := uptime_days;
                    System.uptime_hours := uptime_hours;
                    System.process_count := process_count;
                    System.boot_time := boot_time |} |}))))))))))))))))))))).

(** The keys of a dictionary, in its order; [None] on another value. *)
Definition json_keys (doc : option json) : option (list string) :=
  match doc with
  | Some (JObject members) => Some (map fst members)
  | _ => None
  end.

(** Two numbers of the same type and the same value. *)
Definition number_equiv (a b : number) : Prop :=
  match a, b with
  | NInt x, NInt y => x = y
  | NFloat x, NFloat y => (x == y)%Q
  | _, _ => False
  end.

(** Two snapshots that agree field by field: the floats by value, the rest
    exactly. *)
Definition stats_equiv (a b : Stats) : Prop :=
  timestamp a = timestamp b
  /\ (Cpu.percent (cpu a) == Cpu.percent (cpu b))%Q
  /\ Cpu.count_logical (cpu a) = Cpu.count_logical (cpu b)
  /\ Cpu.count_physical (cpu a) = Cpu.count_physical (cpu b)
  /\ number_equiv (Cpu.load_avg (cpu a)) (Cpu.load_avg (cpu b))
  /\ (Memory.percent (memory a) == Memory.percent (memory b))%Q
  /\ (Memory.total_gb (memory a) == Memory.total_gb (memory b))%Q
  /\ (Memory.used_gb (memory a) == Memory.used_gb (memory b))%Q
  /\ (Memory.available_gb (memory a) == Memory.available_gb (memory b))%Q
  /\ (Disk.percent (disk a) == Disk.percent (disk b))%Q
  /\ (Disk.total_gb (disk a) == Disk.total_gb (disk b))%Q
  /\ (Disk.used_gb (disk a) == Disk.used_gb (disk b))%Q
  /\ (Disk.free_gb (disk a) == Disk.free_gb (disk b))%Q
  /\ network a = network b
  /\ system a = system b.

(** ** The methods of [SystemMonitor] *)


Definition is_empty {A} (l : list A) : bool :=
  match l with
  | [] => true
  | _ :: _ => false
  end.

(** The condition under which [send_alert] goes past its two early returns
    and enters the [try] block. *)
Definition gate_passes (self : SystemMonitor) (alerts : list string) : bool :=
  negb (is_empty alerts || negb (Email.enabled (email (config self))))
    && negb (alert_sent self).

(** [SystemMonitor.send_alert].  The message is composed from [alerts] and
    [stats] and handed to smtplib: the event [SmtpSend] records the attempt
    together with what the server side answered.  The flag is assigned after
    [send_message] and [quit] have returned. *)
Definition send_alert (smtp : SmtpOutcome) (alerts : list string) (stats : Stats)
  : M unit :=
  cfg <- get_config ;;
  if is_empty alerts || negb (Email.enabled (email cfg)) then ret tt
  else
    sent <- get_alert_sent ;;
    (* Prevent spam - only send one alert per monitoring session *)
    if sent then ret tt
    else
      try_except_Exception
        (emit (SmtpSend (email cfg) alerts stats smtp) ;;;
         match smtp with
         | SmtpOk => ret tt
         | SmtpRaises e => raise e
         end ;;;
         emit (Log INFO "Alert email sent successfully") ;;;
         put_alert_sent true)
        (fun e => emit (Log ERROR ("Failed to send email alert: " ++ exn_str e))).

(** [SystemMonitor.display_stats]: the console report, kept as one event
    that carries what the text is rendered from.  [console] is what one of
    its [print] calls raises, if one does ([UnicodeEncodeError] on a console
    that cannot encode the literals of the report, [BrokenPipeError]): the
    exception leaves the method, which has no [try]. *)
Definition display_stats (console : option exn) (stats : Stats)
    (alerts : list string) : M unit :=
  emit (Display stats alerts) ;;;
  match console with
  | None => ret tt
  | Some e => raise e
  end.

(** How the writing of the file fails, when it does: [open(filename, 'w')]
    raises and no file is created; or the file has been created or
    truncated, and [json.dump] or the closing of the file raises after
    [written] has reached it. *)
Inductive WriteFailure : Type :=
| OpenRaises (e : exn)
| DumpRaises (written : string) (e : exn).

(** [SystemMonitor.save_stats_json].  An empty file name is falsy, like
    [None]. *)
Definition save_stats_json (now : datetime) (write_error : option WriteFailure)
    (stats : Stats) (filename : option string) : M unit :=
  let filename :=
    match filename with
    | None | Some EmptyString =>
        "system_stats_" ++ strftime_compact now ++ ".json"
    | Some f => f
    end in
  try_except_Exception
    (match write_error with
     | None => emit (FileWrite filename (json_dumps (stats_document stats)))
     | Some (OpenRaises e) => raise e
     | Some (DumpRaises written e) => emit (FileWrite filename written) ;;; raise e
     end ;;;
     emit (Log INFO ("Statistics saved to " ++ filename)))
    (fun e => emit (Log ERROR ("Failed to save statistics: " ++ exn_str e))).

(** What the outside world does during one cycle of the loop. *)
Record CycleEnv : Type := mkCycle {
  probe : Probe;              (* the sampling *)
  smtp : SmtpOutcome;         (* the SMTP server, if it is contacted *)
  interrupted : bool;         (* Ctrl-C arrives during the sleep *)
  console : option exn        (* what a print of the report raises *)
}.

(** [SystemMonitor.run_once] *)
Definition run_once (env : CycleEnv) : M (option Stats) :=
  stats <- get_system_stats (probe env) ;;
  match stats with
  | None => ret None
  | Some stats =>
      cfg <- get_config ;;
      let alerts := check_thresholds cfg stats in
      display_stats (console env) stats alerts ;;;
      (if is_empty alerts then ret tt
       else
         emit (Log WARNING
                 ("System alerts triggered: "
                    ++ str_int (Z.of_nat (List.length alerts))
                    ++ " threshold(s) exceeded")) ;;;
         send_alert (smtp env) alerts stats) ;;;
      ret (Some stats)
  end.

(** [time.sleep(secs)]: a negative length is a [ValueError]; the wait can be
    interrupted from the keyboard.  A length whose nanoseconds do not fit
    the 64 bits of the C timestamp (beyond 9223372036 seconds either way) is
    an [OverflowError] in CPython: such lengths are outside this definition,
    and the properties that depend on the sleep take the interval within
    that range. *)
Definition time_sleep (interrupt : bool) (secs : number) : M unit :=
  if Qgtb 0 (num_value secs)
  then raise (ValueError "sleep length must be non-negative")
  else
    emit (Sleep secs) ;;;
    if interrupt then raise KeyboardInterrupt else ret tt.

(** How a run of the continuous loop is left. *)
Inductive LoopEnd : Type :=
| StillRunning   (* the supplied cycles are used up; the loop goes on *)
| Stopped.       (* [run_monitoring] returned after a [KeyboardInterrupt] *)

(** The body of [while True], over the cycles the environment supplies. *)
Fixpoint monitoring_loop (envs : list CycleEnv) : M LoopEnd :=
  match envs with
  | [] => ret StillRunning
  | env :: envs' =>
      stats <- run_once env ;;
      match stats with
      | Some stats =>
          (* Log basic stats *)
          emit (Log INFO
                  ("CPU: " ++ format_1f (Cpu.percent (cpu stats)) ++ "% | "
                     ++ "Memory: " ++ format_1f (Memory.percent (memory stats)) ++ "% | "
                     ++ "Disk: " ++ format_1f (Disk.percent (disk stats)) ++ "%"))
      | None => ret tt
      end ;;;
      cfg <- get_config ;;
      time_sleep (interrupted env) (check_interval cfg) ;;;
      monitoring_loop envs'
  end.

(** [SystemMonitor.run_monitoring] *)
Definition run_monitoring (envs : list CycleEnv) : M LoopEnd :=
  cfg <- get_config ;;
  emit (Log INFO "Starting system health monitoring...") ;;;
  emit (Log INFO ("Monitoring interval: " ++ str_number (check_interval cfg)
                    ++ " seconds")) ;;;
  emit (Log INFO
          ("Thresholds - CPU: " ++ str_number (Thresholds.cpu (thresholds cfg)) ++ "%, "
             ++ "Memory: " ++ str_number (Thresholds.memory (thresholds cfg)) ++ "%, "
             ++ "Disk: " ++ str_number (Thresholds.disk (thresholds cfg)) ++ "%")) ;;;
  try_except_Interrupt_Exception
    (monitoring_loop envs)
    (emit (Log INFO "Monitoring stopped by user.") ;;;
     emit (Print (nl ++ " System monitoring stopped.")) ;;;
     ret Stopped)
    (fun e =>
       emit (Log ERROR ("Monitoring error: " ++ exn_str e)) ;;;
       raise e).

(** ** Start-up: [_load_config], [__init__] and [main] *)

(** What opening and parsing the configuration file does: an exception
    raised in the [try] block, or the parsed document.  [yaml.safe_load]
    returns whatever the file holds and the program does not validate it;
    [Loaded] stands for the files that hold a mapping with every key the
    program reads and values of the types it expects (numbers for the
    thresholds and the interval, a truth value for [enabled], strings for
    the rest).  A document without one of these keys or with a value of
    another type makes the first look-up or comparison on it raise
    [KeyError] or [TypeError], in [_setup_logging] or later in a cycle:
    such documents are outside [Config], and so outside every property
    below. *)
Inductive ConfigSource : Type :=
| LoadRaises (e : exn)
| Loaded (c : Config).


(** [SystemMonitor._load_config]: the two [except] clauses name
    [FileNotFoundError] and [yaml.YAMLError]; anything else propagates. *)
Definition _load_config (config_file : string) (src : ConfigSource)
  : outcome Config * list event :=
  match src with
  | Loaded c => (Ret c, [])
  | LoadRaises (FileNotFoundError _) =>
      (Ret _get_default_config,
       [Print ("Config file " ++ config_file ++ " not found. Using default settings.")])
  | LoadRaises (YAMLError m) =>
      (Ret _get_default_config, [Print ("Error parsing config file: " ++ m)])
  | LoadRaises e => (Raise e, [])
  end.

(** [SystemMonitor.__init__]; [logging_error] is what [_setup_logging]
    raises, if it does: the look-up of the level name, or the opening of the
    log file.  When it does not, [logging.FileHandler] has opened the log
    file the configuration names. *)
Definition init (config_file : string) (src : ConfigSource)
    (logging_error : option exn) : outcome SystemMonitor * list event :=
  match _load_config config_file src with
  | (Ret c, t) =>
      match logging_error with
      | Some e => (Raise e, t)
      | None =>
          (Ret {| config_file := config_file; config := c; alert_sent := false |},
           (t ++ [LogFileOpen (Logging.file (logging c))])%list)
      end
  | (Raise e, t) => (Raise e, t)
  end.

(** The parsed command line. *)
Record Args : Type := mkArgs {
  args_config : string;
  args_once : bool;
  args_json : option string
}.

(** What the outside world does during one run of the program. *)
Record RunEnv : Type := mkRun {
  config_source : ConfigSource;
  logging_error : option exn;
  first_cycle : CycleEnv;
  later_cycles : list CycleEnv;
  now_filename : datetime;
  write_error : option WriteFailure
}.

Definition truthy_string (o : option string) : bool :=
  match o with
  | None | Some EmptyString => false
  | Some _ => true
  end.

(** [main]: the exit status, and the trace.  [None] is the status of a run
    whose loop is still going when the supplied cycles are used up. *)
Definition main (args : Args) (env : RunEnv) : option Z * list event :=
  match init (args_config args) (config_source env) (logging_error env) with
  | (Raise e, t) =>
      if is_Exception e
      then (Some 1, t ++ [Print (nl ++ " Error: " ++ exn_str e)])%list
      else (Some 0, t ++ [Print (nl ++ " Goodbye!")])%list
  | (Ret monitor, t) =>
      let body : M (option LoopEnd) :=
        if args_once args then
          stats <- run_once (first_cycle env) ;;
          match stats with
          | Some stats =>
              if truthy_string (args_json args)
              then save_stats_json (now_filename env) (write_error env)
                     stats (args_json args) ;;; ret None
              else ret None
          | None => ret None
          end
        else
          r <- run_monitoring (first_cycle env :: later_cycles env) ;;
          ret (Some r) in
      match body monitor with
      | (Ret (Some StillRunning), _, t') => (None, t ++ t')%list
      | (Ret _, _, t') => (Some 0, t ++ t')%list
      | (Raise e, _, t') =>
          if is_Exception e
          then (Some 1, t ++ t' ++ [Print (nl ++ " Error: " ++ exn_str e)])%list
          else (Some 0, t ++ t' ++ [Print (nl ++ " Goodbye!")])%list
      end
  end.

Definition sample_monitor (enabled : bool) : SystemMonitor :=
  {| config_file := "config.yaml";
     config := {| thresholds := thresholds _get_default_config;
                  check_interval := NInt 60;
                  email := {| Email.enabled := enabled;
                              Email.smtp_server := "smtp.example.com";
                              Email.port := 587;
                              Email.from_ := "monitoring@example.com";
                              Email.to_ := "admin@example.com";
                              Email.username := "monitor";
                              Email.password := "secret" |};
                  logging := logging _get_default_config |};
     alert_sent := false |}.

Definition hot : Probe := ProbeReads sample_readings.

(** The snapshot built from [sample_readings]. *)
Definition sample_snapshot : Stats :=
  match collect sample_readings with
  | Ret stats => stats
  | Raise _ => sample_stats 0 0 0
  end.

(** The parts of what a method returns. *)
Definition result_of {A} (x : outcome A * SystemMonitor * list event) : outcome A :=
  fst (fst x).

Definition monitor_of {A} (x : outcome A * SystemMonitor * list event)
  : SystemMonitor := snd (fst x).

Definition trace_of {A} (x : outcome A * SystemMonitor * list event)
  : list event := snd x.

(** The number of dispatch attempts in a trace, and the number of those
    whose whole conversation returned. *)
Definition is_attempt (ev : event) : bool :=
  match ev with
  | SmtpSend _ _ _ _ => true
  | _ => false
  end.

Definition is_completed (ev : event) : bool :=
  match ev with
  | SmtpSend _ _ _ SmtpOk => true
  | _ => false
  end.

Definition is_display (ev : event) : bool :=
  match ev with
  | Display _ _ => true
  | _ => false
  end.

Definition dispatch_attempts (t : list event) : nat :=
  List.length (filter is_attempt t).

Definition completions (t : list event) : nat :=
  List.length (filter is_completed t).

(** The number of dispatch attempts that follow the first conversation
    that returned. *)
Fixpoint attempts_after_completion (t : list event) : nat :=
  match t with
  | [] => 0%nat
  | ev :: t' =>
      if is_completed ev then dispatch_attempts t' else attempts_after_completion t'
  end.

(** The time between the boot and the sampling, in microseconds, counted
    directly on the two clock readings. *)
Definition elapsed_microseconds (r : Readings) : Z :=
  let secs (x : datetime) := second x + minute x * 60 + hour x * 3600 in
  ((toordinal (now_uptime r) - toordinal (boot_datetime r)) * 86400
     + (secs (now_uptime r) - secs (boot_datetime r))) * 1000000
    + (microsecond (now_uptime r) - microsecond (boot_datetime r)).

(** The parts of what [_load_config] and [init] return. *)
Definition loaded {A} (x : outcome A * list event) : outcome A := fst x.

Fixpoint all_digits (s : string) : bool :=
  match s with
  | EmptyString => true
  | String c s' => is_digit c && all_digits s'
  end.

(** The characters that can continue a number. *)
Definition number_char (c : ascii) : bool :=
  is_digit c || Ascii.eqb c "." || Ascii.eqb c "e" || Ascii.eqb c "E".

(** A text in front of which a number ends: the empty text, or one that
    starts with another character than those. *)
Definition delimited (rest : string) : Prop :=
  match rest with
  | EmptyString => True
  | String c _ => number_char c = false
  end.

Definition no_digit_head (s : string) : Prop :=
  match s with
  | EmptyString => True
  | String c _ => is_digit c = false
  end.

(** The parts of a number that has a fraction or an exponent: the text of
    each, what makes them well formed, and the decimal they denote. *)
Definition frac_text (fs : option string) : string :=
  match fs with
  | Some f => String "." f
  | None => EmptyString
  end.

Definition exp_text (ex : option (bool * string)) : string :=
  match ex with
  | Some (neg, es) => String "e" (String (if neg then "-"%char else "+"%char) es)
  | None => EmptyString
  end.

Definition digits_ok (s : string) : Prop :=
  s <> EmptyString /\ all_digits s = true.

Definition int_part_ok (ip : string) : Prop :=
  ip = "0"
  \/ exists c ds, ip = String c ds /\ all_digits ip = true
                  /\ Ascii.eqb c "0" = false.

Definition frac_ok (fs : option string) : Prop :=
  match fs with
  | Some f => digits_ok f
  | None => True
  end.

Definition exp_ok (ex : option (bool * string)) : Prop :=
  match ex with
  | Some (_, es) => digits_ok es
  | None => True
  end.

Definition decimal_of (ip : string) (fs : option string)
    (ex : option (bool * string)) : Q :=
  let fv :=
    match fs with
    | Some f =>
        (inject_Z (digits_value f) * Qpow10 (- Z.of_nat (String.length f)))%Q
    | None => 0%Q
    end in
  let ev :=
    match ex with
    | Some (eneg, es) => if eneg then - digits_value es else digits_value es
    | None => 0
    end in
  ((inject_Z (digits_value ip) + fv) * Qpow10 ev)%Q.

(** The members of an object after the first one, and the closing brace,
    as [dumps_at] writes them. *)
Fixpoint members_tail (level : nat) (ms : list (string * json)) : string :=
  match ms with
  | [] => newline_indent level ++ "}"
  | (k, v) :: ms' =>
      "," ++ newline_indent (S level)
        ++ encode_string k ++ ": " ++ dumps_at (S level) v
        ++ members_tail level ms'
  end.

(** The same relation on the members of two objects. *)
Fixpoint members_equiv (ms ns : list (string * json)) : Prop :=
  match ms, ns with
  | [], [] => True
  | (k, v) :: ms', (k', v') :: ns' =>
      k = k' /\ json_equiv v v' /\ members_equiv ms' ns'
  | _, _ => False
  end.

Fixpoint distinct (keys : list string) : bool :=
  match keys with
  | [] => true
  | k :: keys' => negb (existsb (String.eqb k) keys') && distinct keys'
  end.

(** A document [json.dump] writes faithfully: its floats have a text and no
    object holds a key twice. *)
Fixpoint json_wf (j : json) : bool :=
  match j with
  | JFloat q => has_repr q
  | JObject ms =>
      distinct (map fst ms)
      && (fix all (ms : list (string * json)) : bool :=
            match ms with
            | [] => true
            | (_, v) :: ms' => json_wf v && all ms'
            end) ms
  | _ => true
  end.

Fixpoint members_wf (ms : list (string * json)) : bool :=
  match ms with
  | [] => true
  | (_, v) :: ms' => json_wf v && members_wf ms'
  end.

(** The number of values and members of a document: the reader needs no
    more nested calls than that. *)
Fixpoint json_size (j : json) : nat :=
  match j with
  | JObject ms =>
      S ((fix sum (ms : list (string * json)) : nat :=
            match ms with
            | [] => O
            | (_, v) :: ms' => S (json_size v + sum ms')
            end) ms)
  | _ => 1%nat
  end.

Fixpoint members_size (ms : list (string * json)) : nat :=
  match ms with
  | [] => O
  | (_, v) :: ms' => S (json_size v + members_size ms')
  end.

(** The floats of a snapshot. *)
Definition stats_floats (stats : Stats) : list Q :=
  [ Cpu.percent (cpu stats) ]
    ++ match Cpu.load_avg (cpu stats) with
       | NFloat q => [q]
       | NInt _ => []
       end
    ++ [ Memory.percent (memory stats); Memory.total_gb (memory stats);
         Memory.used_gb (memory stats); Memory.available_gb (memory stats);
         Disk.percent (disk stats); Disk.total_gb (disk stats);
         Disk.used_gb (disk stats); Disk.free_gb (disk stats) ].

(** What a value starts with. *)
Inductive value_head : ascii -> Prop :=
| head_digit c : is_digit c = true -> value_head c
| head_minus : value_head "-"
| head_quote : value_head dquote
| head_brace : value_head "{"
| head_n : value_head "n".

(** The text of the first member of an object onwards, from after the
    opening quote of its key, followed by [rest]. *)
Definition member_text (level : nat) (k : string) (v : json)
    (ms : list (string * json)) (rest : string) : string :=
  encode_chars k
    ++ String dquote
         (String ":" (String " "
            (dumps_at (S level) v ++ members_tail level ms ++ rest))).

(** A document that is read back from its text, at any nesting level and
    in front of any text that cannot continue a number. *)
Definition reads_back (j : json) : Prop :=
  forall level fuel rest,
    json_wf j = true -> (json_size j <= fuel)%nat -> delimited rest ->
    exists j',
      parse_value fuel (dumps_at level j ++ rest) = Some (j', rest)
      /\ json_equiv j' j.

(** The log records of a trace, in order. *)
Fixpoint log_lines (t : list event) : list (log_level * string) :=
  match t with
  | [] => []
  | Log level msg :: t' => (level, msg) :: log_lines t'
  | _ :: t' => log_lines t'
  end.

(** Cycles for the examples: a sampling over the CPU threshold, and a
    sampling that fails. *)
Definition hot_cycle (answer : SmtpOutcome) : CycleEnv :=
  {| probe := hot; smtp := answer; interrupted := false; console := None |}.

Definition failing_cycle : CycleEnv :=
  {| probe := ProbeRaises (OtherException "psutil failure");
     smtp := SmtpOk; interrupted := false; console := None |}.

Definition smtp_refused : SmtpOutcome :=
  SmtpRaises (OtherException "connection refused").

Definition option_metric_eq_dec (a b : option metric) : {a = b} + {a <> b}.
Proof. decide equality. apply metric_eq_dec. Defined.

(** The number of alerts about a metric in a list of alerts. *)
Definition alerts_about (m : metric) (alerts : list string) : nat :=
  count_occ option_metric_eq_dec (alert_metrics alerts) (Some m).

(** The latch of the notification flag.

    [latch self self' t]: between the monitor [self] and the monitor
    [self'], with trace [t], the configuration is untouched, nothing is
    dispatched when notifications are disabled or the flag is already set,
    no attempt follows a conversation that returned, and the flag at the
    end is the flag at the start or such a conversation in between. *)
Record latch (self self' : SystemMonitor) (t : list event) : Prop := mkLatch {
  latch_config : config self' = config self;
  latch_disabled :
    Email.enabled (email (config self)) = false -> dispatch_attempts t = 0%nat;
  latch_sent : alert_sent self = true -> dispatch_attempts t = 0%nat;
  latch_after : attempts_after_completion t = 0%nat;
  latch_flag : alert_sent self' = alert_sent self || negb (completions t =? 0)%nat
}.

(** A method keeps the latch when every run of it does. *)
Definition Latching {A} (m : M A) : Prop :=
  forall self, latch self (monitor_of (m self)) (trace_of (m self)).

(** ** Runs of the program: what the properties speak of *)

(** What the [try] block of [get_system_stats] comes to: the snapshot, or
    the exception raised on the way. *)
Definition probe_outcome (p : Probe) : outcome Stats :=
  match p with
  | ProbeRaises e => Raise e
  | ProbeReads r => collect r
  end.

(** The kinds of events the properties count. *)
Definition is_file_write (ev : event) : bool :=
  match ev with
  | FileWrite _ _ => true
  | _ => false
  end.


(** A [KeyboardInterrupt] arrives during the sampling. *)
Definition probe_interrupts (p : Probe) : bool :=
  match p with
  | ProbeRaises e => negb (is_Exception e)
  | ProbeReads _ => false
  end.

(** The same, during the SMTP conversation. *)
Definition smtp_interrupts (o : SmtpOutcome) : bool :=
  match o with
  | SmtpRaises e => negb (is_Exception e)
  | SmtpOk => false
  end.


(** A cycle whose report the console accepts: no [print] of
    [display_stats] raises. *)
Definition console_accepts (env : CycleEnv) : bool :=
  match console env with
  | None => true
  | Some _ => false
  end.

(** The events of a cycle: calls of the logger, the report and the SMTP
    conversation. *)
Definition cycle_event (ev : event) : bool :=
  match ev with
  | Log _ _ | Display _ _ | SmtpSend _ _ _ _ => true
  | _ => false
  end.

(** The events of the loop: those of its cycles, the sleeps and the console
    line of the interrupt handler; no file is opened. *)
Definition loop_event (ev : event) : bool :=
  match ev with
  | FileWrite _ _ | LogFileOpen _ => false
  | _ => true
  end.

Definition is_print (ev : event) : bool :=
  match ev with
  | Print _ => true
  | _ => false
  end.

(** A [KeyboardInterrupt] arrives while the statistics file is written. *)
Definition write_interrupts (w : option WriteFailure) : bool :=
  match w with
  | None => false
  | Some (OpenRaises e) | Some (DumpRaises _ e) => negb (is_Exception e)
  end.

(** The call [logger.error("Monitoring error: ...")] of the
    [except Exception] clause of [run_monitoring]. *)
Definition is_monitoring_error (ev : event) : bool :=
  match ev with
  | Log ERROR msg => starts_with "Monitoring error: " msg
  | _ => false
  end.

(** What reaches the statistics file when [save_stats_json] is called on a
    snapshot: the whole text, what was written before the failure, or
    nothing when the file could not be opened. *)
Definition file_content (w : option WriteFailure) (stats : Stats) : option string :=
  match w with
  | None => Some (json_dumps (stats_document stats))
  | Some (OpenRaises _) => None
  | Some (DumpRaises written _) => Some written
  end.

(** The lengths [time.sleep] converts to a C timestamp: their nanoseconds
    fit 64 bits. *)
Definition sleep_range : Z := 9223372036.

(** The interval of the configuration is one [time.sleep] accepts: not
    negative, and in the range of the timestamp. *)
Definition sleepable (self : SystemMonitor) : bool :=
  negb (Qgtb 0 (num_value (check_interval (config self))))
    && Qle_bool (num_value (check_interval (config self))) (inject_Z sleep_range).


(** The byte counts of the readings are those of a machine: not negative
    and below [2 ** 64]. *)
Definition plausible_size (n : Z) : bool := (0 <=? n) && (n <? 2 ^ 64).

Definition plausible_sizes (r : Readings) : bool :=
  plausible_size (memory_total r) && plausible_size (memory_used r)
    && plausible_size (memory_available r) && plausible_size (disk_total r)
    && plausible_size (disk_used r) && plausible_size (disk_free r).

(** The warning [run_once] logs for a list of alerts. *)
Definition alerts_warning (alerts : list string) : event :=
  Log WARNING ("System alerts triggered: "
                 ++ str_int (Z.of_nat (List.length alerts))
                 ++ " threshold(s) exceeded").

(** The summary [run_monitoring] logs after a cycle that sampled. *)
Definition cycle_summary (stats : Stats) : event :=
  Log INFO
    ("CPU: " ++ format_1f (Cpu.percent (cpu stats)) ++ "% | "
       ++ "Memory: " ++ format_1f (Memory.percent (memory stats)) ++ "% | "
       ++ "Disk: " ++ format_1f (Disk.percent (disk stats)) ++ "%").

(** A command line and an environment for the examples: one sampling over
    the CPU threshold, saved to [stats.json]. *)
Definition once_args (json : option string) : Args :=
  {| args_config := "config.yaml"; args_once := true; args_json := json |}.



(** The records of level [WARNING]. *)
Definition is_warning (ev : event) : bool :=
  match ev with
  | Log WARNING _ => true
  | _ => false
  end.

(** The sample readings, on a disk of size zero. *)
Definition zero_disk_readings : Readings :=
  {| cpu_percent := cpu_percent sample_readings;
     cpu_count_logical := cpu_count_logical sample_readings;
     cpu_count_physical := cpu_count_physical sample_readings;
     memory_percent := memory_percent sample_readings;
     memory_total := memory_total sample_readings;
     memory_used := memory_used sample_readings;
     memory_available := memory_available sample_readings;
     disk_total := 0; disk_used := 0; disk_free := 0;
     getloadavg := getloadavg sample_readings;
     net_bytes_sent := net_bytes_sent sample_readings;
     net_bytes_recv := net_bytes_recv sample_readings;
     net_packets_sent := net_packets_sent sample_readings;
     net_packets_recv := net_packets_recv sample_readings;
     boot_datetime := boot_datetime sample_readings;
     now_uptime := now_uptime sample_readings;
     pids := pids sample_readings;
     now_timestamp := now_timestamp sample_readings |}.

(** A date and a time of day that [strftime] prints with four digits for the
    year and two for every other field. *)
Definition four_digit_year (d : datetime) : bool :=
  (1000 <=? year d) && (year d <=? 9999)
  && (1 <=? month d) && (month d <=? 12)
  && (1 <=? day d) && (day d <=? 31)
  && (0 <=? hour d) && (hour d <=? 23)
  && (0 <=? minute d) && (minute d <=? 59)
  && (0 <=? second d) && (second d <=? 59).

(** Two clock readings within the same second. *)
Definition same_second (a b : datetime) : Prop :=
  year a = year b /\ month a = month b /\ day a = day b
  /\ hour a = hour b /\ minute a = minute b /\ second a = second b.

(** The names of the files a trace writes, in order. *)
Fixpoint written_files (t : list event) : list string :=
  match t with
  | [] => []
  | FileWrite name _ :: t' => name :: written_files t'
  | _ :: t' => written_files t'
  end.

(** ** The console report: the text of [display_stats]

    A text is the sequence of the bytes of its UTF-8 encoding, as it reaches
    a UTF-8 console; the literals of the source are copied byte for byte. *)

(** [s * n] *)
Fixpoint str_repeat (s : string) (n : nat) : string :=
  match n with
  | O => EmptyString
  | S n' => s ++ str_repeat s n'
  end.

(** After each digit that is followed by a positive multiple of three
    digits, a comma. *)
Fixpoint group_thousands (digits : string) : string :=
  match digits with
  | EmptyString => EmptyString
  | String c rest =>
      let n := String.length rest in
      if negb (n =? 0)%nat && (n mod 3 =? 0)%nat
      then String c (String "," (group_thousands rest))
      else String c (group_thousands rest)
  end.

(** [f"{n:,}"] on an [int]. *)
Definition format_comma (z : Z) : string :=
  if z <? 0 then String "-" (group_thousands (str_nat (- z)))
  else group_thousands (str_nat z).

(** [f"{x}"] on an [int] or [None]. *)
Definition str_option_int (o : option Z) : string :=
  match o with
  | Some z => str_int z
  | None => "None"
  end.

(** The marker in front of a metric: over its threshold or not. *)
Definition status_marker (over : bool) : string :=
  if over then "RED" else "ðŸŸ¢".

(** The three lines that start with a marker. *)
Definition cpu_line (config : Config) (stats : Stats) : string :=
  let cpu_status :=
    status_marker (Qgtb (Cpu.percent (cpu stats))
                     (num_value (Thresholds.cpu (thresholds config)))) in
  cpu_status ++ " CPU Usage: " ++ format_1f (Cpu.percent (cpu stats)) ++ "% "
    ++ "(Load: " ++ str_number (Cpu.load_avg (cpu stats)) ++ ") "
    ++ "[" ++ str_option_int (Cpu.count_physical (cpu stats)) ++ " cores, "
    ++ str_option_int (Cpu.count_logical (cpu stats)) ++ " threads]".

Definition memory_line (config : Config) (stats : Stats) : string :=
  let memory_status :=
    status_marker (Qgtb (Memory.percent (memory stats))
                     (num_value (Thresholds.memory (thresholds config)))) in
  memory_status ++ " Memory Usage: " ++ format_1f (Memory.percent (memory stats)) ++ "% "
    ++ "(" ++ format_1f (Memory.used_gb (memory stats)) ++ "GB / "
    ++ format_1f (Memory.total_gb (memory stats)) ++ "GB)".

Definition disk_line (config : Config) (stats : Stats) : string :=
  let disk_status :=
    status_marker (Qgtb (Disk.percent (disk stats))
                     (num_value (Thresholds.disk (thresholds config)))) in
  disk_status ++ " Disk Usage: " ++ format_1f (Disk.percent (disk stats)) ++ "% "
    ++ "(" ++ format_1f (Disk.used_gb (disk stats)) ++ "GB / "
    ++ format_1f (Disk.total_gb (disk stats)) ++ "GB)".

(** The arguments of the [print] calls of [display_stats], in order, for a
    monitor whose configuration is [config]. *)
Definition display_lines (config : Config) (stats : Stats) (alerts : list string)
  : list string :=
  [ nl ++ str_repeat "=" 60;
    "ðŸ–¥ï¸  SYSTEM HEALTH MONITOR - " ++ timestamp stats;
    str_repeat "=" 60;
    (* CPU Information *)
    cpu_line config stats;
    (* Memory Information *)
    memory_line config stats;
    (* Disk Information *)
    disk_line config stats;
    (* System Information *)
    "Uptime: " ++ str_int (System.uptime_days (system stats)) ++ " days, "
      ++ str_int (System.uptime_hours (system stats)) ++ " hours";
    "Active Processes: " ++ str_int (System.process_count (system stats));
    (* Network Information *)
    "Network: â¬†" ++ format_comma (Network.bytes_sent (network stats))
      ++ " bytes sent, "
      ++ "â¬‡" ++ format_comma (Network.bytes_recv (network stats))
      ++ " bytes received" ]
  ++ (* Alerts *)
     (if is_empty alerts
      then [nl ++ " All systems normal - no alerts"]
      else (nl ++ "  ACTIVE ALERTS (" ++ str_int (Z.of_nat (List.length alerts)) ++ "):")
             :: map (fun alert => "   " ++ alert) alerts)
  ++ [ str_repeat "=" 60 ].

(** The line of the report about a metric. *)
Definition metric_line (config : Config) (stats : Stats) (m : metric) : string :=
  match m with
  | MCpu => cpu_line config stats
  | MMemory => memory_line config stats
  | MDisk => disk_line config stats
  end.

(** The digits of a text, its commas left out. *)
Fixpoint without_commas (s : string) : string :=
  match s with
  | EmptyString => EmptyString
  | String c rest =>
      if Ascii.eqb c "," then without_commas rest else String c (without_commas rest)
  end.

(** ** The e-mail of [send_alert] *)

(** What is put in front of an alert in the body. *)
Definition alert_bullet : string := "  â€¢ ".

(** The body of the message [send_alert] composes from the alerts and the
    snapshot it is given (those the event [SmtpSend] carries): the heading,
    one line per alert added by the [for] loop, and the current status. *)
Definition alert_body (alerts : list string) (stats : Stats) : string :=
  let body :=
    nl ++ "System Health Alert - Threshold Exceeded" ++ nl
      ++ nl
      ++ "Time: " ++ timestamp stats ++ nl
      ++ "System Uptime: " ++ str_int (System.uptime_days (system stats))
      ++ " days, " ++ str_int (System.uptime_hours (system stats)) ++ " hours" ++ nl
      ++ nl
      ++ "ALERTS:" ++ nl in
  let body :=
    fold_left (fun body alert => body ++ (alert_bullet ++ alert ++ nl)) alerts body in
  body
    ++ (nl
          ++ nl
          ++ "CURRENT SYSTEM STATUS:" ++ nl
          ++ "  CPU Usage: " ++ format_1f (Cpu.percent (cpu stats))
          ++ "% (Load: " ++ str_number (Cpu.load_avg (cpu stats)) ++ ")" ++ nl
          ++ "  Memory Usage: " ++ format_1f (Memory.percent (memory stats))
          ++ "% (" ++ format_1f (Memory.used_gb (memory stats)) ++ "GB / "
          ++ format_1f (Memory.total_gb (memory stats)) ++ "GB)" ++ nl
          ++ "  Disk Usage: " ++ format_1f (Disk.percent (disk stats))
          ++ "% (" ++ format_1f (Disk.used_gb (disk stats)) ++ "GB / "
          ++ format_1f (Disk.total_gb (disk stats)) ++ "GB)" ++ nl
          ++ "  Active Processes: " ++ str_int (System.process_count (system stats)) ++ nl
          ++ nl
          ++ "Please investigate and take necessary action." ++ nl
          ++ nl
          ++ "---" ++ nl
          ++ "System Health Monitor" ++ nl
          ++ "Generated automatically" ++ nl).

(** [s.split("\n")] *)
Fixpoint split_lines (s : string) : list string :=
  match s with
  | EmptyString => [EmptyString]
  | String c rest =>
      if Ascii.eqb c (ascii_of_nat 10) then EmptyString :: split_lines rest
      else
        match split_lines rest with
        | line :: lines => String c line :: lines
        | [] => [String c EmptyString]
        end
  end.

(** A text without a line break. *)
Fixpoint one_line (s : string) : bool :=
  match s with
  | EmptyString => true
  | String c rest => negb (Ascii.eqb c (ascii_of_nat 10)) && one_line rest
  end.

(** Lines, each followed by a line break. *)
Fixpoint unlines (lines : list string) : string :=
  match lines with
  | [] => EmptyString
  | line :: lines' => line ++ nl ++ unlines lines'
  end.

(** The lines of the body before the alerts. *)
Definition body_heading (stats : Stats) : list string :=
  [ EmptyString;
    "System Health Alert - Threshold Exceeded";
    EmptyString;
    "Time: " ++ timestamp stats;
    "System Uptime: " ++ str_int (System.uptime_days (system stats))
      ++ " days, " ++ str_int (System.uptime_hours (system stats)) ++ " hours";
    EmptyString;
    "ALERTS:" ].

(** The lines after the alerts. *)
Definition body_status (stats : Stats) : list string :=
  [ EmptyString;
    EmptyString;
    "CURRENT SYSTEM STATUS:";
    "  CPU Usage: " ++ format_1f (Cpu.percent (cpu stats))
      ++ "% (Load: " ++ str_number (Cpu.load_avg (cpu stats)) ++ ")";
    "  Memory Usage: " ++ format_1f (Memory.percent (memory stats))
      ++ "% (" ++ format_1f (Memory.used_gb (memory stats)) ++ "GB / "
      ++ format_1f (Memory.total_gb (memory stats)) ++ "GB)";
    "  Disk Usage: " ++ format_1f (Disk.percent (disk stats))
      ++ "% (" ++ format_1f (Disk.used_gb (disk stats)) ++ "GB / "
      ++ format_1f (Disk.total_gb (disk stats)) ++ "GB)";
    "  Active Processes: " ++ str_int (System.process_count (system stats));
    EmptyString;
    "Please investigate and take necessary action.";
    EmptyString;
    "---";
    "System Health Monitor";
    "Generated automatically" ].

(* ================================================================== *)
(** * Properties *)

(** ** Numbers and formatting *)

Lemma Qgtb_lt (a b : Q) : Qgtb a b = true <-> (b < a)%Q.
Proof.
  unfold Qgtb. rewrite negb_true_iff.
  split; intro H.
  - apply Qnot_le_lt. intro Hle. apply Qle_bool_iff in Hle. congruence.
  - destruct (Qle_bool a b) eqn:E; [|reflexivity].
    apply Qle_bool_iff in E. exfalso. exact (Qlt_not_le _ _ H E).
Qed.

Lemma Qgtb_le (a b : Q) : Qgtb a b = false <-> (a <= b)%Q.
Proof.
  unfold Qgtb. rewrite negb_false_iff. apply Qle_bool_iff.
Qed.

#[global] Instance Qgtb_comp : Proper (Qeq ==> Qeq ==> eq) Qgtb.
Proof.
  intros a a' Ha b b' Hb. unfold Qgtb. now rewrite Ha, Hb.
Qed.

#[global] Instance round_half_even_comp : Proper (Qeq ==> eq) round_half_even.
Proof.
  intros a b Hab. unfold round_half_even.
  rewrite (Qfloor_comp _ _ Hab).
  assert (E : (a - inject_Z (Qfloor b) == b - inject_Z (Qfloor b))%Q)
    by now rewrite Hab.
  now rewrite (Qcompare_comp _ _ E _ _ (Qeq_refl _)).
Qed.

#[global] Instance format_1f_comp : Proper (Qeq ==> eq) format_1f.
Proof.
  intros a b Hab. unfold format_1f.
  assert (E : (Qabs a * 10 == Qabs b * 10)%Q) by now rewrite Hab.
  rewrite (round_half_even_comp _ _ E).
  now rewrite (Qgtb_comp _ _ (Qeq_refl 0%Q) _ _ Hab).
Qed.

(** A value equal to the threshold is not over it. *)
Lemma Qgtb_irrefl (a b : Q) : (a == b)%Q -> Qgtb a b = false.
Proof.
  intro H. apply Qgtb_le. rewrite H. apply Qle_refl.
Qed.

(** ** The threshold evaluator *)

Lemma alert_metric_cpu config stats :
  alert_metric (cpu_alert config stats) = Some MCpu.
Proof. reflexivity. Qed.

Lemma alert_metric_memory config stats :
  alert_metric (memory_alert config stats) = Some MMemory.
Proof. reflexivity. Qed.

Lemma alert_metric_disk config stats :
  alert_metric (disk_alert config stats) = Some MDisk.
Proof. reflexivity. Qed.

(** The evaluator, as the three messages kept or dropped in their order. *)
Lemma check_thresholds_unfold config stats :
  check_thresholds config stats =
    ((if exceeds config stats MCpu then [cpu_alert config stats] else [])
       ++ (if exceeds config stats MMemory then [memory_alert config stats] else [])
       ++ (if exceeds config stats MDisk then [disk_alert config stats] else []))%list.
Proof.
  unfold check_thresholds, exceeds; simpl.
  destruct (Qgtb (Cpu.percent (cpu stats)) _),
           (Qgtb (Memory.percent (memory stats)) _),
           (Qgtb (Disk.percent (disk stats)) _); reflexivity.
Qed.

(** C4.  Whatever the snapshot and the thresholds, the metrics of the alerts
    returned by [check_thresholds] are the metrics over their threshold,
    listed in the fixed order CPU, Memory, Disk. *)
Theorem check_thresholds_order (config : Config) (stats : Stats) :
  alert_metrics (check_thresholds config stats)
  = map Some (filter (exceeds config stats) [MCpu; MMemory; MDisk]).
Proof.
  rewrite check_thresholds_unfold. unfold alert_metrics. simpl filter.
  destruct (exceeds config stats MCpu), (exceeds config stats MMemory),
           (exceeds config stats MDisk); reflexivity.
Qed.

(** The alerts about a metric: one when it is over its threshold, none
    otherwise. *)
Lemma alerts_about_exceeds config stats m :
  alerts_about m (check_thresholds config stats)
  = if exceeds config stats m then 1%nat else 0%nat.
Proof.
  unfold alerts_about, alert_metrics. rewrite check_thresholds_unfold.
  destruct m;
    destruct (exceeds config stats MCpu), (exceeds config stats MMemory),
             (exceeds config stats MDisk); reflexivity.
Qed.

(** C5.  The comparison is strict, for each of the three metrics: the
    output holds one alert about a metric exactly when its observed
    percentage is greater than its configured threshold, and none exactly
    when it is at most the threshold.  So a percentage equal to the
    threshold yields no alert about the metric, and any percentage above it
    yields one. *)
Theorem threshold_comparison_is_strict
    (config : Config) (stats : Stats) (m : metric) :
  (alerts_about m (check_thresholds config stats) = 1%nat
   <-> (num_value (metric_threshold config m) < metric_percent stats m)%Q)
  /\ (alerts_about m (check_thresholds config stats) = 0%nat
      <-> (metric_percent stats m <= num_value (metric_threshold config m))%Q)
  /\ ((metric_percent stats m == num_value (metric_threshold config m))%Q ->
      alerts_about m (check_thresholds config stats) = 0%nat
      /\ ~ In (Some m) (alert_metrics (check_thresholds config stats)))
  /\ ((num_value (metric_threshold config m) < metric_percent stats m)%Q ->
      In (Some m) (alert_metrics (check_thresholds config stats))).
Proof.
  assert (Hlt : alerts_about m (check_thresholds config stats) = 1%nat
                <-> (num_value (metric_threshold config m) < metric_percent stats m)%Q).
  { rewrite alerts_about_exceeds, <- Qgtb_lt. unfold exceeds.
    destruct (Qgtb _ _); split; congruence. }
  assert (Hle : alerts_about m (check_thresholds config stats) = 0%nat
                <-> (metric_percent stats m <= num_value (metric_threshold config m))%Q).
  { rewrite alerts_about_exceeds, <- Qgtb_le. unfold exceeds.
    destruct (Qgtb _ _); split; congruence. }
  split; [exact Hlt|]. split; [exact Hle|]. split.
  - intro Heq.
    assert (E : alerts_about m (check_thresholds config stats) = 0%nat).
    { apply Hle. rewrite Heq. apply Qle_refl. }
    split; [exact E|].
    now apply (count_occ_not_In option_metric_eq_dec).
  - intro H. apply Hlt in H.
    apply (count_occ_In option_metric_eq_dec). unfold alerts_about in H. lia.
Qed.

(** Threshold 80: observed 80.0 yields no alert, observed 80.1 yields
    one. *)
Lemma threshold_comparison_is_strict_witness :
  (alerts_about MCpu (check_thresholds _get_default_config (sample_stats 80 60 45))
   = 0%nat
   /\ ~ In (Some MCpu)
          (alert_metrics (check_thresholds _get_default_config (sample_stats 80 60 45))))
  /\ alerts_about MCpu
       (check_thresholds _get_default_config (sample_stats (801 # 10) 60 45)) = 1%nat
  /\ In (Some MCpu)
       (alert_metrics
          (check_thresholds _get_default_config (sample_stats (801 # 10) 60 45))).
Proof.
  split; [|split].
  - refine (proj1 (proj2 (proj2 (threshold_comparison_is_strict
                                   _get_default_config (sample_stats 80 60 45) MCpu))) _).
    reflexivity.
  - refine (proj2 (proj1 (threshold_comparison_is_strict
                            _get_default_config (sample_stats (801 # 10) 60 45) MCpu)) _).
    reflexivity.
  - refine (proj2 (proj2 (proj2 (threshold_comparison_is_strict
                                   _get_default_config (sample_stats (801 # 10) 60 45)
                                   MCpu))) _).
    reflexivity.
Defined.

(** Threshold 80, observed 80.0 and 80.1, as the decimal and as the double
    nearest to it. *)
Example threshold_80_observed_80 :
  check_thresholds _get_default_config (sample_stats 80 60 45) = [].
Proof. reflexivity. Qed.

Example threshold_80_observed_80_1 :
  check_thresholds _get_default_config (sample_stats (801 # 10) 60 45)
  = ["CPU usage: 80.1% (threshold: 80%)"].
Proof. reflexivity. Qed.

Example threshold_80_observed_80_1_double :
  check_thresholds _get_default_config (sample_stats (fl (801 # 10)) 60 45)
  = ["CPU usage: 80.1% (threshold: 80%)"].
Proof. vm_compute. reflexivity. Qed.

(** Every boundary at once: memory and disk exactly on their thresholds. *)
Example all_on_threshold :
  check_thresholds _get_default_config (sample_stats 80 85 90) = [].
Proof. reflexivity. Qed.

(** C6.  The output holds exactly one CPU alert when the CPU percentage is
    over its threshold and none otherwise; with the thresholds 80, 85, 90
    and the percentages 92.3, 60.0, 45.0 the output is the single message
    [CPU usage: 92.3% (threshold: 80%)]. *)
Theorem cpu_violation_count (config : Config) (stats : Stats) :
  ((num_value (Thresholds.cpu (thresholds config)) < Cpu.percent (cpu stats))%Q ->
     alerts_about MCpu (check_thresholds config stats) = 1%nat)
  /\ (~ (num_value (Thresholds.cpu (thresholds config)) < Cpu.percent (cpu stats))%Q ->
      alerts_about MCpu (check_thresholds config stats) = 0%nat)
  /\ (thresholds config = Thresholds.mk (NInt 80) (NInt 85) (NInt 90) ->
      (Cpu.percent (cpu stats) == 923 # 10)%Q ->
      (Memory.percent (memory stats) == 60)%Q ->
      (Disk.percent (disk stats) == 45)%Q ->
      check_thresholds config stats = ["CPU usage: 92.3% (threshold: 80%)"]).
Proof.
  split; [|split].
  - intro H. rewrite alerts_about_exceeds. unfold exceeds; simpl.
    apply Qgtb_lt in H. now rewrite H.
  - intro H. rewrite alerts_about_exceeds. unfold exceeds; simpl.
    destruct (Qgtb _ _) eqn:E; [|reflexivity].
    apply Qgtb_lt in E. contradiction.
  - intros Hth Hc Hm Hd.
    rewrite check_thresholds_unfold. unfold exceeds, cpu_alert; simpl.
    rewrite Hth; simpl.
    rewrite (Qgtb_comp _ _ Hc _ _ (Qeq_refl _)).
    rewrite (Qgtb_comp _ _ Hm _ _ (Qeq_refl _)).
    rewrite (Qgtb_comp _ _ Hd _ _ (Qeq_refl _)).
    rewrite (format_1f_comp _ _ Hc).
    reflexivity.
Qed.

Lemma cpu_violation_count_witness :
  alerts_about MCpu
    (check_thresholds _get_default_config (sample_stats (923 # 10) 60 45)) = 1%nat
  /\ alerts_about MCpu
       (check_thresholds _get_default_config (sample_stats 60 (923 # 10) 45)) = 0%nat
  /\ check_thresholds _get_default_config (sample_stats (923 # 10) 60 45)
     = ["CPU usage: 92.3% (threshold: 80%)"].
Proof.
  split; [|split].
  - apply (cpu_violation_count _get_default_config (sample_stats (923 # 10) 60 45)).
    reflexivity.
  - apply (cpu_violation_count _get_default_config (sample_stats 60 (923 # 10) 45)).
    intro H. discriminate H.
  - apply (cpu_violation_count _get_default_config (sample_stats (923 # 10) 60 45));
      reflexivity.
Defined.

(** The same scenario with the doubles nearest to the three decimals. *)
Example scenario_with_doubles :
  check_thresholds _get_default_config
    (sample_stats (fl (923 # 10)) (fl 60) (fl 45))
  = ["CPU usage: 92.3% (threshold: 80%)"].
Proof. vm_compute. reflexivity. Qed.

(** ** The notification gate *)

Lemma gate_passes_iff (self : SystemMonitor) (alerts : list string) :
  gate_passes self alerts = true
  <-> alerts <> [] /\ Email.enabled (email (config self)) = true
      /\ alert_sent self = false.
Proof.
  unfold gate_passes.
  destruct alerts as [|a l], (Email.enabled (email (config self))),
           (alert_sent self); simpl; split;
    try discriminate; try (intros (H1 & H2 & H3); congruence);
    intros _; repeat split; discriminate.
Qed.

(** [send_alert], case by case. *)
Lemma send_alert_unfold smtp alerts stats self :
  send_alert smtp alerts stats self =
    if gate_passes self alerts then
      match smtp with
      | SmtpOk =>
          (Ret tt, set_alert_sent true self,
           [SmtpSend (email (config self)) alerts stats SmtpOk;
            Log INFO "Alert email sent successfully"])
      | SmtpRaises e =>
          if is_Exception e then
            (Ret tt, self,
             [SmtpSend (email (config self)) alerts stats (SmtpRaises e);
              Log ERROR ("Failed to send email alert: " ++ exn_str e)])
          else
            (Raise e, self,
             [SmtpSend (email (config self)) alerts stats (SmtpRaises e)])
      end
    else (Ret tt, self, []).
Proof.
  unfold send_alert, gate_passes, bind, get_config, get_alert_sent,
    try_except_Exception, emit, put_alert_sent, ret, raise.
  destruct (is_empty alerts || negb (Email.enabled (email (config self))));
    simpl; [reflexivity|].
  destruct (alert_sent self); simpl; [reflexivity|].
  destruct smtp as [|e]; simpl; [reflexivity|].
  destruct (is_Exception e); reflexivity.
Qed.

(** *** The latch *)

Lemma dispatch_attempts_app t1 t2 :
  dispatch_attempts (t1 ++ t2) = (dispatch_attempts t1 + dispatch_attempts t2)%nat.
Proof.
  unfold dispatch_attempts. now rewrite filter_app, length_app.
Qed.

Lemma completions_app t1 t2 :
  completions (t1 ++ t2) = (completions t1 + completions t2)%nat.
Proof.
  unfold completions. now rewrite filter_app, length_app.
Qed.


Lemma attempts_after_completion_app t1 t2 :
  attempts_after_completion (t1 ++ t2) =
    if (completions t1 =? 0)%nat then attempts_after_completion t2
    else (attempts_after_completion t1 + dispatch_attempts t2)%nat.
Proof.
  induction t1 as [|ev t1 IH]; simpl; [reflexivity|].
  unfold completions in *; simpl.
  destruct (is_completed ev) eqn:E; simpl.
  - apply dispatch_attempts_app.
  - exact IH.
Qed.


Lemma latch_refl self : latch self self [].
Proof.
  constructor; try reflexivity.
  simpl. now rewrite orb_false_r.
Qed.

Lemma latch_trans self self1 self2 t1 t2 :
  latch self self1 t1 -> latch self1 self2 t2 -> latch self self2 (t1 ++ t2).
Proof.
  intros [C1 D1 S1 A1 F1] [C2 D2 S2 A2 F2].
  constructor.
  - congruence.
  - intro H. rewrite dispatch_attempts_app, D1 by exact H.
    rewrite D2; [reflexivity | now rewrite C1].
  - intro H. rewrite dispatch_attempts_app, S1 by exact H.
    rewrite S2; [reflexivity | now rewrite F1, H].
  - rewrite attempts_after_completion_app.
    destruct (completions t1 =? 0)%nat eqn:E; [exact A2|].
    rewrite A1, S2; [reflexivity|].
    rewrite F1. rewrite ?E. apply orb_true_r.
  - rewrite F2, F1, completions_app.
    destruct (alert_sent self), (completions t1) , (completions t2); reflexivity.
Qed.

Lemma Latching_ret {A} (a : A) : Latching (ret a).
Proof. intro self. apply latch_refl. Qed.

Lemma Latching_raise {A} (e : exn) : Latching (@raise A e).
Proof. intro self. apply latch_refl. Qed.

Lemma Latching_get_config : Latching get_config.
Proof. intro self. apply latch_refl. Qed.

Lemma Latching_emit ev : is_attempt ev = false -> Latching (emit ev).
Proof.
  intros H self. unfold emit, monitor_of, trace_of; simpl.
  assert (Hd : is_completed ev = false) by (destruct ev; try reflexivity; discriminate).
  constructor; unfold dispatch_attempts, completions; simpl; rewrite ?H, ?Hd;
    try reflexivity.
  simpl. now rewrite orb_false_r.
Qed.

Lemma Latching_bind {A B} (m : M A) (k : A -> M B) :
  Latching m -> (forall a, Latching (k a)) -> Latching (bind m k).
Proof.
  intros Hm Hk self. specialize (Hm self).
  unfold bind, monitor_of, trace_of in *.
  destruct (m self) as [[[a|e] self1] t1]; simpl in *.
  - specialize (Hk a self1). unfold monitor_of, trace_of in Hk.
    destruct (k a self1) as [[r self2] t2]; simpl in *.
    now apply latch_trans with self1.
  - exact Hm.
Qed.

Lemma Latching_try_except_Exception {A} (body : M A) (handler : exn -> M A) :
  Latching body -> (forall e, Latching (handler e)) ->
  Latching (try_except_Exception body handler).
Proof.
  intros Hb Hh self. specialize (Hb self).
  unfold try_except_Exception, monitor_of, trace_of in *.
  destruct (body self) as [[[a|e] self1] t1]; simpl in *; [exact Hb|].
  destruct (is_Exception e); [|exact Hb].
  specialize (Hh e self1). unfold monitor_of, trace_of in Hh.
  destruct (handler e self1) as [[r self2] t2]; simpl in *.
  now apply latch_trans with self1.
Qed.

Lemma Latching_try_except_Interrupt_Exception {A} (body on_int : M A)
    (on_exn : exn -> M A) :
  Latching body -> Latching on_int -> (forall e, Latching (on_exn e)) ->
  Latching (try_except_Interrupt_Exception body on_int on_exn).
Proof.
  intros Hb Hi Hh self. specialize (Hb self).
  unfold try_except_Interrupt_Exception, monitor_of, trace_of in *.
  destruct (body self) as [[[a|e] self1] t1]; simpl in *; [exact Hb|].
  assert (Hx : latch self1
                 (monitor_of ((if is_Exception e then on_exn e else on_int) self1))
                 (trace_of ((if is_Exception e then on_exn e else on_int) self1)))
    by (destruct (is_Exception e); [apply Hh | apply Hi]).
  unfold monitor_of, trace_of in Hx.
  destruct ((if is_Exception e then on_exn e else on_int) self1) as [[r self2] t2].
  simpl in *. now apply latch_trans with self1.
Qed.

Create HintDb latching.
#[local] Hint Resolve Latching_ret Latching_raise Latching_get_config : latching.
#[local] Hint Extern 1 (Latching (emit _)) =>
  (apply Latching_emit; reflexivity) : latching.

Ltac latching :=
  repeat first
    [ progress intros
    | progress cbv beta
    | solve [auto with latching]
    | apply Latching_bind
    | apply Latching_try_except_Exception
    | apply Latching_try_except_Interrupt_Exception
    | match goal with
      | |- Latching (match ?x with _ => _ end) => destruct x
      | |- Latching (if ?b then _ else _) => destruct b
      end ].

Lemma Latching_send_alert smtp alerts stats : Latching (send_alert smtp alerts stats).
Proof.
  intro self. rewrite send_alert_unfold.
  destruct (gate_passes self alerts) eqn:G.
  - apply gate_passes_iff in G. destruct G as (_ & En & Fl).
    destruct smtp as [|e]; [|destruct (is_Exception e)];
      unfold monitor_of, trace_of; simpl;
      constructor; simpl; try reflexivity; try congruence;
      rewrite Fl; reflexivity.
  - apply latch_refl.
Qed.

Lemma Latching_get_system_stats p : Latching (get_system_stats p).
Proof. unfold get_system_stats. latching. Qed.

Lemma Latching_display_stats console stats alerts :
  Latching (display_stats console stats alerts).
Proof. unfold display_stats. latching. Qed.

Lemma Latching_time_sleep b secs : Latching (time_sleep b secs).
Proof. unfold time_sleep. latching. Qed.

#[local] Hint Resolve Latching_send_alert Latching_get_system_stats
  Latching_display_stats Latching_time_sleep : latching.

Lemma Latching_run_once env : Latching (run_once env).
Proof. unfold run_once. latching. Qed.

#[local] Hint Resolve Latching_run_once : latching.

Lemma Latching_monitoring_loop envs : Latching (monitoring_loop envs).
Proof.
  induction envs as [|env envs IH]; simpl; latching.
Qed.

#[local] Hint Resolve Latching_monitoring_loop : latching.

Lemma Latching_run_monitoring envs : Latching (run_monitoring envs).
Proof. unfold run_monitoring. latching. Qed.

(** C2.  [send_alert] attempts a dispatch exactly when the alert list is not
    empty, notifications are enabled in the configuration and the flag
    [alert_sent] is not set; with notifications disabled, a whole run of the
    monitoring loop attempts none, whatever the violations. *)
Theorem dispatch_gate (smtp : SmtpOutcome) (alerts : list string) (stats : Stats)
    (self : SystemMonitor) (envs : list CycleEnv) :
  (dispatch_attempts (trace_of (send_alert smtp alerts stats self)) = 1%nat
   <-> alerts <> [] /\ Email.enabled (email (config self)) = true
       /\ alert_sent self = false)
  /\ (dispatch_attempts (trace_of (send_alert smtp alerts stats self)) = 0%nat
      <-> ~ (alerts <> [] /\ Email.enabled (email (config self)) = true
             /\ alert_sent self = false))
  /\ (Email.enabled (email (config self)) = false ->
      dispatch_attempts (trace_of (run_monitoring envs self)) = 0%nat).
Proof.
  rewrite <- gate_passes_iff, send_alert_unfold.
  split; [|split].
  - destruct (gate_passes self alerts); [|split; discriminate].
    destruct smtp as [|e]; [|destruct (is_Exception e)]; split; reflexivity.
  - destruct (gate_passes self alerts).
    + destruct smtp as [|e]; [|destruct (is_Exception e)]; split;
        try discriminate; intro H; now elim H.
    + split; [discriminate | reflexivity].
  - apply (latch_disabled _ _ _ (Latching_run_monitoring envs self)).
Qed.

Lemma dispatch_gate_witness :
  dispatch_attempts
    (trace_of (send_alert smtp_refused ["CPU usage: 92.3% (threshold: 80%)"]
                 (sample_stats (923 # 10) 60 45) (sample_monitor true))) = 1%nat
  /\ dispatch_attempts
       (trace_of (run_monitoring [hot_cycle SmtpOk; hot_cycle SmtpOk]
                    (sample_monitor false))) = 0%nat.
Proof.
  split.
  - apply (dispatch_gate smtp_refused ["CPU usage: 92.3% (threshold: 80%)"]
             (sample_stats (923 # 10) 60 45) (sample_monitor true) []).
    split; [discriminate | split; reflexivity].
  - apply (dispatch_gate SmtpOk [] (sample_stats (923 # 10) 60 45)
             (sample_monitor false) [hot_cycle SmtpOk; hot_cycle SmtpOk]).
    reflexivity.
Defined.

(** ** The notification flag *)






(** A server that refuses once and then lets the conversation through: two
    attempts, one of them to its end, and nothing after it although the
    third cycle is over the threshold too. *)
Example refused_then_accepted :
  let run := run_monitoring
               [hot_cycle smtp_refused; hot_cycle SmtpOk; hot_cycle SmtpOk]
               (sample_monitor true) in
  dispatch_attempts (trace_of run) = 2%nat
  /\ completions (trace_of run) = 1%nat
  /\ alert_sent (monitor_of run) = true.
Proof. vm_compute. repeat split. Qed.

(** ** A failed sampling *)

(** What [get_system_stats] does when the sampling raises an
    [Exception]. *)
Lemma get_system_stats_raises (e : exn) (self : SystemMonitor) :
  is_Exception e = true ->
  get_system_stats (ProbeRaises e) self
  = (Ret None, self, [Log ERROR ("Error collecting system stats: " ++ exn_str e)]).
Proof.
  intro H. unfold get_system_stats, try_except_Exception, raise; simpl.
  rewrite H. reflexivity.
Qed.

(** The empty dictionary comes out of the [except] branch only: the monitor
    is untouched and the trace is the one error record. *)
Lemma get_system_stats_None (p : Probe) (self self' : SystemMonitor)
    (t : list event) :
  get_system_stats p self = (Ret None, self', t) ->
  self' = self
  /\ exists e, is_Exception e = true
       /\ t = [Log ERROR ("Error collecting system stats: " ++ exn_str e)].
Proof.
  unfold get_system_stats, try_except_Exception, raise, ret, bind, emit.
  destruct p as [e|r]; simpl.
  - destruct (is_Exception e) eqn:E; simpl; intro H; inversion H; subst.
    split; [reflexivity|]. now exists e.
  - destruct (collect r) as [stats|e]; simpl; [discriminate|].
    destruct (is_Exception e) eqn:E; simpl; intro H; inversion H; subst.
    split; [reflexivity|]. now exists e.
Qed.

(** [run_once] after a sampling that returned the empty dictionary: the
    [if not stats] branch returns at once. *)
Lemma run_once_None (env : CycleEnv) (self : SystemMonitor) :
  result_of (get_system_stats (probe env) self) = Ret None ->
  exists e, is_Exception e = true
    /\ get_system_stats (probe env) self
       = (Ret None, self,
          [Log ERROR ("Error collecting system stats: " ++ exn_str e)])
    /\ run_once env self
       = (Ret None, self,
          [Log ERROR ("Error collecting system stats: " ++ exn_str e)]).
Proof.
  intro H.
  destruct (get_system_stats (probe env) self) as [[r self'] t] eqn:G.
  unfold result_of in H; simpl in H; subst r.
  destruct (get_system_stats_None _ _ _ _ G) as (-> & e & He & ->).
  exists e. split; [exact He|]. split; [reflexivity|].
  unfold run_once, bind. rewrite G. reflexivity.
Qed.

(** C10.  When [get_system_stats] returns the empty dictionary, [run_once]
    returns it at once: its trace is the trace of the sampling (the error
    record), so nothing is displayed and no dispatch is attempted, and the
    monitor, with its flag [alert_sent], is unchanged. *)
Theorem run_once_failed_sampling (env : CycleEnv) (self : SystemMonitor) :
  result_of (get_system_stats (probe env) self) = Ret None ->
  result_of (run_once env self) = Ret None
  /\ trace_of (run_once env self) = trace_of (get_system_stats (probe env) self)
  /\ filter is_display (trace_of (run_once env self)) = []
  /\ dispatch_attempts (trace_of (run_once env self)) = 0%nat
  /\ monitor_of (run_once env self) = self
  /\ alert_sent (monitor_of (run_once env self)) = alert_sent self.
Proof.
  intro H.
  destruct (run_once_None env self H) as (e & _ & G & R).
  rewrite R, G. repeat split.
Qed.

Lemma run_once_failed_sampling_witness :
  result_of (run_once failing_cycle (sample_monitor true)) = Ret None
  /\ trace_of (run_once failing_cycle (sample_monitor true))
     = trace_of (get_system_stats (probe failing_cycle) (sample_monitor true))
  /\ filter is_display (trace_of (run_once failing_cycle (sample_monitor true))) = []
  /\ dispatch_attempts (trace_of (run_once failing_cycle (sample_monitor true))) = 0%nat
  /\ monitor_of (run_once failing_cycle (sample_monitor true)) = sample_monitor true
  /\ alert_sent (monitor_of (run_once failing_cycle (sample_monitor true)))
     = alert_sent (sample_monitor true).
Proof.
  apply (run_once_failed_sampling failing_cycle (sample_monitor true)).
  reflexivity.
Defined.

(** A disk of size zero makes the division raise inside the [try] block:
    the sampling fails in the same way. *)
Example zero_sized_disk :
  let r := {| cpu_percent := cpu_percent sample_readings;
              cpu_count_logical := Some 8; cpu_count_physical := None;
              memory_percent := memory_percent sample_readings;
              memory_total := 17179869184; memory_used := 10325000000;
              memory_available := 6854869184;
              disk_total := 0; disk_used := 0; disk_free := 0;
              getloadavg := None;
              net_bytes_sent := 0; net_bytes_recv := 0;
              net_packets_sent := 0; net_packets_recv := 0;
              boot_datetime := boot_datetime sample_readings;
              now_uptime := now_uptime sample_readings;
              pids := 1;
              now_timestamp := now_timestamp sample_readings |} in
  run_once (mkCycle (ProbeReads r) SmtpOk false None) (sample_monitor true)
  = (Ret None, sample_monitor true,
     [Log ERROR "Error collecting system stats: division by zero"]).
Proof. reflexivity. Qed.




(** In the [--once] mode a failed sampling ends the program with status 0
    and writes no file, whatever [--json] asks for. *)
Example once_mode_failed_sampling :
  main (mkArgs "config.yaml" true (Some "stats.json"))
       (mkRun (Loaded _get_default_config) None failing_cycle []
              (mkDatetime 2024 3 1 5 30 1 0) None)
  = (Some 0, [LogFileOpen "system_monitor.log";
              Log ERROR "Error collecting system stats: psutil failure"]).
Proof. reflexivity. Qed.

(** An error elsewhere in the loop is fatal: with a negative interval the
    sleep raises, [run_monitoring] logs the error and raises it again, and
    [main] ends with status 1. *)
Example negative_interval_is_fatal :
  let config := {| thresholds := thresholds _get_default_config;
                   check_interval := NInt (-5);
                   email := email _get_default_config;
                   logging := logging _get_default_config |} in
  let run := main (mkArgs "config.yaml" false None)
                  (mkRun (Loaded config) None failing_cycle [hot_cycle SmtpOk]
                         (mkDatetime 2024 3 1 5 30 1 0) None) in
  fst run = Some 1
  /\ log_lines (snd run)
     = [ (INFO, "Starting system health monitoring...");
         (INFO, "Monitoring interval: -5 seconds");
         (INFO, "Thresholds - CPU: 80%, Memory: 85%, Disk: 90%");
         (ERROR, "Error collecting system stats: psutil failure");
         (ERROR, "Monitoring error: sleep length must be non-negative") ].
Proof. vm_compute. split; reflexivity. Qed.

(** ** Loading the configuration *)





(** The fallback is announced on the console. *)
Example missing_file_notice :
  _load_config "custom.yaml" (LoadRaises (FileNotFoundError "custom.yaml"))
  = (Ret _get_default_config,
     [Print "Config file custom.yaml not found. Using default settings."]).
Proof. reflexivity. Qed.

(** The two [except] clauses are the only ones: another error of [open]
    leaves [_load_config] as an exception, and [main] exits with status 1. *)
Example unreadable_file_propagates :
  loaded (_load_config "config.yaml" (LoadRaises (OtherException "Permission denied")))
  = Raise (OtherException "Permission denied").
Proof. reflexivity. Qed.

(** ** The uptime *)

Lemma timedelta_new_range (d s us : Z) :
  0 <= seconds (timedelta_new d s us) < 86400
  /\ 0 <= microseconds (timedelta_new d s us) < 1000000.
Proof.
  unfold timedelta_new; simpl. split; apply Z.mod_pos_bound; lia.
Qed.

Lemma timedelta_new_total (d s us : Z) :
  total_microseconds (timedelta_new d s us) = (d * 86400 + s) * 1000000 + us.
Proof.
  unfold total_microseconds, timedelta_new; simpl.
  pose proof (Z.div_mod us 1000000 ltac:(lia)).
  pose proof (Z.div_mod (s + us / 1000000) 86400 ltac:(lia)).
  lia.
Qed.

(** Days and hours of a normalised [timedelta], from its total length. *)
Lemma timedelta_days_hours (t : timedelta) :
  0 <= seconds t < 86400 -> 0 <= microseconds t < 1000000 ->
  days t = total_microseconds t / 86400000000
  /\ seconds t / 3600 = total_microseconds t / 3600000000 - 24 * days t
  /\ 0 <= seconds t / 3600 <= 23.
Proof.
  intros Hs Hu. unfold total_microseconds.
  assert (D : ((days t * 86400 + seconds t) * 1000000 + microseconds t) / 86400000000
              = days t).
  { symmetry. apply Z.div_unique with (seconds t * 1000000 + microseconds t); lia. }
  assert (Hq : 0 <= seconds t / 3600 <= 23).
  { split; [apply Z.div_pos; lia|].
    apply Z.lt_succ_r. apply Z.div_lt_upper_bound; lia. }
  assert (H : ((days t * 86400 + seconds t) * 1000000 + microseconds t) / 3600000000
              = 24 * days t + seconds t / 3600).
  { symmetry.
    pose proof (Z.div_mod (seconds t) 3600 ltac:(lia)).
    pose proof (Z.mod_pos_bound (seconds t) 3600 ltac:(lia)).
    apply Z.div_unique
      with ((seconds t mod 3600) * 1000000 + microseconds t); lia. }
  rewrite D, H. repeat split; lia.
Qed.

Lemma collect_uptime (r : Readings) (stats : Stats) :
  collect r = Ret stats ->
  System.uptime_days (system stats)
  = days (datetime_sub (now_uptime r) (boot_datetime r))
  /\ System.uptime_hours (system stats)
     = seconds (datetime_sub (now_uptime r) (boot_datetime r)) / 3600.
Proof.
  unfold collect.
  destruct (py_truediv (disk_used r) (disk_total r)); [|discriminate].
  intro H. inversion H. split; reflexivity.
Qed.

(** A sampling that returns a snapshot returns the one [collect] built. *)
Lemma get_system_stats_Some (r : Readings) (self : SystemMonitor) (stats : Stats) :
  result_of (get_system_stats (ProbeReads r) self) = Ret (Some stats) ->
  collect r = Ret stats.
Proof.
  unfold get_system_stats, try_except_Exception, result_of, raise, ret, bind, emit.
  destruct (collect r) as [s|e]; simpl.
  - intro H. now inversion H.
  - destruct (is_Exception e); discriminate.
Qed.

(** C9.  In every snapshot produced by a sampling, [uptime_hours] is
    between 0 and 23: it is the number of whole hours elapsed since boot
    minus 24 times [uptime_days], not the number of hours elapsed. *)
Theorem uptime_hours_is_remainder (r : Readings) (self : SystemMonitor)
    (stats : Stats) :
  result_of (get_system_stats (ProbeReads r) self) = Ret (Some stats) ->
  0 <= System.uptime_hours (system stats) <= 23
  /\ System.uptime_days (system stats) = elapsed_microseconds r / 86400000000
  /\ System.uptime_hours (system stats)
     = elapsed_microseconds r / 3600000000 - 24 * System.uptime_days (system stats)
  /\ System.uptime_hours (system stats)
     = (elapsed_microseconds r / 3600000000) mod 24.
Proof.
  intro H. apply get_system_stats_Some in H.
  destruct (collect_uptime r stats H) as [-> ->].
  set (t := datetime_sub (now_uptime r) (boot_datetime r)).
  assert (T : total_microseconds t = elapsed_microseconds r)
    by apply timedelta_new_total.
  assert (R : 0 <= seconds t < 86400 /\ 0 <= microseconds t < 1000000)
    by apply timedelta_new_range.
  destruct R as [Hs Hu].
  destruct (timedelta_days_hours t Hs Hu) as (Hd & Hh & Hr).
  rewrite T in Hd, Hh.
  split; [exact Hr|]. split; [exact Hd|]. split; [exact Hh|].
  apply Z.mod_unique with (days t); lia.
Qed.

(** Booted on 27 February at 22:12:09, sampled on 1 March at 05:30 of a leap
    year: 2 days and 7 hours, where 55 hours have elapsed. *)
Lemma uptime_hours_is_remainder_witness :
  0 <= System.uptime_hours (system sample_snapshot) <= 23
  /\ System.uptime_days (system sample_snapshot)
     = elapsed_microseconds sample_readings / 86400000000
  /\ System.uptime_hours (system sample_snapshot)
     = elapsed_microseconds sample_readings / 3600000000
       - 24 * System.uptime_days (system sample_snapshot)
  /\ System.uptime_hours (system sample_snapshot)
     = (elapsed_microseconds sample_readings / 3600000000) mod 24.
Proof.
  apply (uptime_hours_is_remainder sample_readings (sample_monitor true)
           sample_snapshot).
  vm_compute. reflexivity.
Defined.

Example uptime_of_sample :
  System.uptime_days (system sample_snapshot) = 2
  /\ System.uptime_hours (system sample_snapshot) = 7.
Proof. vm_compute. split; reflexivity. Qed.

Example elapsed_hours_of_sample :
  elapsed_microseconds sample_readings / 3600000000 = 55.
Proof. reflexivity. Qed.

(** ** Decimal text *)

Lemma string_app_assoc (a b c : string) : (a ++ b) ++ c = a ++ b ++ c.
Proof. induction a as [|x a IH]; simpl; [reflexivity | now rewrite IH]. Qed.

Lemma string_app_nil_r (a : string) : a ++ EmptyString = a.
Proof. induction a as [|x a IH]; simpl; [reflexivity | now rewrite IH]. Qed.

Lemma string_length_app (a b : string) :
  String.length (a ++ b) = (String.length a + String.length b)%nat.
Proof. induction a as [|x a IH]; simpl; [reflexivity | now rewrite IH]. Qed.

Lemma digit_char_spec (d : Z) :
  0 <= d < 10 ->
  is_digit (digit_char d) = true
  /\ digit_value (digit_char d) = d
  /\ Ascii.eqb (digit_char d) "0" = (d =? 0).
Proof.
  intro H.
  assert (C : d = 0 \/ d = 1 \/ d = 2 \/ d = 3 \/ d = 4 \/ d = 5 \/ d = 6
              \/ d = 7 \/ d = 8 \/ d = 9) by lia.
  repeat (destruct C as [-> | C]; [repeat split; reflexivity|]).
  subst d. repeat split; reflexivity.
Qed.

Lemma digits_value_acc_app (a : Z) (s t : string) :
  digits_value_acc a (s ++ t) = digits_value_acc (digits_value_acc a s) t.
Proof.
  revert a. induction s as [|c s IH]; intro a; simpl; [reflexivity | apply IH].
Qed.

Lemma digits_value_acc_shift (a : Z) (s : string) :
  digits_value_acc a s = a * 10 ^ Z.of_nat (String.length s) + digits_value s.
Proof.
  unfold digits_value. revert a.
  induction s as [|c s IH]; intro a.
  - simpl. lia.
  - cbn [digits_value_acc String.length]. rewrite IH, (IH (0 * 10 + _)).
    rewrite Nat2Z.inj_succ, Z.pow_succ_r by lia. lia.
Qed.

Lemma digits_value_app (s t : string) :
  digits_value (s ++ t)
  = digits_value s * 10 ^ Z.of_nat (String.length t) + digits_value t.
Proof.
  unfold digits_value at 1. rewrite digits_value_acc_app.
  fold (digits_value s). apply digits_value_acc_shift.
Qed.

Lemma all_digits_app (s t : string) :
  all_digits (s ++ t) = all_digits s && all_digits t.
Proof.
  induction s as [|c s IH]; simpl; [reflexivity|].
  rewrite IH. apply andb_assoc.
Qed.

(** The digits written by [digits_acc]. *)
Lemma digits_acc_spec (fuel : nat) :
  forall (n : Z) (acc : string),
    0 <= n < 10 ^ Z.of_nat fuel -> fuel <> O ->
    exists c ds,
      digits_acc fuel n acc = String c ds ++ acc
      /\ all_digits (String c ds) = true
      /\ digits_value (String c ds) = n
      /\ Ascii.eqb c "0" = (n =? 0).
Proof.
  induction fuel as [|fuel IH]; intros n acc Hn Hf; [congruence|].
  cbn [digits_acc].
  destruct (n <? 10) eqn:E.
  - apply Z.ltb_lt in E.
    rewrite Z.mod_small by lia.
    destruct (digit_char_spec n ltac:(lia)) as (D1 & D2 & D3).
    exists (digit_char n), EmptyString. simpl.
    rewrite D1. repeat split; try assumption.
  - apply Z.ltb_ge in E.
    assert (Hq : 0 <= n / 10 < 10 ^ Z.of_nat fuel).
    { split; [apply Z.div_pos; lia|].
      apply Z.div_lt_upper_bound; [lia|].
      rewrite Nat2Z.inj_succ, Z.pow_succ_r in Hn by lia. lia. }
    assert (Hf' : fuel <> O).
    { intros ->. simpl in Hq. assert (n / 10 = 0) by lia.
      pose proof (Z.div_mod n 10 ltac:(lia)).
      pose proof (Z.mod_pos_bound n 10 ltac:(lia)). lia. }
    destruct (IH (n / 10) (String (digit_char (n mod 10)) acc) Hq Hf')
      as (c & ds & H1 & H2 & H3 & H4).
    destruct (digit_char_spec (n mod 10) (Z.mod_pos_bound n 10 ltac:(lia)))
      as (D1 & D2 & _).
    exists c, (ds ++ String (digit_char (n mod 10)) EmptyString).
    repeat split.
    + rewrite H1. simpl. f_equal. now rewrite string_app_assoc.
    + change (String c (ds ++ String (digit_char (n mod 10)) EmptyString))
        with (String c ds ++ String (digit_char (n mod 10)) EmptyString).
      rewrite all_digits_app, H2. simpl. now rewrite D1.
    + change (String c (ds ++ String (digit_char (n mod 10)) EmptyString))
        with (String c ds ++ String (digit_char (n mod 10)) EmptyString).
      rewrite digits_value_app, H3. unfold digits_value at 1; simpl.
      rewrite D2. pose proof (Z.div_mod n 10 ltac:(lia)). lia.
    + rewrite H4.
      assert (n / 10 <> 0).
      { intro Z0. pose proof (Z.div_mod n 10 ltac:(lia)).
        pose proof (Z.mod_pos_bound n 10 ltac:(lia)). lia. }
      assert (n <> 0) by lia.
      destruct (Z.eqb_spec (n / 10) 0), (Z.eqb_spec n 0); congruence.
Qed.

Lemma str_nat_spec (n : Z) :
  0 <= n ->
  exists c ds,
    str_nat n = String c ds
    /\ all_digits (String c ds) = true
    /\ digits_value (String c ds) = n
    /\ Ascii.eqb c "0" = (n =? 0).
Proof.
  intro Hn. unfold str_nat.
  assert (B : 0 <= n < 10 ^ Z.of_nat (S (Z.to_nat (Z.log2 n)))).
  { split; [exact Hn|].
    rewrite Nat2Z.inj_succ, Z2Nat.id by apply Z.log2_nonneg.
    destruct (Z.eq_dec n 0) as [->|Hz].
    - simpl. lia.
    - apply Z.lt_le_trans with (2 ^ Z.succ (Z.log2 n)).
      + apply Z.log2_spec. lia.
      + apply Z.pow_le_mono_l. pose proof (Z.log2_nonneg n). lia. }
  destruct (digits_acc_spec _ n EmptyString B ltac:(discriminate))
    as (c & ds & H1 & H2 & H3 & H4).
  exists c, ds. rewrite H1, string_app_nil_r. auto.
Qed.

Lemma str_nat_digits (n : Z) : 0 <= n -> all_digits (str_nat n) = true.
Proof.
  intro H. destruct (str_nat_spec n H) as (c & ds & -> & A & _). exact A.
Qed.

Lemma str_nat_value (n : Z) : 0 <= n -> digits_value (str_nat n) = n.
Proof.
  intro H. destruct (str_nat_spec n H) as (c & ds & -> & _ & V & _). exact V.
Qed.

(** ** Reading numbers back *)

Lemma is_digit_not_sign (c : ascii) :
  is_digit c = true ->
  Ascii.eqb c "-" = false /\ Ascii.eqb c "." = false
  /\ Ascii.eqb c "e" = false /\ Ascii.eqb c "E" = false.
Proof.
  destruct c as [[] [] [] [] [] [] [] []]; try discriminate;
    intros _; repeat split; reflexivity.
Qed.

Lemma delimited_no_digit (rest : string) :
  delimited rest ->
  match rest with
  | EmptyString => True
  | String c _ =>
      is_digit c = false /\ Ascii.eqb c "." = false
      /\ Ascii.eqb c "e" = false /\ Ascii.eqb c "E" = false
  end.
Proof.
  destruct rest as [|c r]; [trivial|].
  unfold delimited, number_char. intro H.
  repeat (apply orb_false_iff in H; destruct H as [H ?]). auto.
Qed.

Lemma span_digits_app (ds rest : string) :
  all_digits ds = true ->
  match rest with
  | EmptyString => True
  | String c _ => is_digit c = false
  end ->
  span_digits (ds ++ rest) = (ds, rest).
Proof.
  intros Hd Hr. induction ds as [|c ds IH]; simpl.
  - destruct rest as [|c r]; [reflexivity|]. simpl. now rewrite Hr.
  - simpl in Hd. apply andb_true_iff in Hd. destruct Hd as [Hc Hd].
    rewrite Hc, (IH Hd). reflexivity.
Qed.

Lemma scan_frac_delimited (rest : string) :
  delimited rest -> scan_frac rest = (None, rest).
Proof.
  intro H. apply delimited_no_digit in H.
  destruct rest as [|c r]; [reflexivity|].
  destruct H as (_ & H & _). unfold scan_frac. now rewrite H.
Qed.

Lemma scan_exp_delimited (rest : string) :
  delimited rest -> scan_exp rest = (None, rest).
Proof.
  intro H. apply delimited_no_digit in H.
  destruct rest as [|c r]; [reflexivity|].
  destruct H as (_ & _ & H1 & H2). unfold scan_exp. now rewrite H1, H2.
Qed.

(** The integer part of a number is read whole when it is the text of a
    natural number and no digit follows. *)
Lemma scan_int_part_str_nat (n : Z) (rest : string) :
  0 <= n ->
  match rest with
  | EmptyString => True
  | String c _ => is_digit c = false
  end ->
  scan_int_part (str_nat n ++ rest) = Some (str_nat n, rest).
Proof.
  intros Hn Hr.
  destruct (str_nat_spec n Hn) as (c & ds & E & A & V & Z0).
  destruct (Z.eqb_spec n 0) as [->|Hz].
  - reflexivity.
  - rewrite E. simpl. rewrite Z0.
    pose proof A as A'. simpl in A'. apply andb_true_iff in A'.
    destruct A' as [Hc Hd]. rewrite Hc.
    rewrite (span_digits_app ds rest Hd Hr). reflexivity.
Qed.

(** A text that starts with a digit has no sign. *)
Lemma parse_number_unsigned (c : ascii) (s : string) :
  is_digit c = true ->
  parse_number (String c s) = parse_magnitude false (String c s).
Proof.
  intro H. unfold parse_number.
  destruct (is_digit_not_sign c H) as (-> & _). reflexivity.
Qed.

Lemma parse_number_signed (s : string) :
  parse_number (String "-" s) = parse_magnitude true s.
Proof. reflexivity. Qed.

Lemma parse_magnitude_str_nat (neg : bool) (n : Z) (rest : string) :
  0 <= n -> delimited rest ->
  parse_magnitude neg (str_nat n ++ rest)
  = Some (JInt (if neg then - n else n), rest).
Proof.
  intros Hn Hd.
  assert (Hr : match rest with
               | EmptyString => True
               | String c _ => is_digit c = false
               end).
  { apply delimited_no_digit in Hd. destruct rest; [trivial | tauto]. }
  unfold parse_magnitude.
  rewrite (scan_int_part_str_nat n rest Hn Hr).
  rewrite (scan_frac_delimited rest Hd), (scan_exp_delimited rest Hd).
  rewrite str_nat_value by lia. reflexivity.
Qed.

(** An [int] written by [str] is read back as the same [int]. *)
Lemma parse_number_str_int (z : Z) (rest : string) :
  delimited rest ->
  parse_number (str_int z ++ rest) = Some (JInt z, rest).
Proof.
  intro Hd. unfold str_int.
  destruct (z <? 0) eqn:E.
  - apply Z.ltb_lt in E. cbn [append]. rewrite parse_number_signed.
    rewrite parse_magnitude_str_nat by (lia || assumption).
    do 3 f_equal. lia.
  - apply Z.ltb_ge in E.
    destruct (str_nat_spec z E) as (c & ds & Es & A & _).
    simpl in A. apply andb_true_iff in A. destruct A as [Hc _].
    pose proof (parse_magnitude_str_nat false z rest E Hd) as P.
    rewrite Es in *. cbn [append] in *.
    now rewrite parse_number_unsigned.
Qed.

(** *** Powers of ten *)

Lemma Qpow10_add (a b : Z) : (Qpow10 (a + b) == Qpow10 a * Qpow10 b)%Q.
Proof. unfold Qpow10. apply Qpower_plus. discriminate. Qed.

Lemma Qpow10_nonneg (n : Z) : 0 <= n -> (Qpow10 n == inject_Z (10 ^ n))%Q.
Proof.
  intro H. unfold Qpow10. symmetry.
  exact (Zpower_Qpower 10 n H).
Qed.

Lemma Qpow10_cancel (n : Z) : (Qpow10 n * Qpow10 (- n) == 1)%Q.
Proof.
  rewrite <- Qpow10_add. replace (n + - n) with 0 by lia. reflexivity.
Qed.

(** The value of a decimal with [n] digits [B] after the point, scaled. *)
Lemma decimal_value (A B n m : Z) :
  0 <= n ->
  ((inject_Z A + inject_Z B * Qpow10 (- n)) * Qpow10 m
   == inject_Z (A * 10 ^ n + B) * Qpow10 (m - n))%Q.
Proof.
  intro Hn.
  replace (m - n) with (m + - n) by lia.
  rewrite Qpow10_add, inject_Z_plus, inject_Z_mult, <- (Qpow10_nonneg n Hn).
  transitivity
    ((inject_Z A * (Qpow10 n * Qpow10 (- n)) + inject_Z B * Qpow10 (- n))
       * Qpow10 m)%Q.
  - rewrite Qpow10_cancel. ring.
  - ring.
Qed.

(** *** The three parts of a number, on texts of a known shape *)

Lemma delimited_no_digit_head (rest : string) :
  delimited rest -> no_digit_head rest.
Proof.
  intro H. apply delimited_no_digit in H. destruct rest; [trivial | apply H].
Qed.

Lemma scan_int_part_digits (c : ascii) (ds tail : string) :
  all_digits (String c ds) = true -> Ascii.eqb c "0" = false ->
  no_digit_head tail ->
  scan_int_part (String c ds ++ tail) = Some (String c ds, tail).
Proof.
  intros A Z0 T. cbn [append scan_int_part]. rewrite Z0.
  pose proof A as A'. simpl in A'. apply andb_true_iff in A'.
  destruct A' as [Hc Hd]. rewrite Hc.
  change (String c (ds ++ tail)) with (String c ds ++ tail).
  now rewrite (span_digits_app _ _ A T).
Qed.

Lemma scan_frac_digits (c : ascii) (fs tail : string) :
  all_digits (String c fs) = true -> no_digit_head tail ->
  scan_frac (String "." (String c fs ++ tail)) = (Some (String c fs), tail).
Proof.
  intros A T. unfold scan_frac. cbn [Ascii.eqb Bool.eqb].
  now rewrite (span_digits_app _ _ A T).
Qed.

Lemma scan_frac_none (c : ascii) (tail : string) :
  Ascii.eqb c "." = false ->
  scan_frac (String c tail) = (None, String c tail).
Proof. intro H. unfold scan_frac. now rewrite H. Qed.

Lemma scan_exp_digits (neg : bool) (c : ascii) (es tail : string) :
  all_digits (String c es) = true -> no_digit_head tail ->
  scan_exp (String "e" (String (if neg then "-"%char else "+"%char)
                          (String c es ++ tail)))
  = (Some (neg, String c es), tail).
Proof.
  intros A T. unfold scan_exp. cbn [Ascii.eqb Bool.eqb orb].
  destruct neg; cbn [Ascii.eqb Bool.eqb];
    now rewrite (span_digits_app _ _ A T).
Qed.

Lemma all_digits_zeros (n : nat) : all_digits (zeros n) = true.
Proof. induction n; simpl; auto. Qed.

Lemma digits_value_zeros_app (n : nat) (s : string) :
  digits_value (zeros n ++ s) = digits_value s.
Proof.
  unfold digits_value. induction n as [|n IH]; simpl; [reflexivity | exact IH].
Qed.

Lemma length_zeros (n : nat) : String.length (zeros n) = n.
Proof. induction n; simpl; auto. Qed.

Lemma digits_value_zeros (n : nat) : digits_value (zeros n) = 0.
Proof.
  rewrite <- (string_app_nil_r (zeros n)), digits_value_zeros_app. reflexivity.
Qed.

Lemma take_drop (n : nat) (s : string) : take n s ++ drop n s = s.
Proof.
  revert s. induction n as [|n IH]; intros [|c s]; simpl; try reflexivity.
  now rewrite IH.
Qed.

Lemma length_take (n : nat) (s : string) :
  (n <= String.length s)%nat -> String.length (take n s) = n.
Proof.
  revert s. induction n as [|n IH]; intros [|c s]; simpl; intro H;
    try reflexivity; try lia.
  rewrite IH; lia.
Qed.

Lemma length_drop (n : nat) (s : string) :
  String.length (drop n s) = (String.length s - n)%nat.
Proof.
  revert s. induction n as [|n IH]; intros [|c s]; simpl; try reflexivity.
  apply IH.
Qed.

Lemma all_digits_take_drop (n : nat) (s : string) :
  all_digits s = true ->
  all_digits (take n s) = true /\ all_digits (drop n s) = true.
Proof.
  intro H. rewrite <- (take_drop n s), all_digits_app in H.
  now apply andb_true_iff in H.
Qed.

Lemma scan_int_part_ok (ip tail : string) :
  int_part_ok ip -> no_digit_head tail ->
  scan_int_part (ip ++ tail) = Some (ip, tail).
Proof.
  intros [-> | (c & ds & -> & A & Z0)] T.
  - reflexivity.
  - now apply scan_int_part_digits.
Qed.

Lemma scan_frac_text (fs : option string) (tail : string) :
  frac_ok fs -> no_digit_head tail ->
  match tail with
  | EmptyString => True
  | String c _ => Ascii.eqb c "." = false
  end ->
  scan_frac (frac_text fs ++ tail) = (fs, tail).
Proof.
  intros F T Hdot. destruct fs as [f|]; simpl.
  - destruct F as [Hne A]. destruct f as [|c f]; [congruence|].
    now apply scan_frac_digits.
  - destruct tail as [|c tail]; [reflexivity|]. now apply scan_frac_none.
Qed.

Lemma scan_exp_text (ex : option (bool * string)) (rest : string) :
  exp_ok ex -> delimited rest ->
  scan_exp (exp_text ex ++ rest) = (ex, rest).
Proof.
  intros E D. destruct ex as [[neg es]|]; simpl.
  - destruct E as [Hne A]. destruct es as [|c es]; [congruence|].
    apply scan_exp_digits; [exact A | now apply delimited_no_digit_head].
  - now apply scan_exp_delimited.
Qed.

(** A decimal with a fraction or an exponent is read as the double nearest
    to it. *)
Lemma parse_magnitude_float (neg : bool) (ip : string) (fs : option string)
    (ex : option (bool * string)) (rest : string) :
  int_part_ok ip -> frac_ok fs -> exp_ok ex ->
  fs <> None \/ ex <> None -> delimited rest ->
  parse_magnitude neg (ip ++ frac_text fs ++ exp_text ex ++ rest)
  = Some (JFloat (if neg then (- fl (decimal_of ip fs ex))%Q
                  else fl (decimal_of ip fs ex)), rest).
Proof.
  intros I F E N D.
  pose proof (delimited_no_digit rest D) as D'.
  assert (T2 : no_digit_head (exp_text ex ++ rest)
               /\ match exp_text ex ++ rest with
                  | EmptyString => True
                  | String c _ => Ascii.eqb c "." = false
                  end).
  { destruct ex as [[n es]|]; simpl; [split; reflexivity|].
    destruct rest as [|c r]; [split; trivial|]. tauto. }
  assert (T1 : no_digit_head (frac_text fs ++ exp_text ex ++ rest)).
  { destruct fs as [f|]; simpl; [reflexivity | apply T2]. }
  unfold parse_magnitude.
  rewrite (scan_int_part_ok ip _ I T1).
  rewrite (scan_frac_text fs _ F (proj1 T2) (proj2 T2)).
  rewrite (scan_exp_text ex rest E D).
  destruct fs as [f|], ex as [[n es]|]; try reflexivity.
  destruct N; congruence.
Qed.

(** *** The layout of a float, part by part *)

Lemma digits_ok_str_nat (n : Z) : 0 <= n -> digits_ok (str_nat n).
Proof.
  intro H. destruct (str_nat_spec n H) as (c & ds & E & A & _).
  rewrite E. split; [discriminate | exact A].
Qed.

(** The exponent digits: at least two, with the value of the exponent. *)
Lemma exponent_digits (ae : Z) :
  0 <= ae ->
  digits_ok ((if ae <? 10 then "0" else EmptyString) ++ str_nat ae)
  /\ digits_value ((if ae <? 10 then "0" else EmptyString) ++ str_nat ae) = ae.
Proof.
  intro H. destruct (digits_ok_str_nat ae H) as [Hne A].
  destruct (ae <? 10); simpl.
  - split; [split; [discriminate | exact A]|].
    change (String "0" (str_nat ae)) with (zeros 1 ++ str_nat ae).
    rewrite digits_value_zeros_app. now apply str_nat_value.
  - split; [split; assumption | now apply str_nat_value].
Qed.

Lemma digits_value_cons (c : ascii) (ds : string) :
  digits_value (String c ds)
  = digit_value c * 10 ^ Z.of_nat (String.length ds) + digits_value ds.
Proof.
  change (String c ds) with (String c EmptyString ++ ds).
  rewrite digits_value_app. unfold digits_value at 1. simpl. reflexivity.
Qed.

Lemma layout_repr_parts (d decpt : Z) :
  0 < d ->
  exists ip fs ex,
    layout_repr (str_nat d) decpt = ip ++ frac_text fs ++ exp_text ex
    /\ int_part_ok ip /\ frac_ok fs /\ exp_ok ex
    /\ (fs <> None \/ ex <> None)
    /\ (decimal_of ip fs ex
        == inject_Z d * Qpow10 (decpt - Z.of_nat (String.length (str_nat d))))%Q.
Proof.
  intro Hd.
  destruct (str_nat_spec d ltac:(lia)) as (c & ds & E & A & V & Z0).
  assert (Hz : Ascii.eqb c "0" = false)
    by (rewrite Z0; apply Z.eqb_neq; lia).
  rewrite E. unfold layout_repr.
  set (L := Z.of_nat (String.length (String c ds))).
  assert (HL : L = Z.of_nat (String.length ds) + 1)
    by (unfold L; cbn [String.length]; lia).
  pose proof A as A'. simpl in A'. apply andb_true_iff in A'.
  destruct A' as [Hc Hds].
  assert (Ic : int_part_ok (String c EmptyString)).
  { right. exists c, EmptyString. repeat split; try assumption.
    simpl. now rewrite Hc. }
  destruct ((decpt <=? -4) || (16 <? decpt)) eqn:C1.
  - (* exponent notation *)
    set (e := decpt - 1). set (ae := Z.abs e).
    destruct (exponent_digits ae (Z.abs_nonneg e)) as [Eok Ev].
    set (es := (if ae <? 10 then "0" else EmptyString) ++ str_nat ae) in *.
    assert (Hev : (if e <? 0 then - digits_value es else digits_value es) = e).
    { rewrite Ev. unfold ae. destruct (Z.ltb_spec e 0); lia. }
    destruct ds as [|c2 ds'].
    + exists (String c EmptyString), None, (Some (e <? 0, es)).
      refine (conj _ (conj Ic (conj I (conj Eok (conj _ _))))).
      * reflexivity.
      * right; discriminate.
      * unfold decimal_of. rewrite Hev.
        replace (digits_value (String c EmptyString)) with d by (symmetry; exact V).
        unfold e. rewrite Qplus_0_r.
        replace (decpt - L) with (decpt - 1) by (simpl in HL; lia). reflexivity.
    + exists (String c EmptyString), (Some (String c2 ds')), (Some (e <? 0, es)).
      assert (HL1 : (L <=? 1) = false)
        by (apply Z.leb_gt; cbn [String.length] in HL; lia).
      rewrite HL1.
      refine (conj _ (conj Ic (conj _ (conj Eok (conj _ _))))).
      * reflexivity.
      * split; [discriminate | exact Hds].
      * left; discriminate.
      * unfold decimal_of. rewrite Hev.
        rewrite decimal_value by lia.
        rewrite digits_value_cons in V.
        replace (digits_value (String c EmptyString)) with (digit_value c)
          by (unfold digits_value; simpl; lia).
        rewrite V. unfold e.
        replace (decpt - 1 - Z.of_nat (String.length (String c2 ds')))
          with (decpt - L) by lia.
        reflexivity.
  - destruct (decpt <=? 0) eqn:C2.
    + (* 0.000ddd *)
      apply Z.leb_le in C2.
      set (nz := Z.to_nat (- decpt)).
      exists "0", (Some (zeros nz ++ String c ds)), None.
      refine (conj _ (conj (or_introl eq_refl) (conj _ (conj I (conj _ _))))).
      * simpl. now rewrite string_app_nil_r.
      * split.
        -- destruct nz; discriminate.
        -- rewrite all_digits_app, all_digits_zeros. exact A.
      * left; discriminate.
      * unfold decimal_of.
        rewrite decimal_value by lia.
        rewrite digits_value_zeros_app, V, string_length_app, length_zeros.
        replace (digits_value "0") with 0 by reflexivity.
        rewrite Z.mul_0_l, Z.add_0_l.
        replace (0 - Z.of_nat (nz + String.length (String c ds)))
          with (decpt - L) by (unfold L, nz; lia).
        reflexivity.
    + apply Z.leb_gt in C2.
      destruct (L <=? decpt) eqn:C3.
      * (* ddd000.0 *)
        apply Z.leb_le in C3.
        set (k := Z.to_nat (decpt - L)).
        exists (String c ds ++ zeros k), (Some "0"), None.
        refine (conj _ (conj _ (conj _ (conj I (conj _ _))))).
        -- simpl. now rewrite string_app_assoc.
        -- right. exists c, (ds ++ zeros k). repeat split; try assumption.
           change (String c (ds ++ zeros k)) with (String c ds ++ zeros k).
           now rewrite all_digits_app, A, all_digits_zeros.
        -- split; [discriminate | reflexivity].
        -- left; discriminate.
        -- unfold decimal_of.
           rewrite decimal_value by lia.
           rewrite digits_value_app, V, digits_value_zeros, length_zeros.
           replace (digits_value "0") with 0 by reflexivity.
           replace (Z.of_nat (String.length "0")) with 1 by reflexivity.
           rewrite !Z.add_0_r.
           replace (0 - 1) with (- (1)) by lia.
           rewrite !inject_Z_mult.
           rewrite <- (Qpow10_nonneg (Z.of_nat k)) by lia.
           rewrite <- (Qpow10_nonneg 1) by lia.
           replace (decpt - L) with (Z.of_nat k) by (unfold k; lia).
           rewrite <- Qmult_assoc, (Qpow10_cancel 1). ring.
      * (* ddd.ddd *)
        apply Z.leb_gt in C3.
        set (n := Z.to_nat decpt).
        assert (Hn : (1 <= n < String.length (String c ds))%nat)
          by (unfold n; unfold L in C3; lia).
        destruct (all_digits_take_drop n (String c ds) A) as [At Adr].
        exists (take n (String c ds)), (Some (drop n (String c ds))), None.
        refine (conj _ (conj _ (conj _ (conj I (conj _ _))))).
        -- simpl. now rewrite string_app_nil_r.
        -- right. destruct n as [|n']; [lia|]. cbn [take] in *.
           exists c, (take n' ds). repeat split; assumption.
        -- split; [|exact Adr].
           intro Hempty.
           assert (Ld : String.length (drop n (String c ds)) = 0%nat)
             by now rewrite Hempty.
           rewrite length_drop in Ld. lia.
        -- left; discriminate.
        -- unfold decimal_of.
           rewrite decimal_value by lia.
           rewrite <- digits_value_app, take_drop, V, length_drop.
           replace (0 - Z.of_nat (String.length (String c ds) - n))
             with (decpt - L) by (unfold L, n; lia).
           reflexivity.
Qed.

(** *** The digits of a float *)

#[global] Instance fl_comp : Proper (Qeq ==> eq) fl.
Proof.
  intros x y H. unfold fl. now rewrite (Qred_complete x y H).
Qed.

Lemma strip_zeros_spec (fuel : nat) :
  forall d e d' e',
    0 < d -> strip_zeros fuel d e = (d', e') ->
    0 < d' /\ (inject_Z d' * Qpow10 e' == inject_Z d * Qpow10 e)%Q.
Proof.
  induction fuel as [|fuel IH]; intros d e d' e' Hd; cbn [strip_zeros].
  - intro H. inversion H; subst. split; [exact Hd | reflexivity].
  - destruct ((d mod 10 =? 0) && negb (d =? 0)) eqn:C.
    + apply andb_true_iff in C. destruct C as [C _]. apply Z.eqb_eq in C.
      pose proof (Z.div_mod d 10 ltac:(lia)) as Hdm.
      intro H. destruct (IH (d / 10) (e + 1) d' e' ltac:(lia) H) as [P Q].
      split; [exact P|].
      rewrite Q, Qpow10_add.
      replace d with (d / 10 * 10) at 2 by lia.
      rewrite inject_Z_mult.
      change (Qpow10 1) with 10%Q. change (inject_Z 10) with 10%Q. ring.
    + intro H. inversion H; subst. split; [exact Hd | reflexivity].
Qed.

Lemma candidate_spec (c e : Z) (a : Q) :
  candidate c e a = true -> 0 < c /\ (fl (inject_Z c * Qpow10 e) == a)%Q.
Proof.
  unfold candidate. intro H. apply andb_true_iff in H. destruct H as [P Q].
  apply Z.ltb_lt in P. apply Qeq_bool_iff in Q. now split.
Qed.

Lemma shortest_digits_spec (fuel : nat) :
  forall k n a d e,
    shortest_digits fuel k n a = Some (d, e) ->
    0 < d /\ (fl (inject_Z d * Qpow10 e) == a)%Q.
Proof.
  induction fuel as [|fuel IH]; intros k n a d e; cbn [shortest_digits];
    [discriminate|].
  destruct (candidate (Qfloor (a * Qpow10 (k - n))) (n - k) a) eqn:Olo;
    destruct (candidate (Qceiling (a * Qpow10 (k - n))) (n - k) a) eqn:Ohi;
    cbn [andb negb orb];
    repeat match goal with
      | |- context [if ?b then _ else _] =>
          match b with
          | context [Qcompare] => destruct b
          end
      end;
    cbn [andb negb orb]; intro H;
    try (apply (IH _ _ _ _ _ H));
    inversion H; subst d e;
    try (now apply candidate_spec).
Qed.

(** The search ends as soon as one of the two decimals of some length
    qualifies. *)
Lemma shortest_digits_found (fuel : nat) :
  forall k n a j,
    k <= j < k + Z.of_nat fuel ->
    candidate (Qfloor (a * Qpow10 (j - n))) (n - j) a
    || candidate (Qceiling (a * Qpow10 (j - n))) (n - j) a = true ->
    shortest_digits fuel k n a <> None.
Proof.
  induction fuel as [|fuel IH]; intros k n a j Hj Hc; [lia|].
  cbn [shortest_digits].
  destruct (candidate (Qfloor (a * Qpow10 (k - n))) (n - k) a) eqn:Olo;
    destruct (candidate (Qceiling (a * Qpow10 (k - n))) (n - k) a) eqn:Ohi;
    cbn [andb negb]; rewrite ?orb_true_r, ?orb_false_r;
    try discriminate.
  - destruct (Qcompare _ _); try discriminate.
    destruct (Z.even _); discriminate.
  - destruct (Z.eq_dec j k) as [-> | Hne].
    + rewrite Olo, Ohi in Hc. discriminate Hc.
    + apply (IH (k + 1) n a j); [lia | exact Hc].
Qed.

Lemma int_part_ok_head (ip : string) :
  int_part_ok ip -> exists c r, ip = String c r /\ is_digit c = true.
Proof.
  intros [-> | (c & ds & -> & A & _)].
  - now exists "0"%char, EmptyString.
  - exists c, ds. simpl in A. apply andb_true_iff in A. tauto.
Qed.

(** The text of a positive double starts with a digit and is read back as
    that double, with either sign in front. *)
Lemma repr_pos_reads_back (a : Q) (text : string) :
  repr_pos a = Some text ->
  (exists c r, text = String c r /\ is_digit c = true)
  /\ forall neg rest,
       delimited rest ->
       exists q',
         parse_magnitude neg (text ++ rest)
         = Some (JFloat (if neg then (- q')%Q else q'), rest)
         /\ (q' == a)%Q.
Proof.
  unfold repr_pos.
  destruct (shortest_digits 17 1 (dec_exponent a) a) as [[d e]|] eqn:S;
    [|discriminate].
  destruct (shortest_digits_spec _ _ _ _ _ _ S) as [Hd Hfl].
  destruct (strip_zeros 17 d e) as [d' e'] eqn:Z.
  destruct (strip_zeros_spec _ _ _ _ _ Hd Z) as [Hd' Hv].
  intro H. inversion H; subst text; clear H.
  set (decpt := Z.of_nat (String.length (str_nat d')) + e').
  destruct (layout_repr_parts d' decpt Hd')
    as (ip & fs & ex & -> & I & F & E & N & Dv).
  split.
  - destruct (int_part_ok_head ip I) as (c & r & -> & Hc).
    exists c, (r ++ frac_text fs ++ exp_text ex). split; [reflexivity | exact Hc].
  - intros neg rest Hr.
    exists (fl (decimal_of ip fs ex)). split.
    + rewrite !string_app_assoc.
      now apply parse_magnitude_float.
    + rewrite <- Hfl.
      assert (Heq : (decimal_of ip fs ex == inject_Z d * Qpow10 e)%Q).
      { rewrite Dv, <- Hv. unfold decpt.
        replace (Z.of_nat (String.length (str_nat d')) + e'
                   - Z.of_nat (String.length (str_nat d'))) with e' by lia.
        reflexivity. }
      rewrite (fl_comp _ _ Heq). reflexivity.
Qed.

Lemma has_repr_cases (q : Q) :
  has_repr q = true ->
  (q == 0)%Q \/ (~ (q == 0)%Q /\ exists text, repr_pos (Qabs q) = Some text).
Proof.
  unfold has_repr. intro H.
  destruct (Qeq_bool q 0) eqn:E.
  - left. now apply Qeq_bool_iff.
  - right. split.
    + intro Hq. apply Qeq_bool_iff in Hq. congruence.
    + simpl in H. destruct (repr_pos (Qabs q)) as [text|]; [|discriminate].
      now exists text.
Qed.

(** A float written by [repr] is read back as a float of the same value. *)
Lemma parse_number_float_repr (q : Q) (rest : string) :
  has_repr q = true -> delimited rest ->
  exists q',
    parse_number (float_repr q ++ rest) = Some (JFloat q', rest)
    /\ (q' == q)%Q.
Proof.
  intros H Hr. unfold float_repr.
  destruct (has_repr_cases q H) as [Hz | (Hnz & text & Ht)].
  - apply Qeq_bool_iff in Hz. rewrite Hz.
    exists (fl (decimal_of "0" (Some "0") None)). split.
    + change ("0.0" ++ rest)
        with (String "0" (frac_text (Some "0") ++ exp_text None ++ rest)).
      rewrite parse_number_unsigned by reflexivity.
      apply (parse_magnitude_float false "0" (Some "0") None rest);
        try (now left); try exact I; try assumption.
      split; [discriminate | reflexivity].
    + apply Qeq_bool_iff in Hz. rewrite Hz. vm_compute. reflexivity.
  - destruct (Qeq_bool q 0) eqn:E;
      [apply Qeq_bool_iff in E; contradiction|].
    rewrite Ht.
    destruct (repr_pos_reads_back _ _ Ht) as ((c & r & -> & Hc) & P).
    destruct (Qgtb 0 q) eqn:S.
    + destruct (P true rest Hr) as (q' & Pq & Eq).
      exists (- q')%Q. split.
      * cbn [append]. rewrite parse_number_signed. exact Pq.
      * rewrite Eq. apply Qgtb_lt in S.
        rewrite Qabs_neg by now apply Qlt_le_weak. ring.
    + destruct (P false rest Hr) as (q' & Pq & Eq).
      exists q'. split.
      * cbn [append]. rewrite parse_number_unsigned by exact Hc. exact Pq.
      * rewrite Eq. apply Qgtb_le in S. now apply Qabs_pos.
Qed.

Example float_repr_samples :
  float_repr (fl (923 # 10)) = "92.3"
  /\ float_repr (fl (4499 # 100)) = "44.99"
  /\ float_repr 16 = "16.0"
  /\ float_repr (fl (15 # 100000000)) = "1.5e-07"
  /\ float_repr (- fl (1 # 3)) = "-0.3333333333333333"
  /\ float_repr (fl (inject_Z (10 ^ 16))) = "1e+16".
Proof. vm_compute. repeat split. Qed.

(** ** Reading strings back *)

Lemma scan_string_encode_char (c : ascii) (tail : string) :
  scan_string (encode_char c ++ tail)
  = match scan_string tail with
    | Some (str, rest) => Some (String c str, rest)
    | None => None
    end.
Proof.
  destruct c as [[] [] [] [] [] [] [] []]; reflexivity.
Qed.

Lemma scan_string_encode_chars (s rest : string) :
  scan_string (encode_chars s ++ String dquote rest) = Some (s, rest).
Proof.
  induction s as [|c s IH]; simpl.
  - reflexivity.
  - rewrite string_app_assoc, scan_string_encode_char, IH. reflexivity.
Qed.

(** ** The shape of a written document *)

Lemma dumps_at_object (level : nat) (k0 : string) (v0 : json)
    (ms : list (string * json)) :
  dumps_at level (JObject ((k0, v0) :: ms))
  = "{" ++ newline_indent (S level) ++ encode_string k0 ++ ": "
      ++ dumps_at (S level) v0 ++ members_tail level ms.
Proof.
  cbn [dumps_at]. do 5 f_equal.
  induction ms as [|[k v] ms IH]; cbn [members_tail]; [reflexivity|].
  now rewrite IH.
Qed.

Lemma json_wf_object (ms : list (string * json)) :
  json_wf (JObject ms) = distinct (map fst ms) && members_wf ms.
Proof.
  reflexivity.
Qed.

Lemma json_size_object (ms : list (string * json)) :
  json_size (JObject ms) = S (members_size ms).
Proof.
  reflexivity.
Qed.

Lemma json_equiv_object (ms ns : list (string * json)) :
  json_equiv (JObject ms) (JObject ns) <-> members_equiv ms ns.
Proof.
  split; intro H; exact H.
Qed.

(** Induction on documents, with the members of an object as a list. *)
Lemma json_induction (P : json -> Prop) :
  P JNull -> (forall z, P (JInt z)) -> (forall q, P (JFloat q)) ->
  (forall s, P (JString s)) ->
  (forall ms, Forall (fun kv => P (snd kv)) ms -> P (JObject ms)) ->
  forall j, P j.
Proof.
  intros Hnull Hint Hfloat Hstr Hobj.
  fix IH 1. intros [| z | q | s | ms].
  - exact Hnull.
  - apply Hint.
  - apply Hfloat.
  - apply Hstr.
  - apply Hobj. induction ms as [|[k v] ms IHms]; constructor.
    + apply IH.
    + exact IHms.
Qed.

Lemma skip_ws_spaces (n : nat) (s : string) :
  skip_ws (spaces n ++ s) = skip_ws s.
Proof. induction n as [|n IH]; simpl; [reflexivity | exact IH]. Qed.

Lemma skip_ws_newline_indent (level : nat) (s : string) :
  skip_ws (newline_indent level ++ s) = skip_ws s.
Proof.
  unfold newline_indent, nl. rewrite string_app_assoc. cbn [append skip_ws].
  change (is_whitespace (ascii_of_nat 10)) with true. cbv iota.
  apply skip_ws_spaces.
Qed.

Lemma value_head_not_ws (c : ascii) : value_head c -> is_whitespace c = false.
Proof.
  intros [c' H| | | |]; try reflexivity.
  destruct c' as [[] [] [] [] [] [] [] []]; try discriminate; reflexivity.
Qed.

Lemma skip_ws_head (c : ascii) (s : string) :
  value_head c -> skip_ws (String c s) = String c s.
Proof.
  intro H. simpl. now rewrite (value_head_not_ws c H).
Qed.

Lemma str_int_head (z : Z) :
  exists c r, str_int z = String c r /\ (is_digit c = true \/ c = "-"%char).
Proof.
  unfold str_int. destruct (z <? 0) eqn:E.
  - exists "-"%char, (str_nat (- z)). auto.
  - apply Z.ltb_ge in E.
    destruct (str_nat_spec z E) as (c & ds & -> & A & _).
    exists c, ds. simpl in A. apply andb_true_iff in A. tauto.
Qed.

Lemma float_repr_head (q : Q) :
  has_repr q = true ->
  exists c r, float_repr q = String c r /\ (is_digit c = true \/ c = "-"%char).
Proof.
  intro H. unfold float_repr.
  destruct (has_repr_cases q H) as [Hz | (Hnz & text & Ht)].
  - apply Qeq_bool_iff in Hz. rewrite Hz.
    exists "0"%char, ".0". auto.
  - destruct (Qeq_bool q 0) eqn:E;
      [apply Qeq_bool_iff in E; contradiction|].
    rewrite Ht.
    destruct (repr_pos_reads_back _ _ Ht) as ((c & r & -> & Hc) & _).
    destruct (Qgtb 0 q).
    + exists "-"%char, (String c r). auto.
    + exists c, r. auto.
Qed.

(** A text that starts like a number is handed to the number reader. *)
Lemma parse_value_number (fuel : nat) (c : ascii) (s : string) :
  is_digit c = true \/ c = "-"%char ->
  parse_value (S fuel) (String c s) = parse_number (String c s).
Proof.
  intro H. cbn [parse_value].
  assert (E : (N_of_ascii c =? 34)%N = false /\ (N_of_ascii c =? 123)%N = false
              /\ (N_of_ascii c =? 110)%N = false).
  { destruct H as [H | ->]; [|repeat split; reflexivity].
    destruct c as [[] [] [] [] [] [] [] []]; try discriminate;
      repeat split; reflexivity. }
  destruct E as (-> & -> & ->). reflexivity.
Qed.

Lemma dumps_at_head (level : nat) (j : json) :
  json_wf j = true ->
  exists c r, dumps_at level j = String c r /\ value_head c.
Proof.
  destruct j as [| z | q | s | ms]; intro W.
  - exists "n"%char, "ull". split; [reflexivity | apply head_n].
  - destruct (str_int_head z) as (c & r & E & H).
    exists c, r. split; [exact E|].
    destruct H as [H | ->]; [now apply head_digit | apply head_minus].
  - destruct (float_repr_head q W) as (c & r & E & H).
    exists c, r. split; [exact E|].
    destruct H as [H | ->]; [now apply head_digit | apply head_minus].
  - exists dquote, (encode_chars s ++ String dquote EmptyString).
    split; [reflexivity | apply head_quote].
  - destruct ms as [|[k0 v0] ms].
    + exists "{"%char, "}". split; [reflexivity | apply head_brace].
    + rewrite dumps_at_object. eexists _, _. split; [reflexivity | apply head_brace].
Qed.

Lemma members_tail_nil_app (level : nat) (rest : string) :
  members_tail level [] ++ rest = newline_indent level ++ String "}" rest.
Proof. cbn [members_tail]. now rewrite string_app_assoc. Qed.

Lemma encode_string_app (k rest : string) :
  encode_string k ++ rest = String dquote (encode_chars k ++ String dquote rest).
Proof.
  unfold encode_string. cbn [append]. now rewrite string_app_assoc.
Qed.

Lemma members_tail_cons_app (level : nat) (k : string) (v : json)
    (ms : list (string * json)) (rest : string) :
  members_tail level ((k, v) :: ms) ++ rest
  = String "," (newline_indent (S level)
                  ++ String dquote (member_text level k v ms rest)).
Proof.
  cbn [members_tail]. unfold member_text.
  rewrite !string_app_assoc. cbn [append]. f_equal. f_equal.
  rewrite encode_string_app. reflexivity.
Qed.

Lemma dumps_at_object_app (level : nat) (k0 : string) (v0 : json)
    (ms : list (string * json)) (rest : string) :
  dumps_at level (JObject ((k0, v0) :: ms)) ++ rest
  = String "{" (newline_indent (S level)
                  ++ String dquote (member_text level k0 v0 ms rest)).
Proof.
  rewrite dumps_at_object. unfold member_text.
  rewrite !string_app_assoc. cbn [append]. f_equal. f_equal.
  rewrite encode_string_app. reflexivity.
Qed.

Lemma delimited_members_tail (level : nat) (ms : list (string * json))
    (rest : string) :
  delimited (members_tail level ms ++ rest).
Proof.
  destruct ms as [|[k v] ms].
  - rewrite members_tail_nil_app. reflexivity.
  - rewrite members_tail_cons_app. reflexivity.
Qed.

(** ** Dictionaries with distinct keys *)

Lemma distinct_middle (a b : list string) (k : string) :
  distinct (a ++ k :: b) = true -> existsb (String.eqb k) a = false.
Proof.
  induction a as [|x a IH]; simpl; intro H; [reflexivity|].
  apply andb_true_iff in H. destruct H as [H1 H2].
  apply negb_true_iff in H1. rewrite existsb_app in H1.
  apply orb_false_iff in H1. destruct H1 as [_ H1]. simpl in H1.
  apply orb_false_iff in H1. destruct H1 as [H1 _].
  rewrite String.eqb_sym, H1. simpl. now apply IH.
Qed.

Lemma dict_set_fresh (k : string) (v : json) (d : list (string * json)) :
  existsb (String.eqb k) (map fst d) = false ->
  dict_set k v d = (d ++ [(k, v)])%list.
Proof.
  induction d as [|[k' v'] d IH]; simpl; intro H; [reflexivity|].
  apply orb_false_iff in H. destruct H as [H1 H2].
  rewrite H1. f_equal. now apply IH.
Qed.

Lemma dict_of_pairs_acc (l acc : list (string * json)) :
  distinct (map fst (acc ++ l)) = true ->
  fold_left (fun d kv => dict_set (fst kv) (snd kv) d) l acc = (acc ++ l)%list.
Proof.
  revert acc. induction l as [|[k v] l IH]; intros acc H; simpl.
  - now rewrite app_nil_r.
  - rewrite dict_set_fresh.
    + rewrite IH; rewrite <- app_assoc; [reflexivity | exact H].
    + rewrite map_app in H. simpl in H. now apply distinct_middle in H.
Qed.

Lemma dict_of_pairs_distinct (l : list (string * json)) :
  distinct (map fst l) = true -> dict_of_pairs l = l.
Proof. intro H. unfold dict_of_pairs. now rewrite dict_of_pairs_acc. Qed.

Lemma members_equiv_keys (ms ns : list (string * json)) :
  members_equiv ms ns -> map fst ms = map fst ns.
Proof.
  revert ns. induction ms as [|[k v] ms IH]; intros [|[k' v'] ns]; simpl;
    try tauto.
  intros (-> & _ & H). f_equal. now apply IH.
Qed.

(** ** Reading a document back *)

Lemma skip_ws_dumps (level : nat) (j : json) (rest : string) :
  json_wf j = true ->
  skip_ws (dumps_at level j ++ rest) = dumps_at level j ++ rest.
Proof.
  intro W. destruct (dumps_at_head level j W) as (c & r & -> & H).
  cbn [append]. now apply skip_ws_head.
Qed.

(** One step of the member reader on a written member. *)
Lemma parse_members_unfold (f level : nat) (k : string) (v : json)
    (ms : list (string * json)) (rest : string) :
  json_wf v = true ->
  parse_members (S f) (member_text level k v ms rest)
  = match parse_value f (dumps_at (S level) v ++ members_tail level ms ++ rest) with
    | None => None
    | Some (v', s3) =>
        match skip_ws s3 with
        | EmptyString => None
        | String c' s4 =>
            if (N_of_ascii c' =? 125)%N then Some ([(k, v')], s4)
            else if (N_of_ascii c' =? 44)%N then
              match skip_ws s4 with
              | EmptyString => None
              | String q s5 =>
                  if (N_of_ascii q =? 34)%N then
                    match parse_members f s5 with
                    | Some (ms', rest') => Some ((k, v') :: ms', rest')
                    | None => None
                    end
                  else None
              end
            else None
        end
    end.
Proof.
  intro W. cbn [parse_members]. unfold member_text.
  rewrite scan_string_encode_chars.
  change (skip_ws (String ":" (String " " ?x))) with (String ":" (String " " x)).
  cbv iota.
  change (N_of_ascii ":" =? 58)%N with true. cbv iota.
  change (skip_ws (String " " ?x)) with (skip_ws x).
  rewrite (skip_ws_dumps _ _ _ W).
  reflexivity.
Qed.

Lemma skip_ws_members_tail_nil (level : nat) (rest : string) :
  skip_ws (members_tail level [] ++ rest) = String "}" rest.
Proof.
  rewrite members_tail_nil_app, skip_ws_newline_indent. reflexivity.
Qed.

Lemma skip_ws_members_tail_cons (level : nat) (k : string) (v : json)
    (ms : list (string * json)) (rest : string) :
  skip_ws (members_tail level ((k, v) :: ms) ++ rest)
  = String "," (newline_indent (S level)
                  ++ String dquote (member_text level k v ms rest)).
Proof. rewrite members_tail_cons_app. reflexivity. Qed.

(** The members of an object are read back one after the other. *)
Lemma parse_members_text (ms : list (string * json)) :
  Forall (fun kv => reads_back (snd kv)) ms ->
  forall k0 v0 level fuel rest,
    reads_back v0 -> json_wf v0 = true -> members_wf ms = true ->
    (S (json_size v0 + members_size ms) <= fuel)%nat ->
    exists pairs,
      parse_members fuel (member_text level k0 v0 ms rest) = Some (pairs, rest)
      /\ members_equiv pairs ((k0, v0) :: ms).
Proof.
  induction 1 as [|[k v] ms Hv Hms IH];
    intros k0 v0 level fuel rest R0 W0 Wms Hfuel.
  - destruct fuel as [|f]; [lia|].
    rewrite (parse_members_unfold f level k0 v0 [] rest W0).
    destruct (R0 (S level) f (members_tail level [] ++ rest) W0
                ltac:(cbn [members_size] in Hfuel; lia)
                (delimited_members_tail level [] rest))
      as (v0' & -> & E0).
    rewrite skip_ws_members_tail_nil.
    change (N_of_ascii "}" =? 125)%N with true. cbv iota.
    exists [(k0, v0')]. split; [reflexivity|].
    cbn [members_equiv]. auto.
  - destruct fuel as [|f]; [lia|].
    cbn [members_wf snd] in *. apply andb_true_iff in Wms.
    destruct Wms as [Wv Wms]. cbn [members_size] in Hfuel.
    rewrite (parse_members_unfold f level k0 v0 ((k, v) :: ms) rest W0).
    destruct (R0 (S level) f (members_tail level ((k, v) :: ms) ++ rest) W0
                ltac:(lia) (delimited_members_tail level _ rest))
      as (v0' & -> & E0).
    rewrite skip_ws_members_tail_cons.
    change (N_of_ascii "," =? 125)%N with false.
    change (N_of_ascii "," =? 44)%N with true. cbv iota.
    rewrite skip_ws_newline_indent.
    change (skip_ws (String dquote ?x)) with (String dquote x).
    change (N_of_ascii dquote =? 34)%N with true. cbv iota.
    destruct (IH k v level f rest Hv Wv Wms ltac:(lia)) as (pairs & -> & Ep).
    exists ((k0, v0') :: pairs). split; [reflexivity|].
    cbn [members_equiv] in *. auto.
Qed.

(** Every well-formed document is read back from its text. *)
Lemma reads_back_all (j : json) : reads_back j.
Proof.
  induction j as [| z | q | s | ms IH] using json_induction;
    intros level fuel rest W Hfuel Hrest;
    (destruct fuel as [|f]; [cbn [json_size] in Hfuel; lia|]).
  - exists JNull. split; [reflexivity | exact I].
  - exists (JInt z). split; [|reflexivity].
    destruct (str_int_head z) as (c & r & E & H).
    cbn [dumps_at]. pose proof (parse_number_str_int z rest Hrest) as P.
    rewrite E in *. cbn [append] in *.
    now rewrite parse_value_number.
  - cbn [json_wf] in W.
    destruct (parse_number_float_repr q rest W Hrest) as (q' & P & Eq).
    exists (JFloat q'). split; [|exact Eq].
    destruct (float_repr_head q W) as (c & r & E & H).
    cbn [dumps_at]. rewrite E in *. cbn [append] in *.
    now rewrite parse_value_number.
  - exists (JString s). split; [|reflexivity].
    cbn [dumps_at]. rewrite encode_string_app. cbn [parse_value].
    change (N_of_ascii dquote =? 34)%N with true. cbv iota.
    now rewrite scan_string_encode_chars.
  - destruct ms as [|[k0 v0] ms].
    + exists (JObject []). split; [reflexivity | exact I].
    + rewrite json_wf_object in W. apply andb_true_iff in W.
      destruct W as [Wd Wm]. cbn [members_wf] in Wm.
      apply andb_true_iff in Wm. destruct Wm as [W0 Wms].
      rewrite json_size_object in Hfuel. cbn [members_size] in Hfuel.
      inversion IH as [|? ? R0 Rms]; subst. cbn [snd] in R0.
      destruct (parse_members_text ms Rms k0 v0 level f rest R0 W0 Wms
                  ltac:(lia)) as (pairs & P & Ep).
      exists (JObject pairs). split.
      * rewrite dumps_at_object_app. cbn [parse_value].
        change (N_of_ascii "{" =? 34)%N with false.
        change (N_of_ascii "{" =? 123)%N with true. cbv iota.
        rewrite skip_ws_newline_indent.
        change (skip_ws (String dquote ?x)) with (String dquote x).
        change (N_of_ascii dquote =? 125)%N with false.
        change (N_of_ascii dquote =? 34)%N with true. cbv iota.
        rewrite P. rewrite dict_of_pairs_distinct; [reflexivity|].
        rewrite (members_equiv_keys _ _ Ep). exact Wd.
      * apply json_equiv_object. exact Ep.
Qed.

(** The text of a document is at least as long as the document is large:
    the fuel [json_loads] starts with is enough. *)
Lemma members_tail_length (level : nat) (ms : list (string * json)) :
  Forall (fun kv => forall l, json_wf (snd kv) = true ->
                      (json_size (snd kv) <= String.length (dumps_at l (snd kv)))%nat)
         ms ->
  members_wf ms = true ->
  (members_size ms <= String.length (members_tail level ms))%nat.
Proof.
  induction 1 as [|[k v] ms Hv Hms IH]; intro W.
  - cbn [members_size]. lia.
  - cbn [members_wf snd] in *. apply andb_true_iff in W. destruct W as [Wv Wms].
    cbn [members_tail members_size].
    rewrite !string_length_app. cbn [String.length].
    specialize (Hv (S level) Wv). specialize (IH Wms). lia.
Qed.

Lemma json_size_le_length (j : json) :
  forall level, json_wf j = true ->
    (json_size j <= String.length (dumps_at level j))%nat.
Proof.
  induction j as [| z | q | s | ms IH] using json_induction; intros level W;
    try (destruct (dumps_at_head level _ W) as (c & r & -> & _);
         cbn [json_size String.length]; lia).
  destruct ms as [|[k0 v0] ms]; [cbn; lia|].
  rewrite json_wf_object in W. apply andb_true_iff in W.
  destruct W as [_ Wm]. cbn [members_wf] in Wm.
  apply andb_true_iff in Wm. destruct Wm as [W0 Wms].
  inversion IH as [|? ? R0 Rms]; subst. cbn [snd] in R0.
  rewrite json_size_object, dumps_at_object. cbn [members_size].
  rewrite !string_length_app. cbn [String.length].
  specialize (R0 (S level) W0).
  pose proof (members_tail_length level ms Rms Wms). lia.
Qed.

(** [json.loads(json.dumps(j, indent=2))] is [j], for a well-formed [j]. *)
Lemma json_loads_dumps (j : json) :
  json_wf j = true ->
  exists j', json_loads (json_dumps j) = Some j' /\ json_equiv j' j.
Proof.
  intro W. unfold json_loads, json_dumps.
  pose proof (skip_ws_dumps 0 j EmptyString W) as Sk.
  rewrite string_app_nil_r in Sk. rewrite Sk.
  destruct (reads_back_all j 0%nat (S (String.length (dumps_at 0 j))) EmptyString W
              ltac:(pose proof (json_size_le_length j 0%nat W); lia) I)
    as (j' & P & E).
  rewrite string_app_nil_r in P. rewrite P.
  exists j'. split; [reflexivity | exact E].
Qed.

Lemma stats_document_wf (stats : Stats) :
  forallb has_repr (stats_floats stats) = true ->
  json_wf (stats_document stats) = true.
Proof.
  unfold stats_floats, stats_document.
  destruct (Cpu.load_avg (cpu stats)) as [z | q],
           (Cpu.count_logical (cpu stats)) as [cl|],
           (Cpu.count_physical (cpu stats)) as [cp|];
    cbn [forallb app]; intro H;
    repeat match goal with
      | H : _ && _ = true |- _ => apply andb_true_iff in H; destruct H
      end;
    cbn -[has_repr];
    repeat match goal with
      | H : has_repr _ = true |- _ => rewrite H; clear H
      end;
    reflexivity.
Qed.

(** What [save_stats_json] writes when the file can be written: the text of
    the snapshot's document, under the given name or a time-stamped one. *)
Lemma save_stats_json_writes (now : datetime) (stats : Stats)
    (filename : option string) (self : SystemMonitor) :
  exists name,
    save_stats_json now None stats filename self
    = (Ret tt, self,
       [FileWrite name (json_dumps (stats_document stats));
        Log INFO ("Statistics saved to " ++ name)]).
Proof.
  destruct filename as [[|c f]|]; eexists; reflexivity.
Qed.

(** ** Doubles *)

(** *** Powers of two *)

Lemma Qpow2_pos (k : Z) : (0 < Qpow2 k)%Q.
Proof. unfold Qpow2. apply Qpower_0_lt. reflexivity. Qed.

Lemma Qpow2_add (a b : Z) : (Qpow2 (a + b) == Qpow2 a * Qpow2 b)%Q.
Proof. unfold Qpow2. apply Qpower_plus. discriminate. Qed.

Lemma Qpow2_succ (k : Z) : (Qpow2 (k + 1) == 2 * Qpow2 k)%Q.
Proof. rewrite Qpow2_add. change (Qpow2 1) with 2%Q. ring. Qed.

Lemma Qpow2_pred (k : Z) : (2 * Qpow2 (k - 1) == Qpow2 k)%Q.
Proof.
  rewrite <- Qpow2_succ. replace (k - 1 + 1) with k by lia. reflexivity.
Qed.

Lemma Qpow2_cancel (k : Z) : (Qpow2 k * Qpow2 (- k) == 1)%Q.
Proof.
  rewrite <- Qpow2_add. replace (k + - k) with 0 by lia. reflexivity.
Qed.

Lemma Qpow2_lt (a b : Z) : a < b -> (Qpow2 a < Qpow2 b)%Q.
Proof. intro H. unfold Qpow2. apply Qpower_lt_compat_l; [exact H | reflexivity]. Qed.

Lemma Qpow2_le (a b : Z) : a <= b -> (Qpow2 a <= Qpow2 b)%Q.
Proof.
  intro H. unfold Qpow2. apply Qpower_le_compat_l; [exact H | discriminate].
Qed.

Lemma Qpow2_nonneg (k : Z) : 0 <= k -> (Qpow2 k == inject_Z (2 ^ k))%Q.
Proof. intro H. unfold Qpow2. symmetry. exact (Zpower_Qpower 2 k H). Qed.

Lemma inject_Z_lt (x y : Z) : x < y -> (inject_Z x < inject_Z y)%Q.
Proof. intro H. now rewrite <- Zlt_Qlt. Qed.

Lemma inject_Z_le (x y : Z) : x <= y -> (inject_Z x <= inject_Z y)%Q.
Proof. intro H. now rewrite <- Zle_Qle. Qed.

(** *** The binary logarithm *)

Lemma Qnum_pos (a : Q) : (0 < a)%Q -> 0 < Qnum a.
Proof. destruct a as [n d]. unfold Qlt; simpl. lia. Qed.

Lemma Q_as_fraction (a : Q) :
  (a * inject_Z (Zpos (Qden a)) == inject_Z (Qnum a))%Q.
Proof.
  destruct a as [n d]. unfold Qeq, Qmult, inject_Z; simpl. lia.
Qed.

Lemma Qlog2_spec (a : Q) :
  (0 < a)%Q -> (Qpow2 (Qlog2 a) <= a < Qpow2 (Qlog2 a + 1))%Q.
Proof.
  intro Ha. unfold Qlog2.
  set (n := Qnum a). set (d := Zpos (Qden a)).
  assert (Hn : 0 < n) by now apply Qnum_pos.
  assert (Hd : 0 < d) by (unfold d; lia).
  destruct (Z.log2_spec n Hn) as [N1 N2].
  destruct (Z.log2_spec d Hd) as [D1 D2].
  pose proof (Z.log2_nonneg n) as Ln. pose proof (Z.log2_nonneg d) as Ld.
  set (ln := Z.log2 n) in *. set (ld := Z.log2 d) in *.
  apply inject_Z_le in N1, D1. apply inject_Z_lt in N2, D2.
  rewrite <- Qpow2_nonneg in N1, D1, N2, D2 by lia.
  replace (Z.succ ln) with (ln + 1) in N2 by lia.
  replace (Z.succ ld) with (ld + 1) in D2 by lia.
  rewrite Qpow2_succ in N2, D2.
  pose proof (Q_as_fraction a) as Fr. fold n d in Fr.
  pose proof (Qpow2_pos ln) as PA. pose proof (Qpow2_pos ld) as PB.
  pose proof (Qpow2_pos (ln - ld)) as PT.
  assert (TB : (Qpow2 (ln - ld) * Qpow2 ld == Qpow2 ln)%Q).
  { rewrite <- Qpow2_add. replace (ln - ld + ld) with ln by lia. reflexivity. }
  set (A := Qpow2 ln) in *. set (B := Qpow2 ld) in *.
  set (T := Qpow2 (ln - ld)) in *.
  set (N := inject_Z n) in *. set (D := inject_Z d) in *.
  assert (U : (a < 2 * T)%Q).
  { apply Qnot_le_lt. intro C.
    assert ((2 * T) * D <= a * D)%Q by (apply Qmult_le_compat_r; lra).
    assert (T * B <= T * D)%Q by (apply Qmult_le_l; lra).
    lra. }
  assert (Lo : (T < 2 * a)%Q).
  { apply Qnot_le_lt. intro C.
    assert ((2 * a) * D <= T * D)%Q by (apply Qmult_le_compat_r; lra).
    assert (T * D < T * (2 * B))%Q by (apply Qmult_lt_l; lra).
    lra. }
  destruct (Qle_bool T a) eqn:E.
  - apply Qle_bool_iff in E. rewrite Qpow2_succ. fold T. split; lra.
  - assert (E' : (a < T)%Q).
    { apply Qnot_le_lt. intro C. apply Qle_bool_iff in C. congruence. }
    replace (ln - ld - 1 + 1) with (ln - ld) by lia. fold T.
    pose proof (Qpow2_pred (ln - ld)) as Pp. fold T in Pp.
    split; lra.
Qed.

Lemma Qlog2_unique (a : Q) (e : Z) :
  (Qpow2 e <= a < Qpow2 (e + 1))%Q -> Qlog2 a = e.
Proof.
  intros [H1 H2].
  assert (Ha : (0 < a)%Q) by (pose proof (Qpow2_pos e); lra).
  destruct (Qlog2_spec a Ha) as [L1 L2].
  destruct (Z.lt_trichotomy (Qlog2 a) e) as [C | [C | C]]; [|exact C|].
  - pose proof (Qpow2_le (Qlog2 a + 1) e ltac:(lia)). lra.
  - pose proof (Qpow2_le (e + 1) (Qlog2 a) ltac:(lia)). lra.
Qed.

(** *** Rounding to the nearest integer *)

Lemma round_half_even_near (x : Q) (m : Z) :
  (inject_Z m - (1 # 2) < x < inject_Z m + (1 # 2))%Q ->
  round_half_even x = m.
Proof.
  intros [H1 H2]. unfold round_half_even.
  pose proof (Qfloor_le x) as F1. pose proof (Qlt_floor x) as F2.
  rewrite inject_Z_plus in F2. change (inject_Z 1) with 1%Q in F2.
  set (f := Qfloor x) in *.
  assert (C : f = m \/ f = m - 1).
  { assert (inject_Z f < inject_Z (m + 1))%Q
      by (rewrite inject_Z_plus; change (inject_Z 1) with 1%Q; lra).
    assert (inject_Z (m - 2) < inject_Z f)%Q
      by (unfold Z.sub; rewrite inject_Z_plus;
          change (inject_Z (- (2))) with (- (2))%Q; lra).
    rewrite <- Zlt_Qlt in *. lia. }
  destruct (Qcompare (x - inject_Z f) (1 # 2)) eqn:E.
  - apply Qeq_alt in E. destruct C as [-> | ->].
    + lra.
    + unfold Z.sub in E. rewrite inject_Z_plus in E.
      change (inject_Z (- (1))) with (- (1))%Q in E. lra.
  - apply Qlt_alt in E. destruct C as [-> | ->]; [reflexivity|].
    unfold Z.sub in E. rewrite inject_Z_plus in E.
    change (inject_Z (- (1))) with (- (1))%Q in E. lra.
  - apply Qgt_alt in E. destruct C as [-> | ->]; [lra | lia].
Qed.

Lemma round_half_even_Z (m : Z) : round_half_even (inject_Z m) = m.
Proof. apply round_half_even_near. lra. Qed.

Lemma round_half_even_bounds (x : Q) :
  (x - (1 # 2) <= inject_Z (round_half_even x) <= x + (1 # 2))%Q.
Proof.
  unfold round_half_even.
  pose proof (Qfloor_le x) as F1. pose proof (Qlt_floor x) as F2.
  rewrite inject_Z_plus in F2. change (inject_Z 1) with 1%Q in F2.
  set (f := Qfloor x) in *.
  destruct (Qcompare (x - inject_Z f) (1 # 2)) eqn:E.
  - apply Qeq_alt in E.
    destruct (Z.even f); [|rewrite inject_Z_plus; change (inject_Z 1) with 1%Q];
      lra.
  - apply Qlt_alt in E. lra.
  - apply Qgt_alt in E. rewrite inject_Z_plus. change (inject_Z 1) with 1%Q. lra.
Qed.

(** *** Rounding to a double *)

Lemma fl_of_pos (v : Q) : (0 < v)%Q -> fl v = fl_pos (Qred v).
Proof.
  intro H. unfold fl.
  pose proof (Qred_correct v) as R.
  destruct (Qeq_bool (Qred v) 0) eqn:E.
  - apply Qeq_bool_iff in E. lra.
  - destruct (Qgtb 0 (Qred v)) eqn:G; [|reflexivity].
    apply Qgtb_lt in G. lra.
Qed.

Lemma fl_of_neg (v : Q) : (v < 0)%Q -> fl v = (- fl_pos (- Qred v))%Q.
Proof.
  intro H. unfold fl.
  pose proof (Qred_correct v) as R.
  destruct (Qeq_bool (Qred v) 0) eqn:E.
  - apply Qeq_bool_iff in E. lra.
  - destruct (Qgtb 0 (Qred v)) eqn:G; [reflexivity|].
    apply Qgtb_le in G. lra.
Qed.

Lemma fl_of_zero (v : Q) : (v == 0)%Q -> fl v = 0%Q.
Proof.
  intro H. unfold fl.
  assert (E : Qeq_bool (Qred v) 0 = true)
    by (apply Qeq_bool_iff; now rewrite Qred_correct).
  now rewrite E.
Qed.

Lemma scale_lt (u x y : Q) : (0 < u)%Q -> (x * u < y * u)%Q -> (x < y)%Q.
Proof. intros Hu H. now apply (Qmult_lt_r x y u Hu). Qed.

Lemma scale_le (u x y : Q) : (0 < u)%Q -> (x * u <= y * u)%Q -> (x <= y)%Q.
Proof. intros Hu H. now apply (Qmult_le_r x y u Hu). Qed.

(** Linear arithmetic with the powers kept abstract. *)
Ltac qlra :=
  repeat match goal with
    | |- context [Qpow2 ?k] =>
        let x := fresh "p" in set (x := Qpow2 k) in *; clearbody x
    | H : context [Qpow2 ?k] |- _ =>
        let x := fresh "p" in set (x := Qpow2 k) in *; clearbody x
    | |- context [Qpow10 ?k] =>
        let x := fresh "p" in set (x := Qpow10 k) in *; clearbody x
    | H : context [Qpow10 ?k] |- _ =>
        let x := fresh "p" in set (x := Qpow10 k) in *; clearbody x
    end;
  lra.

(** A positive rational close enough to the double [M * 2 ^ (E - 52)]
    rounds to it: closer than half a unit in the last place, and than a
    quarter from below when the double is a power of two. *)
Lemma fl_pos_near (M E : Z) (v : Q) :
  2 ^ 52 <= M < 2 ^ 53 ->
  (inject_Z M * Qpow2 (E - 52) - (1 # 2) * Qpow2 (E - 52) < v)%Q ->
  (v < inject_Z M * Qpow2 (E - 52) + (1 # 2) * Qpow2 (E - 52))%Q ->
  (M = 2 ^ 52 -> (inject_Z M * Qpow2 (E - 52) - (1 # 4) * Qpow2 (E - 52) < v)%Q) ->
  (fl_pos v == inject_Z M * Qpow2 (E - 52))%Q.
Proof.
  intros [M1 M2] H1 H2 H3.
  pose proof (Qpow2_pos (E - 52)) as Pu.
  pose proof (Qpow2_pos (52 - E)) as Pw.
  assert (UW : (Qpow2 (E - 52) * Qpow2 (52 - E) == 1)%Q).
  { rewrite <- Qpow2_add. replace (E - 52 + (52 - E)) with 0 by lia. reflexivity. }
  assert (PE : (Qpow2 E == inject_Z (2 ^ 52) * Qpow2 (E - 52))%Q).
  { rewrite <- (Qpow2_nonneg 52) by lia. rewrite <- Qpow2_add.
    replace (52 + (E - 52)) with E by lia. reflexivity. }
  assert (I1 : (inject_Z (2 ^ 52) <= inject_Z M)%Q) by now apply inject_Z_le.
  assert (I2 : (inject_Z M <= inject_Z (2 ^ 53 - 1))%Q) by (apply inject_Z_le; lia).
  change (inject_Z (2 ^ 52)) with 4503599627370496%Q in *.
  change (inject_Z (2 ^ 53 - 1)) with 9007199254740991%Q in *.
  set (u := Qpow2 (E - 52)) in *. set (w := Qpow2 (52 - E)) in *.
  set (m := inject_Z M) in *.
  unfold fl_pos. rewrite Qred_correct.
  destruct (Qlt_le_dec v (Qpow2 E)) as [C | C].
  - (* below the binade: the double is a power of two *)
    assert (HM : M = 2 ^ 52).
    { assert (L : (m - (1 # 2) < 4503599627370496)%Q).
      { apply (scale_lt u); [exact Pu|]. qlra. }
      assert (L' : (inject_Z M < inject_Z (2 ^ 52 + 1))%Q).
      { change (inject_Z (2 ^ 52 + 1)) with 4503599627370497%Q. fold m. qlra. }
      rewrite <- Zlt_Qlt in L'. lia. }
    specialize (H3 HM).
    assert (Hm : (m == 4503599627370496)%Q) by (unfold m; rewrite HM; reflexivity).
    rewrite Hm in H1, H2, H3. rewrite Hm.
    assert (L : Qlog2 v = E - 1).
    { apply Qlog2_unique. replace (E - 1 + 1) with E by lia.
      pose proof (Qpow2_pred E). split; qlra. }
    rewrite L.
    assert (W2 : (Qpow2 (52 - (E - 1)) == 2 * w)%Q).
    { unfold w. rewrite <- Qpow2_succ. now replace (52 - (E - 1)) with (52 - E + 1) by lia. }
    assert (U2 : (2 * Qpow2 (E - 1 - 52) == u)%Q).
    { unfold u. rewrite <- (Qpow2_pred (E - 52)).
      now replace (E - 52 - 1) with (E - 1 - 52) by lia. }
    assert (R : round_half_even (v * Qpow2 (52 - (E - 1))) = 2 ^ 53).
    { apply round_half_even_near.
      change (inject_Z (2 ^ 53)) with 9007199254740992%Q.
      rewrite W2.
      assert (X1 : ((4503599627370496 - (1 # 4)) * (u * w) < v * w)%Q).
      { rewrite Qmult_assoc. apply Qmult_lt_compat_r; [exact Pw|]. qlra. }
      assert (X2 : (v * w < 4503599627370496 * (u * w))%Q).
      { rewrite Qmult_assoc. apply Qmult_lt_compat_r; [exact Pw|]. qlra. }
      rewrite UW in X1, X2. split; qlra. }
    rewrite R. change (inject_Z (2 ^ 53)) with 9007199254740992%Q. qlra.
  - (* inside the binade *)
    assert (L : Qlog2 v = E).
    { apply Qlog2_unique. split; [exact C|]. rewrite Qpow2_succ.
      assert (m * u <= 9007199254740991 * u)%Q
        by (apply Qmult_le_compat_r; qlra).
      qlra. }
    rewrite L. fold w. fold u.
    assert (R : round_half_even (v * w) = M).
    { apply round_half_even_near. fold m.
      assert (X1 : ((m - (1 # 2)) * (u * w) < v * w)%Q).
      { rewrite Qmult_assoc. apply Qmult_lt_compat_r; [exact Pw|]. qlra. }
      assert (X2 : (v * w < (m + (1 # 2)) * (u * w))%Q).
      { rewrite Qmult_assoc. apply Qmult_lt_compat_r; [exact Pw|]. qlra. }
      rewrite UW in X1, X2. split; qlra. }
    rewrite R. reflexivity.
Qed.

(** The significand and the exponent of a positive double. *)
Lemma fl_pos_normal (a : Q) :
  (0 < a)%Q ->
  exists M E,
    2 ^ 52 <= M <= 2 ^ 53
    /\ (fl_pos a == inject_Z M * Qpow2 (E - 52))%Q
    /\ (Qpow2 E <= a < Qpow2 (E + 1))%Q.
Proof.
  intro Ha.
  destruct (Qlog2_spec a Ha) as [L1 L2].
  exists (round_half_even (a * Qpow2 (52 - Qlog2 a))), (Qlog2 a).
  split; [|split; [unfold fl_pos; now rewrite Qred_correct | now split]].
  set (E := Qlog2 a) in *.
  pose proof (round_half_even_bounds (a * Qpow2 (52 - E))) as [B1 B2].
  pose proof (Qpow2_pos (52 - E)) as Pw.
  assert (S1 : (Qpow2 E * Qpow2 (52 - E) == inject_Z (2 ^ 52))%Q).
  { rewrite <- Qpow2_add, <- (Qpow2_nonneg 52) by lia.
    now replace (E + (52 - E)) with 52 by lia. }
  assert (S2 : (Qpow2 (E + 1) * Qpow2 (52 - E) == inject_Z (2 ^ 53))%Q).
  { rewrite <- Qpow2_add, <- (Qpow2_nonneg 53) by lia.
    now replace (E + 1 + (52 - E)) with 53 by lia. }
  assert (X1 : (Qpow2 E * Qpow2 (52 - E) <= a * Qpow2 (52 - E))%Q)
    by (apply Qmult_le_compat_r; qlra).
  assert (X2 : (a * Qpow2 (52 - E) < Qpow2 (E + 1) * Qpow2 (52 - E))%Q)
    by (apply Qmult_lt_compat_r; qlra).
  rewrite S1 in X1. rewrite S2 in X2.
  change (inject_Z (2 ^ 52)) with 4503599627370496%Q in X1.
  change (inject_Z (2 ^ 53)) with 9007199254740992%Q in X2.
  set (r := round_half_even (a * Qpow2 (52 - E))) in *.
  assert (Y1 : (inject_Z (2 ^ 52 - 1) < inject_Z r)%Q).
  { change (inject_Z (2 ^ 52 - 1)) with 4503599627370495%Q. qlra. }
  assert (Y2 : (inject_Z r < inject_Z (2 ^ 53 + 1))%Q).
  { change (inject_Z (2 ^ 53 + 1)) with 9007199254740993%Q. qlra. }
  rewrite <- Zlt_Qlt in Y1, Y2. lia.
Qed.

(** A double in normal form is left as it is by the rounding. *)
Lemma fl_pos_exact (M E : Z) (v : Q) :
  2 ^ 52 <= M < 2 ^ 53 ->
  (v == inject_Z M * Qpow2 (E - 52))%Q ->
  (fl_pos v == v)%Q.
Proof.
  intros HM Hv. rewrite Hv at 2.
  pose proof (Qpow2_pos (E - 52)) as Pu.
  apply fl_pos_near; try assumption; try intro; rewrite Hv; qlra.
Qed.

(** The rounding of a positive rational is a positive double in normal
    form. *)
Lemma fl_pos_double (a : Q) :
  (0 < a)%Q ->
  exists M E,
    2 ^ 52 <= M < 2 ^ 53 /\ (fl_pos a == inject_Z M * Qpow2 (E - 52))%Q.
Proof.
  intro Ha. destruct (fl_pos_normal a Ha) as (M & E & HM & Hf & _).
  destruct (Z.eq_dec M (2 ^ 53)) as [-> | Hne].
  - exists (2 ^ 52), (E + 1). split; [lia|].
    rewrite Hf. replace (E + 1 - 52) with (E - 52 + 1) by lia.
    rewrite Qpow2_succ.
    change (inject_Z (2 ^ 53)) with 9007199254740992%Q.
    change (inject_Z (2 ^ 52)) with 4503599627370496%Q. ring.
  - exists M, E. split; [lia | exact Hf].
Qed.

Lemma normal_pos (M E : Z) :
  2 ^ 52 <= M -> (0 < inject_Z M * Qpow2 (E - 52))%Q.
Proof.
  intro H. pose proof (Qpow2_pos (E - 52)) as Pu.
  assert (I1 : (inject_Z (2 ^ 52) <= inject_Z M)%Q) by now apply inject_Z_le.
  change (inject_Z (2 ^ 52)) with 4503599627370496%Q in I1.
  apply Qmult_lt_0_compat; [lra | exact Pu].
Qed.

(** The normal form of a positive double. *)
Lemma double_normal (a : Q) :
  is_double a -> (0 < a)%Q ->
  exists M E,
    2 ^ 52 <= M < 2 ^ 53 /\ (a == inject_Z M * Qpow2 (E - 52))%Q.
Proof.
  intros Hd Ha. unfold is_double in Hd. rewrite (fl_of_pos a Ha) in Hd.
  assert (Hr : (0 < Qred a)%Q) by now rewrite Qred_correct.
  destruct (fl_pos_double (Qred a) Hr) as (M & E & HM & Hf).
  exists M, E. split; [exact HM|]. now rewrite <- Hd.
Qed.

Lemma normal_is_double (M E : Z) :
  2 ^ 52 <= M < 2 ^ 53 -> is_double (inject_Z M * Qpow2 (E - 52)).
Proof.
  intro HM. unfold is_double.
  rewrite (fl_of_pos _ (normal_pos M E (proj1 HM))).
  rewrite (fl_pos_exact M E); [apply Qred_correct | exact HM | apply Qred_correct].
Qed.

#[global] Instance is_double_comp : Proper (Qeq ==> iff) is_double.
Proof.
  intros x y H. unfold is_double. now rewrite (fl_comp x y H), H.
Qed.

Lemma is_double_opp (q : Q) : is_double q -> is_double (- q).
Proof.
  unfold is_double. intro H.
  destruct (Q_dec q 0) as [[Hn | Hp] | Hz].
  - assert (Hp : (0 < - q)%Q) by lra.
    rewrite (fl_of_pos _ Hp), Qred_opp.
    rewrite (fl_of_neg _ Hn) in H. lra.
  - assert (Hn : (- q < 0)%Q) by lra.
    rewrite (fl_of_neg _ Hn), Qred_opp.
    rewrite (fl_of_pos _ Hp) in H.
    assert (E : (- - Qred q == Qred q)%Q) by ring.
    assert (Hr : (0 < Qred q)%Q) by now rewrite Qred_correct.
    destruct (fl_pos_double (Qred q) Hr) as (M & E' & HM & Hf).
    rewrite (fl_pos_exact M E' (- - Qred q) HM).
    + rewrite E, Qred_correct. reflexivity.
    + rewrite E, <- Hf, H. apply Qred_correct.
  - rewrite (fl_of_zero (- q)) by lra. lra.
Qed.

Lemma is_double_abs (q : Q) : is_double q -> is_double (Qabs q).
Proof.
  intro H. destruct (Qlt_le_dec q 0) as [Hn | Hp].
  - rewrite (Qabs_neg q) by lra. now apply is_double_opp.
  - now rewrite (Qabs_pos q Hp).
Qed.

(** The rounding is idempotent: what [fl] returns is a double. *)
Lemma fl_is_double (x : Q) : is_double (fl x).
Proof.
  destruct (Q_dec x 0) as [[Hn | Hp] | Hz].
  - rewrite (fl_of_neg x Hn). apply is_double_opp.
    assert (Hr : (0 < - Qred x)%Q) by (rewrite Qred_correct; lra).
    destruct (fl_pos_double _ Hr) as (M & E & HM & Hf).
    rewrite Hf. now apply normal_is_double.
  - rewrite (fl_of_pos x Hp).
    assert (Hr : (0 < Qred x)%Q) by now rewrite Qred_correct.
    destruct (fl_pos_double _ Hr) as (M & E & HM & Hf).
    rewrite Hf. now apply normal_is_double.
  - rewrite (fl_of_zero x Hz). reflexivity.
Qed.

(** *** The decimal exponent *)

Lemma Qpow10_pos (k : Z) : (0 < Qpow10 k)%Q.
Proof. unfold Qpow10. apply Qpower_0_lt. reflexivity. Qed.

Lemma Qpow10_le (a b : Z) : a <= b -> (Qpow10 a <= Qpow10 b)%Q.
Proof.
  intro H. unfold Qpow10. apply Qpower_le_compat_l; [exact H | discriminate].
Qed.

Lemma Qpow10_le_Qpow2 (k : Z) : k <= 0 -> (Qpow10 k <= Qpow2 k)%Q.
Proof.
  intro H.
  pose proof (Qpow10_cancel k) as C10. pose proof (Qpow2_cancel k) as C2.
  pose proof (Qpow10_pos k) as P10. pose proof (Qpow2_pos (- k)) as P2.
  assert (L : (Qpow2 (- k) <= Qpow10 (- k))%Q).
  { rewrite Qpow2_nonneg, Qpow10_nonneg by lia.
    apply inject_Z_le. apply Z.pow_le_mono_l. lia. }
  apply (scale_le (Qpow2 (- k))); [exact P2|].
  assert (X : (Qpow10 k * Qpow2 (- k) <= Qpow10 k * Qpow10 (- k))%Q)
    by (apply Qmult_le_l; assumption).
  qlra.
Qed.

Lemma dec_exponent_down_spec (fuel : nat) :
  forall (a : Q) (n : Z),
    (Qpow10 (dec_exponent_down fuel a n - 1) <= a)%Q
    \/ dec_exponent_down fuel a n = n - Z.of_nat fuel.
Proof.
  induction fuel as [|fuel IH]; intros a n; cbn [dec_exponent_down].
  - right. simpl. lia.
  - destruct (Qgtb (Qpow10 (n - 1)) a) eqn:G.
    + destruct (IH a (n - 1)) as [L | R]; [now left | right].
      rewrite R. lia.
    + left. now apply Qgtb_le.
Qed.

(** The decimal exponent is not too large: [10 ^ (n - 1) <= a]. *)
Lemma dec_exponent_lower (a : Q) :
  (0 < a)%Q -> (Qpow10 (dec_exponent a - 1) <= a)%Q.
Proof.
  intro Ha. unfold dec_exponent.
  set (e := Qlog2 a).
  set (n1 := dec_exponent_up 4 a (e * 30103 / 100000)).
  destruct (dec_exponent_down_spec (Z.to_nat (n1 - Z.min 0 e)) a n1) as [L | R];
    [exact L|].
  rewrite R.
  set (k := n1 - Z.of_nat (Z.to_nat (n1 - Z.min 0 e))).
  assert (Hk : k <= 0 /\ k <= e) by (unfold k; lia).
  destruct (Qlog2_spec a Ha) as [L1 _]. fold e in L1.
  pose proof (Qpow10_le (k - 1) k ltac:(lia)).
  pose proof (Qpow10_le_Qpow2 k (proj1 Hk)).
  pose proof (Qpow2_le k e (proj2 Hk)).
  qlra.
Qed.

(** *** Seventeen digits are enough *)

(** A positive decimal close enough to a positive double qualifies. *)
Lemma candidate_near (M E c e : Z) (a : Q) :
  2 ^ 52 <= M < 2 ^ 53 ->
  (a == inject_Z M * Qpow2 (E - 52))%Q ->
  0 < c ->
  (a - (1 # 2) * Qpow2 (E - 52) < inject_Z c * Qpow10 e)%Q ->
  (inject_Z c * Qpow10 e < a + (1 # 2) * Qpow2 (E - 52))%Q ->
  (M = 2 ^ 52 -> (a - (1 # 4) * Qpow2 (E - 52) < inject_Z c * Qpow10 e)%Q) ->
  candidate c e a = true.
Proof.
  intros HM Ha Hc H1 H2 H3. unfold candidate.
  apply andb_true_iff. split; [now apply Z.ltb_lt|].
  apply Qeq_bool_iff.
  assert (Hv : (0 < inject_Z c * Qpow10 e)%Q).
  { apply Qmult_lt_0_compat; [|apply Qpow10_pos].
    change 0%Q with (inject_Z 0). now apply inject_Z_lt. }
  rewrite (fl_of_pos _ Hv), Ha.
  apply fl_pos_near; try assumption; try intro;
    rewrite Qred_correct, <- Ha; auto.
Qed.

Lemma seventeen_digits (a : Q) (n : Z) :
  is_double a -> (0 < a)%Q -> (Qpow10 (n - 1) <= a)%Q ->
  candidate (Qfloor (a * Qpow10 (17 - n))) (n - 17) a
  || candidate (Qceiling (a * Qpow10 (17 - n))) (n - 17) a = true.
Proof.
  intros Hd Ha Hn.
  destruct (double_normal a Hd Ha) as (M & E & HM & Hm).
  pose proof (Qpow2_pos (E - 52)) as Pu.
  pose proof (Qpow10_pos (n - 17)) as Pp.
  pose proof (Qpow10_pos (17 - n)) as PP.
  assert (C1 : (Qpow10 (n - 17) * Qpow10 (17 - n) == 1)%Q).
  { rewrite <- Qpow10_add. now replace (n - 17 + (17 - n)) with 0 by lia. }
  assert (C2 : (Qpow10 (n - 1) == Qpow10 (n - 17) * 10000000000000000)%Q).
  { change 10000000000000000%Q with (Qpow10 16). rewrite <- Qpow10_add.
    now replace (n - 17 + 16) with (n - 1) by lia. }
  assert (I1 : (inject_Z (2 ^ 52) <= inject_Z M)%Q) by (apply inject_Z_le; lia).
  assert (I2 : (inject_Z M <= inject_Z (2 ^ 53 - 1))%Q) by (apply inject_Z_le; lia).
  change (inject_Z (2 ^ 52)) with 4503599627370496%Q in I1.
  change (inject_Z (2 ^ 53 - 1)) with 9007199254740991%Q in I2.
  assert (MU : (inject_Z M * Qpow2 (E - 52) <= 9007199254740991 * Qpow2 (E - 52))%Q)
    by (apply Qmult_le_compat_r; [exact I2 | now apply Qlt_le_weak]).
  set (u := Qpow2 (E - 52)) in *. set (p := Qpow10 (n - 17)) in *.
  set (P := Qpow10 (17 - n)) in *. set (m := inject_Z M) in *.
  set (s := (a * P)%Q).
  assert (As : (a == s * p)%Q).
  { unfold s. rewrite <- Qmult_assoc, (Qmult_comm P p), C1. ring. }
  assert (S16 : (10000000000000000 <= s)%Q).
  { apply (scale_le p); [exact Pp|]. rewrite <- As.
    rewrite (Qmult_comm _ p), <- C2. exact Hn. }
  pose proof (Qfloor_le s) as F1. pose proof (Qlt_floor s) as F2.
  pose proof (Qle_ceiling s) as G1. pose proof (Qceiling_lt s) as G2.
  rewrite inject_Z_plus in F2. change (inject_Z 1) with 1%Q in F2.
  unfold Z.sub in G2. rewrite inject_Z_plus in G2.
  change (inject_Z (- (1))) with (- (1))%Q in G2.
  assert (Llo : 10 ^ 16 <= Qfloor s).
  { rewrite <- (Qfloor_Z (10 ^ 16)). apply Qfloor_resp_le. exact S16. }
  pose proof (Qle_floor_ceiling s) as FC.
  set (lo := Qfloor s) in *. set (hi := Qceiling s) in *.
  assert (Pm : (p * 10000000000000000 <= m * u)%Q) by (rewrite <- C2, <- Hm; exact Hn).
  destruct (Qlt_le_dec (1 # 2) (s - inject_Z lo)) as [Far | Near].
  - (* the decimal above is the closer one *)
    assert (Hhi : hi = lo + 1).
    { assert (inject_Z hi < inject_Z (lo + 2))%Q
        by (rewrite inject_Z_plus; change (inject_Z 2) with 2%Q; lra).
      assert (inject_Z lo < inject_Z hi)%Q by lra.
      rewrite <- Zlt_Qlt in *. lia. }
    assert (Ih : (inject_Z hi == inject_Z lo + 1)%Q)
      by (rewrite Hhi, inject_Z_plus; reflexivity).
    assert (X0 : (0 <= (inject_Z hi - s) * p)%Q)
      by (apply Qmult_le_0_compat; lra).
    assert (X1 : ((inject_Z hi - s) * p <= (1 # 2) * p)%Q)
      by (apply Qmult_le_compat_r; lra).
    apply orb_true_iff. right.
    apply (candidate_near M E hi (n - 17) a HM Hm ltac:(lia));
      fold p u; try intro HM2;
      try (assert (Hm2 : (m == 4503599627370496)%Q)
             by (unfold m; rewrite HM2; reflexivity);
           rewrite Hm2 in Pm);
      qlra.
  - (* the decimal below is close enough *)
    assert (X0 : (0 <= (s - inject_Z lo) * p)%Q)
      by (apply Qmult_le_0_compat; lra).
    assert (X1 : ((s - inject_Z lo) * p <= (1 # 2) * p)%Q)
      by (apply Qmult_le_compat_r; lra).
    apply orb_true_iff. left.
    apply (candidate_near M E lo (n - 17) a HM Hm ltac:(lia));
      fold p u; try intro HM2;
      try (assert (Hm2 : (m == 4503599627370496)%Q)
             by (unfold m; rewrite HM2; reflexivity);
           rewrite Hm2 in Pm);
      qlra.
Qed.

(** Every double has a text. *)
Lemma double_has_repr (q : Q) : is_double q -> has_repr q = true.
Proof.
  intro Hd. unfold has_repr.
  destruct (Qeq_bool q 0) eqn:Z0; [reflexivity|]. cbn [orb].
  assert (Hz : ~ (q == 0)%Q) by (intro H; apply Qeq_bool_iff in H; congruence).
  assert (Ha : (0 < Qabs q)%Q).
  { pose proof (Qabs_nonneg q). destruct (Qeq_dec (Qabs q) 0) as [E | N]; [|lra].
    destruct (Qlt_le_dec q 0) as [Hn | Hp].
    - rewrite (Qabs_neg q) in E by lra. lra.
    - rewrite (Qabs_pos q Hp) in E. contradiction. }
  pose proof (is_double_abs q Hd) as Hda.
  unfold repr_pos.
  pose proof (dec_exponent_lower (Qabs q) Ha) as Hn.
  pose proof (seventeen_digits (Qabs q) (dec_exponent (Qabs q)) Hda Ha Hn) as S17.
  pose proof (shortest_digits_found 17 1 (dec_exponent (Qabs q)) (Qabs q) 17
                ltac:(lia) S17) as Found.
  destruct (shortest_digits 17 1 (dec_exponent (Qabs q)) (Qabs q)) as [[d e]|];
    [|congruence].
  destruct (strip_zeros 17 d e). reflexivity.
Qed.

(** ** The round trip of a snapshot *)

Lemma doubles_have_repr (l : list Q) :
  Forall is_double l -> forallb has_repr l = true.
Proof.
  induction 1 as [|q l Hq _ IH]; simpl; [reflexivity|].
  now rewrite (double_has_repr q Hq), IH.
Qed.

(** The floats of a snapshot built by a sampling are doubles as soon as the
    two percentages psutil reports are: every other float comes out of
    [round]. *)
Lemma sampled_floats_are_doubles (r : Readings) (stats : Stats) :
  collect r = Ret stats ->
  is_double (cpu_percent r) -> is_double (memory_percent r) ->
  Forall is_double (stats_floats stats).
Proof.
  unfold collect.
  destruct (py_truediv (disk_used r) (disk_total r)) as [ratio|]; [|discriminate].
  intros H Hc Hm. inversion H; subst stats; clear H.
  unfold stats_floats; cbn -[fl is_double].
  destruct (getloadavg r) as [l|]; cbn -[fl is_double];
    repeat (constructor; try assumption; try apply fl_is_double).
Qed.

(** What a document equivalent to a given one is made of. *)
Lemma json_equiv_cons (d : json) (k : string) (v : json) (ns : list (string * json)) :
  json_equiv d (JObject ((k, v) :: ns)) ->
  exists v' ms, d = JObject ((k, v') :: ms) /\ json_equiv v' v
                /\ json_equiv (JObject ms) (JObject ns).
Proof.
  destruct d as [| | | |[|[k' v'] ms]]; try contradiction.
  intros (-> & Hv & Hm). now exists v', ms.
Qed.

Lemma json_equiv_nil (d : json) : json_equiv d (JObject []) -> d = JObject [].
Proof.
  destruct d as [| | | |[|[k' v'] ms]]; try contradiction. reflexivity.
Qed.

Lemma json_equiv_float (d : json) (q : Q) :
  json_equiv d (JFloat q) -> exists q', d = JFloat q' /\ (q' == q)%Q.
Proof. destruct d; try contradiction. intro H. now exists q0. Qed.

Lemma json_equiv_int (d : json) (z : Z) : json_equiv d (JInt z) -> d = JInt z.
Proof. destruct d; try contradiction. now intros ->. Qed.

Lemma json_equiv_string (d : json) (s : string) :
  json_equiv d (JString s) -> d = JString s.
Proof. destruct d; try contradiction. now intros ->. Qed.

Lemma json_equiv_null (d : json) : json_equiv d JNull -> d = JNull.
Proof. destruct d; try contradiction. reflexivity. Qed.

Ltac open_equiv :=
  repeat match goal with
         | H : json_equiv _ (JObject (_ :: _)) |- _ =>
             apply json_equiv_cons in H; destruct H as (? & ? & ? & ? & H)
         | H : json_equiv _ (JObject []) |- _ => apply json_equiv_nil in H
         | H : json_equiv _ (JFloat _) |- _ =>
             apply json_equiv_float in H; destruct H as (? & ? & ?)
         | H : json_equiv _ (JInt _) |- _ => apply json_equiv_int in H
         | H : json_equiv _ (JString _) |- _ => apply json_equiv_string in H
         | H : json_equiv _ JNull |- _ => apply json_equiv_null in H
         | H : JObject _ = JObject _ |- _ => injection H as H
         | H : json_equiv _ (json_of_option_int ?o) |- _ =>
             destruct o; cbn [json_of_option_int] in H
         | H : json_equiv _ (json_of_number ?o) |- _ =>
             destruct o; cbn [json_of_number] in H
         end; subst.

(** A document equivalent to the dictionary of a snapshot holds, at the
    path of every field, a value of the field's type that equals the field;
    and it has the keys of the dictionary, in their order. *)
Lemma equiv_document_holds_the_snapshot (doc : json) (stats : Stats) :
  json_equiv doc (stats_document stats) ->
  (exists stats',
      stats_of_document doc = Some stats' /\ stats_equiv stats' stats)
  /\ json_keys (Some doc)
     = Some ["timestamp"; "cpu"; "memory"; "disk"; "network"; "system"]
  /\ json_keys (json_path doc ["cpu"])
     = Some ["percent"; "count_logical"; "count_physical"; "load_avg"]
  /\ json_keys (json_path doc ["memory"])
     = Some ["percent"; "total_gb"; "used_gb"; "available_gb"]
  /\ json_keys (json_path doc ["disk"])
     = Some ["percent"; "total_gb"; "used_gb"; "free_gb"]
  /\ json_keys (json_path doc ["network"])
     = Some ["bytes_sent"; "bytes_recv"; "packets_sent"; "packets_recv"]
  /\ json_keys (json_path doc ["system"])
     = Some ["uptime_days"; "uptime_hours"; "process_count"; "boot_time"].
Proof.
  destruct stats as [ts [cp cl cph la] [mp mt mu ma] [dp dt du df]
                       [bs br ps pr] [ud uh pc bt]].
  unfold stats_document; cbn [timestamp cpu memory disk network system
    Cpu.percent Cpu.count_logical Cpu.count_physical Cpu.load_avg
    Memory.percent Memory.total_gb Memory.used_gb Memory.available_gb
    Disk.percent Disk.total_gb Disk.used_gb Disk.free_gb
    Network.bytes_sent Network.bytes_recv Network.packets_sent Network.packets_recv
    System.uptime_days System.uptime_hours System.process_count System.boot_time].
  intro H. open_equiv.
  all: (split; [|repeat split]).
  all: eexists; (split; [reflexivity|]).
  all: unfold stats_equiv; cbn; repeat split; assumption.
Qed.

(** C8.  The text [save_stats_json] writes for a snapshot is read back as a
    document that holds the snapshot: every field of the snapshot is found
    at its path with its type, the strings, the integers and the [None]s
    unchanged and the floats of the same value; the dictionaries have the
    same keys in the same order.  The float fields of a snapshot hold
    doubles. *)
Theorem snapshot_is_read_back (stats : Stats) (now : datetime)
    (filename : option string) (self : SystemMonitor) :
  Forall is_double (stats_floats stats) ->
  exists name text doc stats',
    trace_of (save_stats_json now None stats filename self)
    = [FileWrite name text; Log INFO ("Statistics saved to " ++ name)]
    /\ json_loads text = Some doc
    /\ stats_of_document doc = Some stats'
    /\ stats_equiv stats' stats
    /\ json_keys (Some doc)
       = Some ["timestamp"; "cpu"; "memory"; "disk"; "network"; "system"]
    /\ json_keys (json_path doc ["cpu"])
       = Some ["percent"; "count_logical"; "count_physical"; "load_avg"]
    /\ json_keys (json_path doc ["memory"])
       = Some ["percent"; "total_gb"; "used_gb"; "available_gb"]
    /\ json_keys (json_path doc ["disk"])
       = Some ["percent"; "total_gb"; "used_gb"; "free_gb"]
    /\ json_keys (json_path doc ["network"])
       = Some ["bytes_sent"; "bytes_recv"; "packets_sent"; "packets_recv"]
    /\ json_keys (json_path doc ["system"])
       = Some ["uptime_days"; "uptime_hours"; "process_count"; "boot_time"].
Proof.
  intro H.
  destruct (save_stats_json_writes now stats filename self) as (name & E).
  destruct (json_loads_dumps (stats_document stats)) as (doc & L & Eq).
  { apply stats_document_wf. now apply doubles_have_repr. }
  destruct (equiv_document_holds_the_snapshot doc stats Eq)
    as ((stats' & R & Es) & K).
  exists name, (json_dumps (stats_document stats)), doc, stats'.
  rewrite E. split; [reflexivity|].
  split; [exact L|]. split; [exact R|]. split; [exact Es|]. exact K.
Qed.

Lemma snapshot_is_read_back_witness :
  exists name text doc stats',
    trace_of (save_stats_json (mkDatetime 2024 3 1 5 30 1 0) None sample_snapshot
                (Some "stats.json") (sample_monitor true))
    = [FileWrite name text; Log INFO ("Statistics saved to " ++ name)]
    /\ json_loads text = Some doc
    /\ stats_of_document doc = Some stats'
    /\ stats_equiv stats' sample_snapshot
    /\ json_keys (Some doc)
       = Some ["timestamp"; "cpu"; "memory"; "disk"; "network"; "system"]
    /\ json_keys (json_path doc ["cpu"])
       = Some ["percent"; "count_logical"; "count_physical"; "load_avg"]
    /\ json_keys (json_path doc ["memory"])
       = Some ["percent"; "total_gb"; "used_gb"; "available_gb"]
    /\ json_keys (json_path doc ["disk"])
       = Some ["percent"; "total_gb"; "used_gb"; "free_gb"]
    /\ json_keys (json_path doc ["network"])
       = Some ["bytes_sent"; "bytes_recv"; "packets_sent"; "packets_recv"]
    /\ json_keys (json_path doc ["system"])
       = Some ["uptime_days"; "uptime_hours"; "process_count"; "boot_time"].
Proof.
  apply (snapshot_is_read_back sample_snapshot (mkDatetime 2024 3 1 5 30 1 0)
           (Some "stats.json") (sample_monitor true)).
  repeat (constructor; [vm_compute; reflexivity|]). constructor.
Defined.

(** The same for every snapshot a sampling returns. *)
Corollary sampled_snapshot_round_trip (r : Readings) (self : SystemMonitor)
    (stats : Stats) :
  result_of (get_system_stats (ProbeReads r) self) = Ret (Some stats) ->
  is_double (cpu_percent r) -> is_double (memory_percent r) ->
  exists doc stats',
    json_loads (json_dumps (stats_document stats)) = Some doc
    /\ json_equiv doc (stats_document stats)
    /\ stats_of_document doc = Some stats'
    /\ stats_equiv stats' stats.
Proof.
  intros H Hc Hm. apply get_system_stats_Some in H.
  destruct (json_loads_dumps (stats_document stats)) as (doc & L & Eq).
  { apply stats_document_wf, doubles_have_repr.
    now apply (sampled_floats_are_doubles r). }
  destruct (equiv_document_holds_the_snapshot doc stats Eq)
    as ((stats' & R & Es) & _).
  now exists doc, stats'.
Qed.

(** The snapshot read off the text written for the sample snapshot: the
    figures of the sampling. *)
Example sample_snapshot_read_back :
  and_then (json_loads (json_dumps (stats_document sample_snapshot)))
    stats_of_document
  = Some sample_snapshot.
Proof. vm_compute. reflexivity. Qed.

(** The text written for the sample snapshot, and its reading. *)
Example sample_snapshot_text :
  json_loads (json_dumps (stats_document sample_snapshot))
  = Some (stats_document sample_snapshot).
Proof. vm_compute. reflexivity. Qed.

(** ** The number of alerts *)


(** ** The sampling *)

(** The only failure of the computation itself: a disk of size zero. *)
Lemma collect_raises (r : Readings) (e : exn) :
  collect r = Raise e <-> disk_total r = 0 /\ e = ZeroDivisionError "division by zero".
Proof.
  unfold collect, py_truediv.
  destruct (disk_total r =? 0) eqn:E.
  - apply Z.eqb_eq in E. split.
    + intro H. inversion H. auto.
    + intros [_ ->]. reflexivity.
  - apply Z.eqb_neq in E. split; [discriminate|]. intros [H _]. contradiction.
Qed.

Lemma get_system_stats_cases (p : Probe) (self : SystemMonitor) :
  get_system_stats p self =
    match probe_outcome p with
    | Ret stats => (Ret (Some stats), self, [])
    | Raise e =>
        if is_Exception e
        then (Ret None, self,
              [Log ERROR ("Error collecting system stats: " ++ exn_str e)])
        else (Raise e, self, [])
    end.
Proof.
  unfold get_system_stats, try_except_Exception, probe_outcome, raise, ret, bind, emit.
  destruct p as [e|r]; simpl.
  - destruct (is_Exception e); reflexivity.
  - destruct (collect r) as [stats|e]; simpl; [reflexivity|].
    destruct (is_Exception e); reflexivity.
Qed.

(** X2.  With psutil answering and byte counts below [2 ** 64], the
    sampling fails exactly when the total size of the disk is zero: the
    division raises inside the [try] block, [logger.error] is called with
    the message of the [ZeroDivisionError] and the empty dictionary is
    returned.  Otherwise the snapshot is returned and the logger is not
    called. *)
Theorem zero_disk_total_fails_the_sampling (r : Readings) (self : SystemMonitor) :
  plausible_sizes r = true ->
  (disk_total r = 0 ->
   get_system_stats (ProbeReads r) self
   = (Ret None, self,
      [Log ERROR "Error collecting system stats: division by zero"]))
  /\ (disk_total r <> 0 ->
      exists stats,
        collect r = Ret stats
        /\ get_system_stats (ProbeReads r) self = (Ret (Some stats), self, [])).
Proof.
  intros _.
  rewrite get_system_stats_cases. unfold probe_outcome.
  split; intro H.
  - assert (C : collect r = Raise (ZeroDivisionError "division by zero"))
      by (apply collect_raises; auto).
    rewrite C. reflexivity.
  - destruct (collect r) as [stats|e] eqn:C.
    + now exists stats.
    + apply collect_raises in C. destruct C as [C _]. contradiction.
Qed.

Lemma zero_disk_total_fails_the_sampling_witness :
  get_system_stats (ProbeReads zero_disk_readings) (sample_monitor true)
  = (Ret None, sample_monitor true,
     [Log ERROR "Error collecting system stats: division by zero"])
  /\ exists stats,
       collect sample_readings = Ret stats
       /\ get_system_stats (ProbeReads sample_readings) (sample_monitor true)
          = (Ret (Some stats), sample_monitor true, []).
Proof.
  split.
  - apply (zero_disk_total_fails_the_sampling zero_disk_readings (sample_monitor true));
      reflexivity.
  - apply (zero_disk_total_fails_the_sampling sample_readings (sample_monitor true));
      [reflexivity | discriminate].
Defined.

(** ** The order of the computed figures *)

Lemma round_half_even_mono (x y : Q) :
  (x <= y)%Q -> round_half_even x <= round_half_even y.
Proof.
  intro H.
  destruct (Qlt_le_dec x y) as [L | G].
  - pose proof (round_half_even_bounds x) as [_ Bx].
    pose proof (round_half_even_bounds y) as [By _].
    assert (I : (inject_Z (round_half_even x) < inject_Z (round_half_even y + 1))%Q)
      by (rewrite inject_Z_plus; change (inject_Z 1) with 1%Q; lra).
    rewrite <- Zlt_Qlt in I. lia.
  - assert (E : (x == y)%Q) by lra.
    rewrite (round_half_even_comp _ _ E). lia.
Qed.

Lemma Qlog2_mono (a b : Q) : (0 < a)%Q -> (a <= b)%Q -> Qlog2 a <= Qlog2 b.
Proof.
  intros Ha Hab.
  destruct (Qlog2_spec a Ha) as [A1 _].
  destruct (Qlog2_spec b ltac:(lra)) as [_ B2].
  destruct (Z_le_gt_dec (Qlog2 a) (Qlog2 b)) as [L | G]; [exact L|].
  pose proof (Qpow2_le (Qlog2 b + 1) (Qlog2 a) ltac:(lia)). lra.
Qed.

Lemma fl_pos_form (a : Q) :
  (fl_pos a
   == inject_Z (round_half_even (a * Qpow2 (52 - Qlog2 a))) * Qpow2 (Qlog2 a - 52))%Q.
Proof. unfold fl_pos. now rewrite Qred_correct. Qed.

Lemma fl_pos_pos (a : Q) : (0 < a)%Q -> (0 < fl_pos a)%Q.
Proof.
  intro Ha. destruct (fl_pos_normal a Ha) as (M & E & HM & Hf & _).
  rewrite Hf. apply normal_pos. lia.
Qed.

Lemma fl_pos_mono (a b : Q) :
  (0 < a)%Q -> (a <= b)%Q -> (fl_pos a <= fl_pos b)%Q.
Proof.
  intros Ha Hab.
  assert (Hb : (0 < b)%Q) by lra.
  pose proof (Qlog2_mono a b Ha Hab) as L.
  destruct (Z.eq_dec (Qlog2 a) (Qlog2 b)) as [E | N].
  - rewrite !fl_pos_form, E.
    pose proof (Qpow2_pos (Qlog2 b - 52)) as P1.
    pose proof (Qpow2_pos (52 - Qlog2 b)) as P2.
    apply Qmult_le_compat_r; [|lra].
    apply inject_Z_le, round_half_even_mono.
    apply Qmult_le_compat_r; lra.
  - destruct (fl_pos_normal a Ha) as (Ma & Ea & HMa & Hfa & La).
    destruct (fl_pos_normal b Hb) as (Mb & Eb & HMb & Hfb & Lb).
    pose proof (Qlog2_unique a Ea La) as Ua.
    pose proof (Qlog2_unique b Eb Lb) as Ub.
    rewrite Hfa, Hfb.
    assert (I1 : (inject_Z Ma <= inject_Z (2 ^ 53))%Q) by (apply inject_Z_le; lia).
    assert (I2 : (inject_Z (2 ^ 52) <= inject_Z Mb)%Q) by (apply inject_Z_le; lia).
    change (inject_Z (2 ^ 53)) with 9007199254740992%Q in I1.
    change (inject_Z (2 ^ 52)) with 4503599627370496%Q in I2.
    pose proof (Qpow2_pos (Ea - 52)) as Pa.
    pose proof (Qpow2_pos (Eb - 52)) as Pb.
    assert (S : (2 * Qpow2 (Ea - 52) <= Qpow2 (Eb - 52))%Q).
    { rewrite <- Qpow2_succ. apply Qpow2_le. lia. }
    assert (T1 : (inject_Z Ma * Qpow2 (Ea - 52)
                  <= 9007199254740992 * Qpow2 (Ea - 52))%Q)
      by (apply Qmult_le_compat_r; lra).
    assert (T2 : (4503599627370496 * Qpow2 (Eb - 52)
                  <= inject_Z Mb * Qpow2 (Eb - 52))%Q)
      by (apply Qmult_le_compat_r; lra).
    qlra.
Qed.

(** Rounding to a double keeps the order. *)
Lemma fl_mono (x y : Q) : (x <= y)%Q -> (fl x <= fl y)%Q.
Proof.
  intro H.
  pose proof (Qred_correct x) as Rx. pose proof (Qred_correct y) as Ry.
  destruct (Q_dec x 0) as [[Nx | Px] | Zx], (Q_dec y 0) as [[Ny | Py] | Zy];
    try lra.
  - rewrite (fl_of_neg x Nx), (fl_of_neg y Ny).
    apply Qopp_le_compat. apply fl_pos_mono; lra.
  - rewrite (fl_of_neg x Nx), (fl_of_pos y Py).
    pose proof (fl_pos_pos (- Qred x) ltac:(lra)).
    pose proof (fl_pos_pos (Qred y) ltac:(lra)). lra.
  - rewrite (fl_of_neg x Nx), (fl_of_zero y Zy).
    pose proof (fl_pos_pos (- Qred x) ltac:(lra)). lra.
  - rewrite (fl_of_pos x Px), (fl_of_pos y Py). apply fl_pos_mono; lra.
  - rewrite (fl_of_zero x Zx), (fl_of_pos y Py).
    pose proof (fl_pos_pos (Qred y) ltac:(lra)). lra.
  - rewrite (fl_of_zero x Zx), (fl_of_zero y Zy). lra.
Qed.

Lemma round2_mono (x y : Q) : (x <= y)%Q -> (round2 x <= round2 y)%Q.
Proof.
  intro H. unfold round2. apply fl_mono.
  assert (I : (inject_Z (round_half_even (x * 100))
               <= inject_Z (round_half_even (y * 100)))%Q).
  { apply inject_Z_le, round_half_even_mono. lra. }
  unfold Qdiv. apply Qmult_le_compat_r; [exact I | discriminate].
Qed.

Lemma bytes_to_gb_mono (n m : Z) : n <= m -> (bytes_to_gb n <= bytes_to_gb m)%Q.
Proof.
  intro H. unfold bytes_to_gb. apply round2_mono, fl_mono.
  unfold Qdiv. apply Qmult_le_compat_r; [now apply inject_Z_le | discriminate].
Qed.

Lemma bytes_to_gb_0 : (bytes_to_gb 0 == 0)%Q.
Proof. vm_compute. reflexivity. Qed.

Lemma round2_0 : (round2 0 == 0)%Q.
Proof. vm_compute. reflexivity. Qed.

Lemma round2_100 : (round2 100 == 100)%Q.
Proof. vm_compute. reflexivity. Qed.

Lemma fl_1 : (fl 1 == 1)%Q.
Proof. vm_compute. reflexivity. Qed.

Lemma fl_100 : (fl 100 == 100)%Q.
Proof. vm_compute. reflexivity. Qed.

(** The disk percentage of a snapshot, from the readings. *)
Lemma collect_disk (r : Readings) (stats : Stats) :
  collect r = Ret stats ->
  disk_total r <> 0
  /\ Disk.percent (disk stats)
     = round2 (fl (fl (inject_Z (disk_used r) / inject_Z (disk_total r)) * 100))
  /\ Disk.total_gb (disk stats) = bytes_to_gb (disk_total r)
  /\ Disk.used_gb (disk stats) = bytes_to_gb (disk_used r)
  /\ Disk.free_gb (disk stats) = bytes_to_gb (disk_free r)
  /\ Memory.total_gb (memory stats) = bytes_to_gb (memory_total r)
  /\ Memory.used_gb (memory stats) = bytes_to_gb (memory_used r)
  /\ Memory.available_gb (memory stats) = bytes_to_gb (memory_available r).
Proof.
  unfold collect, py_truediv.
  destruct (disk_total r =? 0) eqn:E; [discriminate|].
  apply Z.eqb_neq in E. intro H. inversion H. repeat split. exact E.
Qed.

(** X3.  With a disk whose used size is between zero and its total size,
    the disk percentage of the snapshot is between 0 and 100: the two
    roundings of the division and the rounding to two decimals do not leave
    the range. *)
Theorem disk_percent_range (r : Readings) (stats : Stats) :
  collect r = Ret stats ->
  0 <= disk_used r <= disk_total r ->
  (0 <= Disk.percent (disk stats) <= 100)%Q.
Proof.
  intros C [U1 U2].
  destruct (collect_disk r stats C) as (T & -> & _).
  assert (Tp : (0 < inject_Z (disk_total r))%Q)
    by (change 0%Q with (inject_Z 0); rewrite <- Zlt_Qlt; lia).
  assert (Un : (0 <= inject_Z (disk_used r))%Q)
    by (change 0%Q with (inject_Z 0); rewrite <- Zle_Qle; lia).
  assert (Ut : (inject_Z (disk_used r) <= inject_Z (disk_total r))%Q)
    by (rewrite <- Zle_Qle; lia).
  set (q := (inject_Z (disk_used r) / inject_Z (disk_total r))%Q).
  assert (Q0 : (0 <= q)%Q).
  { unfold q. apply Qle_shift_div_l; [exact Tp | lra]. }
  assert (Q1 : (q <= 1)%Q).
  { unfold q. apply Qle_shift_div_r; [exact Tp | lra]. }
  assert (F0 : (0 <= fl q)%Q).
  { apply Qle_trans with (fl 0); [now rewrite (fl_of_zero 0 (Qeq_refl 0))|].
    now apply fl_mono. }
  assert (F1 : (fl q <= 1)%Q).
  { apply Qle_trans with (fl 1); [now apply fl_mono|]. rewrite fl_1. lra. }
  assert (G0 : (0 <= fl (fl q * 100))%Q).
  { apply Qle_trans with (fl 0); [now rewrite (fl_of_zero 0 (Qeq_refl 0))|].
    apply fl_mono. lra. }
  assert (G1 : (fl (fl q * 100) <= 100)%Q).
  { apply Qle_trans with (fl 100); [apply fl_mono; lra|]. rewrite fl_100. lra. }
  split.
  - apply Qle_trans with (round2 0); [rewrite round2_0; lra|].
    now apply round2_mono.
  - apply Qle_trans with (round2 100); [now apply round2_mono|].
    rewrite round2_100. lra.
Qed.

Lemma disk_percent_range_witness :
  (0 <= Disk.percent (disk sample_snapshot) <= 100)%Q.
Proof.
  apply (disk_percent_range sample_readings sample_snapshot).
  - reflexivity.
  - vm_compute. split; discriminate.
Defined.

(** X4.  The sizes in GB keep the order of the sizes in bytes: in a snapshot
    the used and the free size of the disk, and the used and the available
    memory, are between zero and the total when the byte counts are. *)
Theorem gigabytes_keep_the_order (r : Readings) (stats : Stats) :
  collect r = Ret stats ->
  (0 <= disk_used r <= disk_total r ->
   (0 <= Disk.used_gb (disk stats) <= Disk.total_gb (disk stats))%Q)
  /\ (0 <= disk_free r <= disk_total r ->
      (0 <= Disk.free_gb (disk stats) <= Disk.total_gb (disk stats))%Q)
  /\ (0 <= memory_used r <= memory_total r ->
      (0 <= Memory.used_gb (memory stats) <= Memory.total_gb (memory stats))%Q)
  /\ (0 <= memory_available r <= memory_total r ->
      (0 <= Memory.available_gb (memory stats)
       <= Memory.total_gb (memory stats))%Q).
Proof.
  intro C.
  destruct (collect_disk r stats C) as (_ & _ & -> & -> & -> & -> & -> & ->).
  repeat split;
    try (apply Qle_trans with (bytes_to_gb 0); [rewrite bytes_to_gb_0; lra|]);
    apply bytes_to_gb_mono; lia.
Qed.

Lemma gigabytes_keep_the_order_witness :
  (0 <= Disk.used_gb (disk sample_snapshot) <= Disk.total_gb (disk sample_snapshot))%Q
  /\ (0 <= Memory.used_gb (memory sample_snapshot)
      <= Memory.total_gb (memory sample_snapshot))%Q.
Proof.
  destruct (gigabytes_keep_the_order sample_readings sample_snapshot eq_refl)
    as (D & _ & M & _).
  split; [apply D | apply M]; vm_compute; split; discriminate.
Defined.

(** The integers below [2 ^ 53] are doubles. *)
Lemma is_double_Z (k : Z) : Z.abs k < 2 ^ 53 -> is_double (inject_Z k).
Proof.
  assert (P : forall k, 0 < k < 2 ^ 53 -> is_double (inject_Z k)).
  { clear k. intros k [K1 K2].
    set (E := Z.log2 k).
    destruct (Z.log2_spec k K1) as [L1 L2]. fold E in L1, L2.
    assert (E0 : 0 <= E) by apply Z.log2_nonneg.
    assert (E52 : E <= 52).
    { destruct (Z_le_gt_dec E 52) as [H|H]; [exact H|].
      assert (2 ^ 53 <= 2 ^ E) by (apply Z.pow_le_mono_r; lia). lia. }
    set (M := k * 2 ^ (52 - E)).
    assert (HM : 2 ^ 52 <= M < 2 ^ 53).
    { unfold M.
      assert (P0 : 0 < 2 ^ (52 - E)) by (apply Z.pow_pos_nonneg; lia).
      assert (P1 : 2 ^ E * 2 ^ (52 - E) = 2 ^ 52)
        by (rewrite <- Z.pow_add_r by lia; f_equal; lia).
      assert (P2 : 2 ^ Z.succ E * 2 ^ (52 - E) = 2 ^ 53)
        by (rewrite <- Z.pow_add_r by lia; f_equal; lia).
      split; [rewrite <- P1 | rewrite <- P2]; nia. }
    assert (Eq : (inject_Z k == inject_Z M * Qpow2 (E - 52))%Q).
    { unfold M. rewrite inject_Z_mult, <- (Qpow2_nonneg (52 - E)) by lia.
      rewrite <- Qmult_assoc.
      replace (E - 52) with (- (52 - E)) by lia.
      rewrite Qpow2_cancel. ring. }
    rewrite Eq. now apply normal_is_double. }
  intro H.
  destruct (Z.lt_trichotomy k 0) as [N | [-> | Pk]].
  - assert (D : is_double (inject_Z (- k))) by (apply P; lia).
    apply is_double_opp in D. rewrite inject_Z_opp in D.
    now rewrite Qopp_involutive in D.
  - unfold is_double. now rewrite (fl_of_zero (inject_Z 0)).
  - apply P. lia.
Qed.

(** [round(x, 2)] leaves an integer below [2 ^ 53] as it is. *)
Lemma round2_Z (k : Z) : Z.abs k < 2 ^ 53 -> (round2 (inject_Z k) == inject_Z k)%Q.
Proof.
  intro H. unfold round2.
  assert (E : (inject_Z k * 100 == inject_Z (k * 100))%Q)
    by (rewrite inject_Z_mult; reflexivity).
  rewrite (round_half_even_comp _ _ E), round_half_even_Z.
  assert (E2 : (inject_Z (k * 100) / 100 == inject_Z k)%Q)
    by (rewrite inject_Z_mult; change (inject_Z 100) with 100%Q; field).
  rewrite (fl_comp _ _ E2). now apply is_double_Z.
Qed.

(** X5.  A whole number of GiB is reported exactly: [round(n / 1024**3, 2)]
    on [k * 1024**3] bytes is [k]. *)
Theorem whole_gigabytes_are_exact (k : Z) :
  Z.abs k < 2 ^ 53 -> (bytes_to_gb (k * 1024 ^ 3) == inject_Z k)%Q.
Proof.
  intro H. unfold bytes_to_gb.
  assert (E : (inject_Z (k * 1024 ^ 3) / inject_Z (1024 ^ 3) == inject_Z k)%Q).
  { rewrite inject_Z_mult. field. discriminate. }
  rewrite (fl_comp _ _ E).
  pose proof (is_double_Z k H) as D. unfold is_double in D.
  assert (R : (round2 (fl (inject_Z k)) == round2 (inject_Z k))%Q).
  { unfold round2.
    assert (E3 : (fl (inject_Z k) * 100 == inject_Z k * 100)%Q) by now rewrite D.
    now rewrite (round_half_even_comp _ _ E3). }
  rewrite R. now apply round2_Z.
Qed.

Lemma whole_gigabytes_are_exact_witness :
  (bytes_to_gb (16 * 1024 ^ 3) == inject_Z 16)%Q.
Proof. apply (whole_gigabytes_are_exact 16). reflexivity. Defined.

(** ** One cycle *)

Lemma forallb_weaken {A} (p q : A -> bool) (l : list A) :
  (forall x, p x = true -> q x = true) ->
  forallb p l = true -> forallb q l = true.
Proof.
  intros I H. rewrite forallb_forall in *. auto.
Qed.

Lemma forallb_filter_nil {A} (p q : A -> bool) (l : list A) :
  (forall x, p x = true -> q x = false) ->
  forallb p l = true -> filter q l = [].
Proof.
  intros I. induction l as [|x l IH]; [reflexivity|]. simpl. intro H.
  apply andb_true_iff in H. destruct H as [H1 H2].
  rewrite (I x H1). now apply IH.
Qed.

Lemma run_once_cases (env : CycleEnv) (self : SystemMonitor) :
  run_once env self =
    match probe_outcome (probe env) with
    | Raise e =>
        if is_Exception e
        then (Ret None, self,
              [Log ERROR ("Error collecting system stats: " ++ exn_str e)])
        else (Raise e, self, [])
    | Ret stats =>
        let alerts := check_thresholds (config self) stats in
        match console env with
        | Some e => (Raise e, self, [Display stats alerts])
        | None =>
            if is_empty alerts
            then (Ret (Some stats), self, [Display stats alerts])
            else
              match send_alert (smtp env) alerts stats self with
              | (Ret _, self', t) =>
                  (Ret (Some stats), self',
                   Display stats alerts :: alerts_warning alerts :: t)
              | (Raise e, self', t) =>
                  (Raise e, self',
                   Display stats alerts :: alerts_warning alerts :: t)
              end
        end
    end.
Proof.
  unfold run_once, bind at 1. rewrite get_system_stats_cases.
  destruct (probe_outcome (probe env)) as [stats|e].
  - unfold bind, get_config, display_stats, emit, ret, raise; simpl.
    destruct (console env) as [e|]; simpl; [reflexivity|].
    destruct (is_empty (check_thresholds (config self) stats)); simpl; [reflexivity|].
    destruct (send_alert (smtp env) (check_thresholds (config self) stats) stats self)
      as [[[u|e] s] t]; unfold alerts_warning; simpl; rewrite ?app_nil_r; reflexivity.
  - destruct (is_Exception e); reflexivity.
Qed.

(** [run_once] touches nothing of the monitor but the flag; it calls the
    logger, the report and the SMTP conversation, and nothing else. *)
Lemma run_once_frame (env : CycleEnv) (self : SystemMonitor) :
  config (monitor_of (run_once env self)) = config self
  /\ config_file (monitor_of (run_once env self)) = config_file self
  /\ forallb cycle_event (trace_of (run_once env self)) = true.
Proof.
  rewrite run_once_cases.
  destruct (probe_outcome (probe env)) as [stats|e].
  - cbv zeta. destruct (console env); [repeat split|].
    destruct (is_empty _); [repeat split|].
    rewrite send_alert_unfold.
    destruct (gate_passes self _); [|repeat split].
    destruct (smtp env) as [|e]; [repeat split|].
    destruct (is_Exception e); repeat split.
  - destruct (is_Exception e); repeat split.
Qed.

(** What [run_once] can raise when the console accepts the report: the
    [KeyboardInterrupt] that arrived. *)
Lemma run_once_raises (env : CycleEnv) (self : SystemMonitor) (e : exn) :
  console env = None ->
  result_of (run_once env self) = Raise e ->
  is_Exception e = false
  /\ (probe env = ProbeRaises e \/ smtp env = SmtpRaises e).
Proof.
  intro Co. rewrite run_once_cases, Co. unfold probe_outcome.
  destruct (probe env) as [e'|r].
  - destruct (is_Exception e') eqn:E; [discriminate|].
    intro H. inversion H; subst. auto.
  - destruct (collect r) as [stats|e'] eqn:C.
    + cbv zeta. destruct (is_empty _); [discriminate|].
      rewrite send_alert_unfold.
      destruct (gate_passes self _); [|discriminate].
      destruct (smtp env) as [|e']; [discriminate|].
      destruct (is_Exception e') eqn:E; [discriminate|].
      intro H. inversion H; subst. auto.
    + apply collect_raises in C. destruct C as [_ ->]. discriminate.
Qed.

(** A cycle that nothing interrupts and whose report the console accepts:
    what [run_once] returns and shows. *)
Lemma run_once_uninterrupted (env : CycleEnv) (self : SystemMonitor) :
  probe_interrupts (probe env) = false ->
  smtp_interrupts (smtp env) = false ->
  console env = None ->
  match probe_outcome (probe env) with
  | Ret stats =>
      result_of (run_once env self) = Ret (Some stats)
      /\ filter is_display (trace_of (run_once env self))
         = [Display stats (check_thresholds (config self) stats)]
  | Raise _ =>
      result_of (run_once env self) = Ret None
      /\ filter is_display (trace_of (run_once env self)) = []
  end.
Proof.
  intros P S Co. rewrite run_once_cases, Co. unfold probe_outcome in *.
  destruct (probe env) as [e|r]; simpl in P.
  - apply negb_false_iff in P. rewrite P. split; reflexivity.
  - destruct (collect r) as [stats|e] eqn:C.
    + cbv zeta. destruct (is_empty _); [split; reflexivity|].
      rewrite send_alert_unfold.
      destruct (gate_passes self _); [|split; reflexivity].
      destruct (smtp env) as [|e]; [split; reflexivity|].
      simpl in S. apply negb_false_iff in S. rewrite S. split; reflexivity.
    + apply collect_raises in C. destruct C as [_ ->]. split; reflexivity.
Qed.


Lemma run_once_writes_no_file (env : CycleEnv) (self : SystemMonitor) :
  forallb (fun ev => negb (is_file_write ev)) (trace_of (run_once env self)) = true.
Proof.
  destruct (run_once_frame env self) as (_ & _ & T).
  revert T. apply forallb_weaken. now intros [].
Qed.

(** [run_once] never calls [logger.error] with a [Monitoring error]. *)
Lemma run_once_no_monitoring_error (env : CycleEnv) (self : SystemMonitor) :
  filter is_monitoring_error (trace_of (run_once env self)) = [].
Proof.
  rewrite run_once_cases.
  destruct (probe_outcome (probe env)) as [stats|e].
  - cbv zeta. destruct (console env); [reflexivity|].
    destruct (is_empty _); [reflexivity|].
    rewrite send_alert_unfold.
    destruct (gate_passes self _); [|reflexivity].
    destruct (smtp env) as [|e]; [reflexivity|].
    destruct (is_Exception e); reflexivity.
  - destruct (is_Exception e); reflexivity.
Qed.

(** X6.  When no [KeyboardInterrupt] arrives and the console accepts the
    report, [run_once] returns, whatever psutil and the SMTP server do.
    After a sampling that succeeded it returns the snapshot; it has called
    [display_stats] once, with the alerts [check_thresholds] gives for the
    current thresholds, and [logger.warning], with the number of alerts,
    exactly when there is an alert; it has attempted a dispatch exactly
    when the gate passes.  After a sampling that failed it returns the
    empty dictionary after the call of [logger.error]. *)
Theorem run_once_reports (env : CycleEnv) (self : SystemMonitor) :
  probe_interrupts (probe env) = false ->
  smtp_interrupts (smtp env) = false ->
  console env = None ->
  match probe_outcome (probe env) with
  | Ret stats =>
      let alerts := check_thresholds (config self) stats in
      result_of (run_once env self) = Ret (Some stats)
      /\ filter is_display (trace_of (run_once env self)) = [Display stats alerts]
      /\ filter is_warning (trace_of (run_once env self))
         = (if is_empty alerts then [] else [alerts_warning alerts])
      /\ dispatch_attempts (trace_of (run_once env self))
         = (if gate_passes self alerts then 1%nat else 0%nat)
  | Raise e =>
      run_once env self
      = (Ret None, self,
         [Log ERROR ("Error collecting system stats: " ++ exn_str e)])
  end.
Proof.
  intros P S Co. rewrite run_once_cases, Co. unfold probe_outcome in *.
  destruct (probe env) as [e|r]; simpl in P.
  - apply negb_false_iff in P. rewrite P. reflexivity.
  - destruct (collect r) as [stats|e] eqn:C.
    + cbv zeta. unfold gate_passes.
      destruct (check_thresholds (config self) stats) as [|a l] eqn:A;
        [repeat split|].
      cbn [is_empty]. rewrite send_alert_unfold. unfold gate_passes.
      cbn [is_empty orb negb andb].
      destruct (Email.enabled (email (config self))), (alert_sent self);
        cbn [negb andb]; try (repeat split; reflexivity).
      destruct (smtp env) as [|e]; [repeat split|].
      simpl in S. apply negb_false_iff in S. rewrite S. repeat split.
    + apply collect_raises in C. destruct C as [_ ->]. reflexivity.
Qed.

Lemma run_once_reports_witness :
  result_of (run_once (hot_cycle smtp_refused) (sample_monitor true))
  = Ret (Some sample_snapshot)
  /\ filter is_display (trace_of (run_once (hot_cycle smtp_refused) (sample_monitor true)))
     = [Display sample_snapshot ["CPU usage: 92.3% (threshold: 80%)"]]
  /\ filter is_warning (trace_of (run_once (hot_cycle smtp_refused) (sample_monitor true)))
     = [Log WARNING "System alerts triggered: 1 threshold(s) exceeded"]
  /\ dispatch_attempts (trace_of (run_once (hot_cycle smtp_refused) (sample_monitor true)))
     = 1%nat.
Proof.
  apply (run_once_reports (hot_cycle smtp_refused) (sample_monitor true));
    reflexivity.
Defined.

(** A console that cannot encode the report: the [print] raises, the
    exception leaves [run_once], which has no [try], and the alert is
    neither logged nor sent. *)
Example report_that_cannot_be_printed :
  run_once (mkCycle hot SmtpOk false
              (Some (ValueError "'latin-1' codec can't encode characters")))
    (sample_monitor true)
  = (Raise (ValueError "'latin-1' codec can't encode characters"),
     sample_monitor true,
     [Display sample_snapshot ["CPU usage: 92.3% (threshold: 80%)"]]).
Proof. reflexivity. Qed.

(** ** The loop *)

Lemma sleepable_not_negative (self : SystemMonitor) :
  sleepable self = true ->
  Qgtb 0 (num_value (check_interval (config self))) = false.
Proof.
  unfold sleepable. intro H. apply andb_true_iff in H. destruct H as [H _].
  now apply negb_true_iff in H.
Qed.



(** One turn of the [while] loop. *)
Lemma monitoring_loop_cons (env : CycleEnv) (envs : list CycleEnv)
    (self : SystemMonitor) :
  monitoring_loop (env :: envs) self =
    match run_once env self with
    | (Raise e, s, t) => (Raise e, s, t)
    | (Ret stats, s, t) =>
        let summary :=
          match stats with
          | Some stats => [cycle_summary stats]
          | None => []
          end in
        if Qgtb 0 (num_value (check_interval (config s)))
        then (Raise (ValueError "sleep length must be non-negative"), s,
              (t ++ summary)%list)
        else if interrupted env
        then (Raise KeyboardInterrupt, s,
              (t ++ summary ++ [Sleep (check_interval (config s))])%list)
        else
          match monitoring_loop envs s with
          | (r, s', t') =>
              (r, s', (t ++ summary ++ Sleep (check_interval (config s)) :: t')%list)
          end
    end.
Proof.
  cbn [monitoring_loop]. unfold bind at 1.
  destruct (run_once env self) as [[[stats|e] s] t]; [|reflexivity].
  unfold bind, get_config, time_sleep, emit, ret, raise, cycle_summary.
  destruct stats as [stats|]; cbv beta iota;
    destruct (Qgtb 0 (num_value (check_interval (config s))));
    try (destruct (interrupted env)); simpl;
    try (destruct (monitoring_loop envs s) as [[r s'] t']);
    simpl; rewrite ?app_nil_r; reflexivity.
Qed.

(** With a console that accepts every report, the loop itself raises a
    [KeyboardInterrupt], or the [ValueError] of a negative interval. *)
Lemma monitoring_loop_result (envs : list CycleEnv) :
  forall self : SystemMonitor,
    forallb console_accepts envs = true ->
    result_of (monitoring_loop envs self) = Ret StillRunning
    \/ (exists e, result_of (monitoring_loop envs self) = Raise e
                  /\ is_Exception e = false)
    \/ (Qgtb 0 (num_value (check_interval (config self))) = true
        /\ result_of (monitoring_loop envs self)
           = Raise (ValueError "sleep length must be non-negative")).
Proof.
  induction envs as [|env envs IH]; intros self Co; [left; reflexivity|].
  simpl in Co. apply andb_true_iff in Co. destruct Co as [Co1 Co2].
  assert (Co : console env = None)
    by (unfold console_accepts in Co1; destruct (console env); congruence).
  rewrite monitoring_loop_cons.
  pose proof (run_once_raises env self) as R.
  destruct (run_once_frame env self) as (C & _ & _).
  destruct (run_once env self) as [[[stats|e] s] t]; unfold monitor_of in C; simpl in C.
  - cbv zeta. rewrite <- C.
    destruct (Qgtb 0 (num_value (check_interval (config s)))) eqn:Q.
    + right; right. split; reflexivity.
    + destruct (interrupted env).
      * right; left. exists KeyboardInterrupt. split; reflexivity.
      * specialize (IH s Co2). rewrite Q in IH.
        destruct (monitoring_loop envs s) as [[r s'] t'].
        destruct IH as [IH | [IH | [IH _]]]; [now left | now right; left | discriminate].
  - right; left. exists e. split; [reflexivity|]. now apply (R e).
Qed.

(** [run_monitoring], from what the loop does. *)
Lemma run_monitoring_cases (envs : list CycleEnv) (self : SystemMonitor) :
  run_monitoring envs self =
    let banner :=
      [Log INFO "Starting system health monitoring...";
       Log INFO ("Monitoring interval: "
                   ++ str_number (check_interval (config self)) ++ " seconds");
       Log INFO
         ("Thresholds - CPU: "
            ++ str_number (Thresholds.cpu (thresholds (config self))) ++ "%, "
            ++ "Memory: "
            ++ str_number (Thresholds.memory (thresholds (config self))) ++ "%, "
            ++ "Disk: "
            ++ str_number (Thresholds.disk (thresholds (config self))) ++ "%")] in
    match monitoring_loop envs self with
    | (Ret r, s, t) => (Ret r, s, (banner ++ t)%list)
    | (Raise e, s, t) =>
        if is_Exception e
        then (Raise e, s,
              (banner ++ t ++ [Log ERROR ("Monitoring error: " ++ exn_str e)])%list)
        else (Ret Stopped, s,
              (banner ++ t ++ [Log INFO "Monitoring stopped by user.";
                               Print (nl ++ " System monitoring stopped.")])%list)
    end.
Proof.
  unfold run_monitoring, bind, get_config, emit, try_except_Interrupt_Exception,
    ret, raise.
  cbv beta iota zeta.
  destruct (monitoring_loop envs self) as [[[r|e] s] t]; [reflexivity|].
  destruct (is_Exception e); simpl; rewrite ?app_nil_r; reflexivity.
Qed.

(** The loop calls [logger.error] with a [Monitoring error] nowhere: the
    call is in the [except] clause around it. *)
Lemma monitoring_loop_no_monitoring_error (envs : list CycleEnv) :
  forall self : SystemMonitor,
    filter is_monitoring_error (trace_of (monitoring_loop envs self)) = [].
Proof.
  induction envs as [|env envs IH]; intro self; [reflexivity|].
  rewrite monitoring_loop_cons.
  pose proof (run_once_no_monitoring_error env self) as R.
  destruct (run_once env self) as [[[stats|e] s] t];
    unfold trace_of in *; simpl in R; [|exact R].
  cbv zeta.
  assert (Su : filter is_monitoring_error
                 match stats with
                 | Some st => [cycle_summary st]
                 | None => []
                 end = []) by (destruct stats; reflexivity).
  destruct (Qgtb 0 (num_value (check_interval (config s)))).
  - cbn [snd]. now rewrite filter_app, R, Su.
  - destruct (interrupted env).
    + cbn [snd]. now rewrite !filter_app, R, Su.
    + specialize (IH s). destruct (monitoring_loop envs s) as [[r s'] t'].
      cbn [snd] in *. rewrite !filter_app, R, Su. cbn [filter is_monitoring_error app].
      exact IH.
Qed.



(** The loop touches nothing of the monitor but the flag and opens no
    file. *)
Lemma monitoring_loop_frame (envs : list CycleEnv) :
  forall self : SystemMonitor,
    config (monitor_of (monitoring_loop envs self)) = config self
    /\ config_file (monitor_of (monitoring_loop envs self)) = config_file self
    /\ forallb loop_event (trace_of (monitoring_loop envs self)) = true.
Proof.
  induction envs as [|env envs IH]; intro self; [repeat split|].
  rewrite monitoring_loop_cons.
  destruct (run_once_frame env self) as (C & F & T).
  assert (T' : forallb loop_event (trace_of (run_once env self)) = true)
    by (revert T; apply forallb_weaken; now intros []).
  clear T.
  destruct (run_once env self) as [[[stats|e] s] t];
    unfold monitor_of, trace_of in *; simpl in C, F, T'.
  - cbv zeta.
    destruct (Qgtb 0 (num_value (check_interval (config s)))).
    + simpl. rewrite forallb_app, T'. now destruct stats.
    + destruct (interrupted env).
      * simpl. rewrite !forallb_app, T'. now destruct stats.
      * specialize (IH s). destruct (monitoring_loop envs s) as [[r s'] t'].
        simpl in *. destruct IH as (C' & F' & T'').
        rewrite !forallb_app, T'. simpl. rewrite T''.
        repeat split; try congruence. now destruct stats.
  - simpl. repeat split; assumption.
Qed.

(** X8.  A run of the monitoring loop leaves the configuration and the name
    of the configuration file as they were: the thresholds and the mail
    settings in force at the start are those of every cycle. *)
Theorem run_keeps_the_configuration (envs : list CycleEnv) (self : SystemMonitor) :
  config (monitor_of (run_monitoring envs self)) = config self
  /\ config_file (monitor_of (run_monitoring envs self)) = config_file self.
Proof.
  rewrite run_monitoring_cases. cbv zeta.
  destruct (monitoring_loop_frame envs self) as (C & F & _).
  destruct (monitoring_loop envs self) as [[[r|e] s] t];
    [|destruct (is_Exception e)]; split; assumption.
Qed.




(** The cycles after an interrupted sleep are not run. *)
Lemma monitoring_loop_cut (envs1 : list CycleEnv) (env : CycleEnv)
    (envs2 : list CycleEnv) :
  forall self : SystemMonitor,
    interrupted env = true ->
    monitoring_loop (envs1 ++ env :: envs2) self
    = monitoring_loop (envs1 ++ [env]) self
    /\ result_of (monitoring_loop (envs1 ++ env :: envs2) self) <> Ret StillRunning.
Proof.
  induction envs1 as [|env1 envs1 IH]; intros self I.
  - cbn [app]. rewrite !monitoring_loop_cons.
    destruct (run_once env self) as [[[stats|e] s] t]; [|split; [reflexivity|discriminate]].
    cbv zeta. rewrite I.
    destruct (Qgtb 0 (num_value (check_interval (config s))));
      split; (reflexivity || discriminate).
  - cbn [app]. rewrite !monitoring_loop_cons.
    destruct (run_once env1 self) as [[[stats|e] s] t]; [|split; [reflexivity|discriminate]].
    cbv zeta.
    destruct (Qgtb 0 (num_value (check_interval (config s))));
      [split; [reflexivity|discriminate]|].
    destruct (interrupted env1); [split; [reflexivity|discriminate]|].
    destruct (IH s I) as [E N]. rewrite E.
    rewrite E in N.
    destruct (monitoring_loop (envs1 ++ [env]) s) as [[r s'] t'].
    split; [reflexivity | exact N].
Qed.

(** X10.  A [KeyboardInterrupt] during the sleep of a cycle ends the run:
    the cycles after it are not run.  With a check interval [time.sleep]
    accepts and a console that accepted the reports so far, the
    [except KeyboardInterrupt] clause of [run_monitoring] is what ends it:
    the last calls of the run are [logger.info] with
    [Monitoring stopped by user.] and then [print] with the console line,
    and [logger.error] is not called with a [Monitoring error]. *)
Theorem interrupt_ends_the_run (envs1 : list CycleEnv) (env : CycleEnv)
    (envs2 : list CycleEnv) (self : SystemMonitor) :
  interrupted env = true ->
  run_monitoring (envs1 ++ env :: envs2) self = run_monitoring (envs1 ++ [env]) self
  /\ (sleepable self = true ->
      forallb console_accepts (envs1 ++ [env]) = true ->
      (exists t,
          trace_of (run_monitoring (envs1 ++ env :: envs2) self)
          = (t ++ [Log INFO "Monitoring stopped by user.";
                   Print (nl ++ " System monitoring stopped.")])%list)
      /\ filter is_monitoring_error
           (trace_of (run_monitoring (envs1 ++ env :: envs2) self)) = []).
Proof.
  intro I. destruct (monitoring_loop_cut envs1 env envs2 self I) as [E N].
  assert (RM : run_monitoring (envs1 ++ env :: envs2) self
               = run_monitoring (envs1 ++ [env]) self)
    by (rewrite !run_monitoring_cases, E; reflexivity).
  split; [exact RM|].
  intros S Co. rewrite RM. rewrite E in N.
  apply sleepable_not_negative in S.
  pose proof (monitoring_loop_no_monitoring_error (envs1 ++ [env]) self) as M.
  rewrite run_monitoring_cases. cbv zeta.
  destruct (monitoring_loop_result (envs1 ++ [env]) self Co)
    as [H | [(e & H & X) | [H _]]]; [contradiction| |congruence].
  destruct (monitoring_loop (envs1 ++ [env]) self) as [[r s] t].
  unfold result_of in H; simpl in H; subst r. rewrite X.
  unfold trace_of in *; cbn [snd] in *. split.
  - eexists. apply app_assoc.
  - change (?a :: ?b :: ?c :: (t ++ ?d))%list with ([a; b; c] ++ t ++ d)%list.
    rewrite !filter_app, M. reflexivity.
Qed.

Lemma interrupt_ends_the_run_witness :
  run_monitoring ([hot_cycle SmtpOk] ++ mkCycle hot SmtpOk true None :: [failing_cycle])
    (sample_monitor true)
  = run_monitoring ([hot_cycle SmtpOk] ++ [mkCycle hot SmtpOk true None])
      (sample_monitor true)
  /\ exists t,
       trace_of (run_monitoring
                   ([hot_cycle SmtpOk] ++ mkCycle hot SmtpOk true None :: [failing_cycle])
                   (sample_monitor true))
       = (t ++ [Log INFO "Monitoring stopped by user.";
                Print (nl ++ " System monitoring stopped.")])%list.
Proof.
  destruct (interrupt_ends_the_run [hot_cycle SmtpOk] (mkCycle hot SmtpOk true None)
              [failing_cycle] (sample_monitor true) eq_refl) as [E H].
  split; [exact E|].
  exact (proj1 (H eq_refl eq_refl)).
Defined.




(** ** The program *)





(** [save_stats_json], case by case. *)
Lemma save_stats_json_cases (now : datetime) (write_error : option WriteFailure)
    (stats : Stats) (filename : option string) (self : SystemMonitor) :
  save_stats_json now write_error stats filename self =
    let name :=
      if truthy_string filename
      then match filename with Some f => f | None => EmptyString end
      else "system_stats_" ++ strftime_compact now ++ ".json" in
    match write_error with
    | None =>
        (Ret tt, self,
         [FileWrite name (json_dumps (stats_document stats));
          Log INFO ("Statistics saved to " ++ name)])
    | Some (OpenRaises e) =>
        if is_Exception e
        then (Ret tt, self, [Log ERROR ("Failed to save statistics: " ++ exn_str e)])
        else (Raise e, self, [])
    | Some (DumpRaises written e) =>
        if is_Exception e
        then (Ret tt, self,
              [FileWrite name written;
               Log ERROR ("Failed to save statistics: " ++ exn_str e)])
        else (Raise e, self, [FileWrite name written])
    end.
Proof.
  unfold save_stats_json, try_except_Exception, bind, emit, raise.
  destruct filename as [[|c f]|], write_error as [[e|w e]|]; simpl;
    try destruct (is_Exception e); reflexivity.
Qed.

(** The events of [save_stats_json]: at most one write, under the name it
    was given, of what reached the file; the rest are calls of the logger. *)
Lemma save_stats_json_events (now : datetime) (write_error : option WriteFailure)
    (stats : Stats) (name : string) (self : SystemMonitor) :
  name <> EmptyString ->
  exists rest,
    trace_of (save_stats_json now write_error stats (Some name) self)
    = (match file_content write_error stats with
       | Some text => [FileWrite name text]
       | None => []
       end ++ rest)%list
    /\ forallb cycle_event rest = true
    /\ (write_interrupts write_error = false ->
        result_of (save_stats_json now write_error stats (Some name) self) = Ret tt).
Proof.
  intro N. rewrite save_stats_json_cases. cbv zeta.
  destruct name as [|c f]; [contradiction|]. cbn [truthy_string].
  destruct write_error as [[e|w e]|]; cbn [file_content write_interrupts].
  - destruct (is_Exception e); eexists; (split; [reflexivity|]); split;
      try reflexivity; discriminate.
  - destruct (is_Exception e); eexists; (split; [reflexivity|]); split;
      try reflexivity; discriminate.
  - eexists. split; [reflexivity|]. split; reflexivity.
Qed.

(** The [--once] mode, from what the cycle does. *)
Lemma main_once (args : Args) (env : RunEnv) (monitor : SystemMonitor)
    (t0 : list event) :
  args_once args = true ->
  init (args_config args) (config_source env) (logging_error env)
  = (Ret monitor, t0) ->
  main args env =
    match run_once (first_cycle env) monitor with
    | (Ret (Some stats), s, t) =>
        if truthy_string (args_json args)
        then
          match save_stats_json (now_filename env) (write_error env) stats
                  (args_json args) s with
          | (Ret _, _, t') => (Some 0, (t0 ++ t ++ t')%list)
          | (Raise e, _, t') =>
              if is_Exception e
              then (Some 1,
                    (t0 ++ (t ++ t') ++ [Print (nl ++ " Error: " ++ exn_str e)])%list)
              else (Some 0, (t0 ++ (t ++ t') ++ [Print (nl ++ " Goodbye!")])%list)
          end
        else (Some 0, (t0 ++ t)%list)
    | (Ret None, s, t) => (Some 0, (t0 ++ t)%list)
    | (Raise e, s, t) =>
        if is_Exception e
        then (Some 1, (t0 ++ t ++ [Print (nl ++ " Error: " ++ exn_str e)])%list)
        else (Some 0, (t0 ++ t ++ [Print (nl ++ " Goodbye!")])%list)
    end.
Proof.
  intros O I. unfold main. rewrite I, O. unfold bind at 1.
  destruct (run_once (first_cycle env) monitor) as [[[[stats|]|e] s] t].
  - destruct (truthy_string (args_json args)).
    + unfold bind, ret.
      destruct (save_stats_json _ _ _ _ _) as [[[u|e] s'] t'].
      * now rewrite !app_nil_r.
      * reflexivity.
    + unfold ret. now rewrite !app_nil_r.
  - unfold ret. now rewrite !app_nil_r.
  - reflexivity.
Qed.





(** The start-up from a configuration file that was read. *)
Lemma init_loaded (config_file : string) (c : Config) :
  init config_file (Loaded c) None
  = (Ret {| config_file := config_file; config := c; alert_sent := false |},
     [LogFileOpen (Logging.file (logging c))]).
Proof. reflexivity. Qed.

(** X13.  In the [--once] mode, with a configuration file that was read, a
    start-up that succeeded, no [KeyboardInterrupt] and a console that
    accepts the report, the exit status is 0: a sampling that failed, a
    message that could not be sent and a file that could not be written
    leave it at 0.  The program then prints nothing but the report. *)
Theorem once_mode_exit_status (args : Args) (env : RunEnv) (c : Config) :
  args_once args = true ->
  config_source env = Loaded c ->
  logging_error env = None ->
  probe_interrupts (probe (first_cycle env)) = false ->
  smtp_interrupts (smtp (first_cycle env)) = false ->
  console (first_cycle env) = None ->
  write_interrupts (write_error env) = false ->
  fst (main args env) = Some 0
  /\ filter is_print (snd (main args env)) = [].
Proof.
  intros O Cs Le P S Co W.
  rewrite (main_once args env _ _ O
             ltac:(rewrite Cs, Le; apply init_loaded)).
  set (monitor := {| config_file := args_config args; config := c;
                     alert_sent := false |}).
  pose proof (run_once_raises (first_cycle env) monitor) as R.
  destruct (run_once_frame (first_cycle env) monitor) as (_ & _ & T).
  apply (forallb_filter_nil cycle_event is_print) in T; [|now intros []].
  destruct (run_once (first_cycle env) monitor) as [[[[stats|]|e] s] t];
    unfold result_of, trace_of in *; cbn [fst snd] in R, T.
  - destruct (args_json args) as [[|ch f]|] eqn:J; cbn [truthy_string].
    + split; [reflexivity|]. cbn [snd app filter is_print]. exact T.
    + destruct (save_stats_json_events (now_filename env) (write_error env)
                  stats (String ch f) s ltac:(discriminate))
        as (rest & St & Sr & Sres).
      specialize (Sres W).
      apply (forallb_filter_nil cycle_event is_print) in Sr; [|now intros []].
      destruct (save_stats_json _ _ _ _ _) as [[[u|e] s'] t'];
        unfold result_of, trace_of in *; cbn [fst snd] in St, Sres;
        [|discriminate].
      subst t'. split; [reflexivity|].
      cbn [snd app filter is_print]. rewrite !filter_app, T, Sr.
      now destruct (file_content _ _).
    + split; [reflexivity|]. cbn [snd app filter is_print]. exact T.
  - split; [reflexivity|]. cbn [snd app filter is_print]. exact T.
  - destruct (R e Co eq_refl) as [E [Hp | Hs]].
    + rewrite Hp in P. simpl in P. rewrite E in P. discriminate.
    + rewrite Hs in S. simpl in S. rewrite E in S. discriminate.
Qed.

(** A statistics file that cannot be opened: the status is 0. *)
Lemma once_mode_exit_status_witness :
  fst (main (once_args (Some "stats.json"))
         (mkRun (Loaded _get_default_config) None (hot_cycle smtp_refused) []
                (mkDatetime 2024 3 1 5 30 1 0)
                (Some (OpenRaises (OtherException "Permission denied")))))
  = Some 0
  /\ filter is_print
       (snd (main (once_args (Some "stats.json"))
               (mkRun (Loaded _get_default_config) None (hot_cycle smtp_refused) []
                      (mkDatetime 2024 3 1 5 30 1 0)
                      (Some (OpenRaises (OtherException "Permission denied"))))))
     = [].
Proof.
  apply (once_mode_exit_status (once_args (Some "stats.json"))
           (mkRun (Loaded _get_default_config) None (hot_cycle smtp_refused) []
                  (mkDatetime 2024 3 1 5 30 1 0)
                  (Some (OpenRaises (OtherException "Permission denied"))))
           _get_default_config);
    reflexivity.
Defined.

(** A console that cannot encode the report makes the same run end with
    status 1, before anything is written. *)
Example once_mode_console_failure :
  main (once_args (Some "stats.json"))
    (mkRun (Loaded _get_default_config) None
           (mkCycle hot SmtpOk false
              (Some (ValueError "'latin-1' codec can't encode characters")))
           [] (mkDatetime 2024 3 1 5 30 1 0) None)
  = (Some 1,
     [LogFileOpen "system_monitor.log";
      Display sample_snapshot ["CPU usage: 92.3% (threshold: 80%)"];
      Print (nl ++ " Error: 'latin-1' codec can't encode characters")]).
Proof. vm_compute. reflexivity. Qed.

(** X14.  [--once --json NAME], with a configuration file that was read,
    after a start-up and a sampling that succeeded and a report the console
    accepted: the program writes one file, under that name, with the text of
    the snapshot it displayed, and that text is read back as a document that
    holds the snapshot, field by field. *)
Theorem once_json_snapshot (args : Args) (env : RunEnv) (c : Config)
    (name : string) (r : Readings) (stats : Stats) :
  args_once args = true ->
  args_json args = Some name ->
  name <> EmptyString ->
  config_source env = Loaded c ->
  logging_error env = None ->
  probe (first_cycle env) = ProbeReads r ->
  plausible_sizes r = true ->
  collect r = Ret stats ->
  is_double (cpu_percent r) ->
  is_double (memory_percent r) ->
  smtp_interrupts (smtp (first_cycle env)) = false ->
  console (first_cycle env) = None ->
  write_error env = None ->
  filter is_file_write (snd (main args env))
  = [FileWrite name (json_dumps (stats_document stats))]
  /\ filter is_display (snd (main args env))
     = [Display stats (check_thresholds c stats)]
  /\ exists doc stats',
       json_loads (json_dumps (stats_document stats)) = Some doc
       /\ stats_of_document doc = Some stats'
       /\ stats_equiv stats' stats.
Proof.
  intros O J N Cs Le P _ C Dc Dm S Co W.
  split; [|split].
  3: { destruct (json_loads_dumps (stats_document stats)) as (doc & L & Eq).
       { apply stats_document_wf, doubles_have_repr.
         now apply (sampled_floats_are_doubles r). }
       destruct (equiv_document_holds_the_snapshot doc stats Eq)
         as ((stats' & R & Es) & _).
       now exists doc, stats'. }
  all: rewrite (main_once args env _ _ O
                  ltac:(rewrite Cs, Le; apply init_loaded)).
  all: set (monitor := {| config_file := args_config args; config := c;
                          alert_sent := false |}).
  all: pose proof (run_once_uninterrupted (first_cycle env) monitor) as R;
    rewrite P in R; specialize (R eq_refl S Co); simpl in R; rewrite C in R;
    destruct R as [R1 R2].
  all: pose proof (run_once_writes_no_file (first_cycle env) monitor) as Rw.
  all: apply (forallb_filter_nil _ is_file_write _
                (fun x H => proj1 (negb_true_iff _) H)) in Rw.
  all: destruct (run_once (first_cycle env) monitor) as [[res s] t];
    unfold result_of, trace_of in *; simpl in R1, R2, Rw; subst res.
  all: rewrite J; destruct name as [|ch f]; [contradiction|]; cbn [truthy_string].
  all: rewrite save_stats_json_cases, W; cbv zeta.
  all: cbn [truthy_string snd fst].
  all: rewrite !filter_app, ?Rw, ?R2; reflexivity.
Qed.

Lemma once_json_snapshot_witness :
  filter is_file_write
    (snd (main (once_args (Some "stats.json"))
            (mkRun (Loaded _get_default_config) None (hot_cycle SmtpOk) []
                   (mkDatetime 2024 3 1 5 30 1 0) None)))
  = [FileWrite "stats.json" (json_dumps (stats_document sample_snapshot))]
  /\ filter is_display
       (snd (main (once_args (Some "stats.json"))
               (mkRun (Loaded _get_default_config) None (hot_cycle SmtpOk) []
                      (mkDatetime 2024 3 1 5 30 1 0) None)))
     = [Display sample_snapshot
          (check_thresholds _get_default_config sample_snapshot)]
  /\ exists doc stats',
       json_loads (json_dumps (stats_document sample_snapshot)) = Some doc
       /\ stats_of_document doc = Some stats'
       /\ stats_equiv stats' sample_snapshot.
Proof.
  apply (once_json_snapshot (once_args (Some "stats.json"))
           (mkRun (Loaded _get_default_config) None (hot_cycle SmtpOk) []
                  (mkDatetime 2024 3 1 5 30 1 0) None)
           _get_default_config "stats.json" sample_readings sample_snapshot);
    try reflexivity; try discriminate; apply fl_is_double.
Defined.

(** X15.  An exception raised while the configuration file is opened or
    parsed, other than [FileNotFoundError] and [yaml.YAMLError], is fatal:
    the program prints it and exits with status 1; nothing is sampled,
    logged or sent. *)
Theorem unreadable_config_is_fatal (args : Args) (env : RunEnv) (e : exn) :
  config_source env = LoadRaises e ->
  is_Exception e = true ->
  (forall msg, e <> FileNotFoundError msg) ->
  (forall msg, e <> YAMLError msg) ->
  main args env = (Some 1, [Print (nl ++ " Error: " ++ exn_str e)]).
Proof.
  intros C E F Y. unfold main, init, _load_config. rewrite C.
  destruct e; try discriminate; try (now elim (F msg)); try (now elim (Y msg));
    reflexivity.
Qed.

Lemma unreadable_config_is_fatal_witness :
  main (once_args None)
    {| config_source := LoadRaises (OtherException "Permission denied");
       logging_error := None;
       first_cycle := hot_cycle SmtpOk;
       later_cycles := [];
       now_filename := mkDatetime 2024 3 1 5 30 1 0;
       write_error := None |}
  = (Some 1, [Print (nl ++ " Error: Permission denied")]).
Proof.
  apply (unreadable_config_is_fatal (once_args None)
           {| config_source := LoadRaises (OtherException "Permission denied");
              logging_error := None;
              first_cycle := hot_cycle SmtpOk;
              later_cycles := [];
              now_filename := mkDatetime 2024 3 1 5 30 1 0;
              write_error := None |}
           (OtherException "Permission denied"));
    try reflexivity; intros msg; discriminate.
Defined.

(** ** File names *)

Lemma below_forallb (P : Z -> bool) (n : Z) :
  forallb P (map Z.of_nat (seq 0 (Z.to_nat n))) = true ->
  forall z, 0 <= z < n -> P z = true.
Proof.
  intros H z Hz. rewrite forallb_forall in H. apply H.
  apply in_map_iff. exists (Z.to_nat z). split; [lia|].
  apply in_seq. lia.
Qed.

Lemma pad2_spec (z : Z) :
  0 <= z < 100 -> String.length (pad2 z) = 2%nat /\ digits_value (pad2 z) = z.
Proof.
  intro H.
  pose proof (below_forallb
                (fun z => (Nat.eqb (String.length (pad2 z)) 2)
                          && (digits_value (pad2 z) =? z)) 100
                ltac:(vm_compute; reflexivity) z H) as B.
  cbv beta in B. apply andb_true_iff in B. destruct B as [B1 B2].
  apply Nat.eqb_eq in B1. apply Z.eqb_eq in B2. now split.
Qed.

Lemma pad4_spec (z : Z) :
  0 <= z < 10000 -> String.length (pad4 z) = 4%nat /\ digits_value (pad4 z) = z.
Proof.
  intro H.
  pose proof (below_forallb
                (fun z => (Nat.eqb (String.length (pad4 z)) 4)
                          && (digits_value (pad4 z) =? z)) 10000
                ltac:(vm_compute; reflexivity) z H) as B.
  cbv beta in B. apply andb_true_iff in B. destruct B as [B1 B2].
  apply Nat.eqb_eq in B1. apply Z.eqb_eq in B2. now split.
Qed.

(** Two texts that start with parts of the same length have the same
    parts. *)
Lemma app_inj_length (a b x y : string) :
  String.length a = String.length b -> a ++ x = b ++ y -> a = b /\ x = y.
Proof.
  revert b. induction a as [|c a IH]; intros [|d b] L H; try discriminate.
  - now split.
  - simpl in L, H. inversion H; subst.
    destruct (IH b ltac:(lia) H2) as [-> ->]. now split.
Qed.

Lemma pad2_inj (x y : Z) (s t : string) :
  0 <= x < 100 -> 0 <= y < 100 -> pad2 x ++ s = pad2 y ++ t -> x = y /\ s = t.
Proof.
  intros Hx Hy H.
  destruct (pad2_spec x Hx) as [Lx Vx]. destruct (pad2_spec y Hy) as [Ly Vy].
  destruct (app_inj_length _ _ _ _ ltac:(now rewrite Lx, Ly) H) as [E ->].
  split; [now rewrite <- Vx, <- Vy, E | reflexivity].
Qed.

Lemma pad4_inj (x y : Z) (s t : string) :
  0 <= x < 10000 -> 0 <= y < 10000 -> pad4 x ++ s = pad4 y ++ t -> x = y /\ s = t.
Proof.
  intros Hx Hy H.
  destruct (pad4_spec x Hx) as [Lx Vx]. destruct (pad4_spec y Hy) as [Ly Vy].
  destruct (app_inj_length _ _ _ _ ltac:(now rewrite Lx, Ly) H) as [E ->].
  split; [now rewrite <- Vx, <- Vy, E | reflexivity].
Qed.

Lemma four_digit_year_bounds (d : datetime) :
  four_digit_year d = true ->
  1000 <= year d <= 9999 /\ 1 <= month d <= 12 /\ 1 <= day d <= 31
  /\ 0 <= hour d <= 23 /\ 0 <= minute d <= 59 /\ 0 <= second d <= 59.
Proof.
  unfold four_digit_year. rewrite !andb_true_iff, !Z.leb_le. tauto.
Qed.

Lemma strftime_compact_inj (a b : datetime) :
  four_digit_year a = true -> four_digit_year b = true ->
  strftime_compact a = strftime_compact b -> same_second a b.
Proof.
  intros Va Vb H.
  apply four_digit_year_bounds in Va, Vb.
  unfold strftime_compact in H.
  apply pad4_inj in H; [|lia|lia]. destruct H as [Ey H].
  apply pad2_inj in H; [|lia|lia]. destruct H as [Em H].
  apply pad2_inj in H; [|lia|lia]. destruct H as [Ed H].
  simpl in H. inversion H as [H'].
  apply pad2_inj in H'; [|lia|lia]. destruct H' as [Eh H'].
  apply pad2_inj in H'; [|lia|lia]. destruct H' as [Emi H'].
  rewrite <- (string_app_nil_r (pad2 (second a))),
          <- (string_app_nil_r (pad2 (second b))) in H'.
  apply pad2_inj in H'; [|lia|lia]. destruct H' as [Es _].
  repeat split; assumption.
Qed.

Lemma strftime_compact_same_second (a b : datetime) :
  same_second a b -> strftime_compact a = strftime_compact b.
Proof.
  intros (Ey & Em & Ed & Eh & Emi & Es). unfold strftime_compact.
  now rewrite Ey, Em, Ed, Eh, Emi, Es.
Qed.

(** X16.  Without a file name ([None] or the empty string),
    [save_stats_json] writes to [system_stats_YYYYMMDD_HHMMSS.json], named
    after the clock: two snapshots saved within the same second go to the
    same file, and snapshots saved in different seconds go to different
    files. *)
Theorem default_file_names (a b : datetime) (stats stats' : Stats)
    (filename filename' : option string) (self self' : SystemMonitor) :
  truthy_string filename = false ->
  truthy_string filename' = false ->
  four_digit_year a = true ->
  four_digit_year b = true ->
  written_files (trace_of (save_stats_json a None stats filename self))
  = ["system_stats_" ++ strftime_compact a ++ ".json"]
  /\ (written_files (trace_of (save_stats_json a None stats filename self))
      = written_files (trace_of (save_stats_json b None stats' filename' self'))
      <-> same_second a b).
Proof.
  intros Fa Fb Va Vb.
  assert (Na : written_files (trace_of (save_stats_json a None stats filename self))
               = ["system_stats_" ++ strftime_compact a ++ ".json"])
    by (destruct filename as [[|c f]|]; try discriminate; reflexivity).
  assert (Nb : written_files (trace_of (save_stats_json b None stats' filename' self'))
               = ["system_stats_" ++ strftime_compact b ++ ".json"])
    by (destruct filename' as [[|c f]|]; try discriminate; reflexivity).
  rewrite Na, Nb. split; [reflexivity|]. split.
  - intro H. inversion H as [H'].
    apply strftime_compact_inj; try assumption.
    assert (L : String.length (strftime_compact a) = String.length (strftime_compact b)).
    { apply four_digit_year_bounds in Va, Vb. unfold strftime_compact.
      rewrite !string_length_app.
      destruct (pad4_spec (year a) ltac:(lia)) as [-> _].
      destruct (pad4_spec (year b) ltac:(lia)) as [-> _].
      destruct (pad2_spec (month a) ltac:(lia)) as [-> _].
      destruct (pad2_spec (month b) ltac:(lia)) as [-> _].
      destruct (pad2_spec (day a) ltac:(lia)) as [-> _].
      destruct (pad2_spec (day b) ltac:(lia)) as [-> _].
      destruct (pad2_spec (hour a) ltac:(lia)) as [-> _].
      destruct (pad2_spec (hour b) ltac:(lia)) as [-> _].
      destruct (pad2_spec (minute a) ltac:(lia)) as [-> _].
      destruct (pad2_spec (minute b) ltac:(lia)) as [-> _].
      destruct (pad2_spec (second a) ltac:(lia)) as [-> _].
      destruct (pad2_spec (second b) ltac:(lia)) as [-> _].
      reflexivity. }
    now destruct (app_inj_length _ _ _ _ L H').
  - intro H. now rewrite (strftime_compact_same_second a b H).
Qed.

Lemma default_file_names_witness :
  written_files
    (trace_of (save_stats_json (mkDatetime 2024 3 1 5 30 1 0) None sample_snapshot
                 None (sample_monitor true)))
  = ["system_stats_20240301_053001.json"].
Proof.
  refine (proj1 (default_file_names (mkDatetime 2024 3 1 5 30 1 0)
                   (mkDatetime 2024 3 1 5 30 1 999999) sample_snapshot sample_snapshot
                   None (Some EmptyString) (sample_monitor true) (sample_monitor true)
                   _ _ _ _));
    reflexivity.
Defined.

(** ** The console report *)

Lemma digit_not_comma (c : ascii) : is_digit c = true -> Ascii.eqb c "," = false.
Proof.
  destruct c as [[] [] [] [] [] [] [] []]; try discriminate; reflexivity.
Qed.

Lemma group_thousands_spec (digits : string) :
  all_digits digits = true ->
  without_commas (group_thousands digits) = digits
  /\ String.length (group_thousands digits)
     = (String.length digits + (String.length digits - 1) / 3)%nat.
Proof.
  induction digits as [|c rest IH]; [intros _; split; reflexivity|].
  cbn [all_digits]. intro H. apply andb_true_iff in H. destruct H as [Hc Hr].
  destruct (IH Hr) as [IH1 IH2].
  pose proof (digit_not_comma c Hc) as Nc.
  cbn [group_thousands]. set (n := String.length rest) in *.
  cbn [String.length]. fold n.
  replace (S n - 1)%nat with n by lia.
  destruct (negb (n =? 0)%nat && (n mod 3 =? 0)%nat) eqn:G.
  - apply andb_true_iff in G. destruct G as [G1 G2].
    apply negb_true_iff, Nat.eqb_neq in G1. apply Nat.eqb_eq in G2.
    cbn [without_commas]. rewrite Nc. cbn [Ascii.eqb without_commas]. 
    change (Ascii.eqb "," ",") with true. cbn iota. rewrite IH1.
    split; [reflexivity|]. cbn [String.length]. rewrite IH2.
    pose proof (Nat.div_mod_eq n 3). pose proof (Nat.div_mod_eq (n - 1) 3).
    pose proof (Nat.mod_upper_bound (n - 1) 3 ltac:(lia)). lia.
  - cbn [without_commas]. rewrite Nc, IH1. split; [reflexivity|].
    cbn [String.length]. rewrite IH2.
    apply andb_false_iff in G. destruct G as [G | G].
    + apply negb_false_iff, Nat.eqb_eq in G. rewrite G. reflexivity.
    + apply Nat.eqb_neq in G.
      pose proof (Nat.div_mod_eq n 3). pose proof (Nat.div_mod_eq (n - 1) 3).
      pose proof (Nat.mod_upper_bound (n - 1) 3 ltac:(lia)).
      pose proof (Nat.mod_upper_bound n 3 ltac:(lia)). lia.
Qed.

(** Where the commas are: counted from the end of the text, every fourth
    character is a comma and no other is. *)
Lemma group_thousands_commas (digits : string) :
  all_digits digits = true ->
  forall a c b,
    group_thousands digits = a ++ String c b ->
    (c = ","%char <-> (String.length b mod 4 = 3)%nat).
Proof.
  induction digits as [|d rest IH]; intros Hd a c b E.
  - destruct a; discriminate.
  - cbn [all_digits] in Hd. apply andb_true_iff in Hd. destruct Hd as [Hc Hr].
    specialize (IH Hr).
    destruct (group_thousands_spec rest Hr) as [_ L].
    assert (Nc : d <> ","%char).
    { intros ->. pose proof (digit_not_comma _ Hc). discriminate. }
    cbn [group_thousands] in E. set (n := String.length rest) in *.
    pose proof (Nat.div_mod_eq n 3) as D3.
    pose proof (Nat.mod_upper_bound n 3 ltac:(lia)) as U3.
    pose proof (Nat.div_mod_eq (n - 1) 3) as D3'.
    pose proof (Nat.mod_upper_bound (n - 1) 3 ltac:(lia)) as U3'.
    pose proof (Nat.div_mod_eq (String.length b) 4) as D4.
    pose proof (Nat.mod_upper_bound (String.length b) 4 ltac:(lia)) as U4.
    destruct (negb (n =? 0)%nat && (n mod 3 =? 0)%nat) eqn:G.
    + apply andb_true_iff in G. destruct G as [G1 G2].
      apply negb_true_iff, Nat.eqb_neq in G1. apply Nat.eqb_eq in G2.
      destruct a as [|x a]; cbn [append] in E.
      * inversion E; subst c b. cbn [String.length] in *.
        split; [intro; contradiction|]. intro. exfalso. lia.
      * inversion E as [[Ex E']]; subst x.
        destruct a as [|y a]; cbn [append] in E'.
        -- inversion E'; subst c b. split; [intros _; lia | reflexivity].
        -- inversion E' as [[Ey E'']]. now apply (IH a).
    + destruct a as [|x a]; cbn [append] in E.
      * inversion E; subst c b.
        split; [intro; contradiction|]. intro. exfalso.
        apply andb_false_iff in G. destruct G as [G | G].
        -- apply negb_false_iff, Nat.eqb_eq in G. lia.
        -- apply Nat.eqb_neq in G. lia.
      * inversion E as [[Ex E']]. now apply (IH a).
Qed.

(** X17.  The byte counters of the report carry thousands separators:
    [f"{n:,}"] is the sign of [n] and then the digits of [abs(n)] in groups
    of three counted from the right, a comma between two groups.  Counted
    from the end, every fourth character of the grouped digits is a comma
    and no other is; the text without its commas is [str(n)]. *)
Theorem format_comma_spec (z : Z) :
  without_commas (format_comma z) = str_int z
  /\ String.length (format_comma z)
     = (String.length (str_int z)
        + (String.length (str_nat (Z.abs z)) - 1) / 3)%nat
  /\ format_comma z
     = (if z <? 0 then "-" else EmptyString) ++ format_comma (Z.abs z)
  /\ forall a c b,
       format_comma (Z.abs z) = a ++ String c b ->
       (c = ","%char <-> (String.length b mod 4 = 3)%nat).
Proof.
  assert (Abs : format_comma (Z.abs z) = group_thousands (str_nat (Z.abs z))).
  { unfold format_comma.
    destruct (Z.abs z <? 0) eqn:N; [apply Z.ltb_lt in N; lia | reflexivity]. }
  split; [|split; [|split]].
  - unfold format_comma, str_int.
    destruct (z <? 0) eqn:N.
    + apply Z.ltb_lt in N.
      destruct (group_thousands_spec (str_nat (- z)) (str_nat_digits (- z) ltac:(lia)))
        as [G1 _].
      cbn [without_commas].
      change (Ascii.eqb "-" ",") with false. cbn iota. now rewrite G1.
    + apply Z.ltb_ge in N.
      now destruct (group_thousands_spec (str_nat z) (str_nat_digits _ N)).
  - unfold format_comma, str_int.
    destruct (z <? 0) eqn:N.
    + apply Z.ltb_lt in N.
      destruct (group_thousands_spec (str_nat (- z)) (str_nat_digits (- z) ltac:(lia)))
        as [_ G2].
      replace (Z.abs z) with (- z) by lia.
      cbn [String.length]. now rewrite G2.
    + apply Z.ltb_ge in N.
      destruct (group_thousands_spec (str_nat z) (str_nat_digits _ N)) as [_ G2].
      now replace (Z.abs z) with z by lia.
  - rewrite Abs. unfold format_comma.
    destruct (z <? 0) eqn:N.
    + apply Z.ltb_lt in N. now replace (Z.abs z) with (- z) by lia.
    + apply Z.ltb_ge in N. now replace (Z.abs z) with z by lia.
  - rewrite Abs. apply group_thousands_commas.
    apply str_nat_digits. lia.
Qed.

(** In [123,456,789] the character in front of [456,789] is a comma. *)
Lemma format_comma_spec_witness :
  ","%char = ","%char <-> (String.length "456,789" mod 4 = 3)%nat.
Proof.
  apply (proj2 (proj2 (proj2 (format_comma_spec 123456789))) "123" ","%char "456,789").
  reflexivity.
Defined.

Example format_comma_samples :
  map format_comma [0; 999; 1000; 123456789; -1234567]
  = ["0"; "999"; "1,000"; "123,456,789"; "-1,234,567"].
Proof. reflexivity. Qed.

(** X18.  In the report of a snapshot with the alerts [check_thresholds]
    gives for it, the line of a metric starts with [RED] exactly when the
    list holds an alert about that metric: the markers and the alerts come
    from the same comparisons. *)
Theorem report_markers (config : Config) (stats : Stats) (m : metric) :
  In (metric_line config stats m)
     (display_lines config stats (check_thresholds config stats))
  /\ starts_with "RED" (metric_line config stats m) = exceeds config stats m
  /\ (starts_with "RED" (metric_line config stats m) = true
      <-> In (Some m) (alert_metrics (check_thresholds config stats))).
Proof.
  assert (S : starts_with "RED" (metric_line config stats m) = exceeds config stats m).
  { unfold metric_line, cpu_line, memory_line, disk_line, exceeds, status_marker.
    destruct m; cbn [metric_percent metric_threshold];
      destruct (Qgtb _ _); reflexivity. }
  split; [|split; [exact S|]].
  - unfold display_lines. apply in_or_app. left.
    destruct m; cbn [metric_line In]; auto 10.
  - rewrite S.
    pose proof (alerts_about_exceeds config stats m) as A. unfold alerts_about in A.
    split; intro H.
    + rewrite H in A.
      apply (count_occ_In option_metric_eq_dec). lia.
    + apply (count_occ_In option_metric_eq_dec) in H.
      destruct (exceeds config stats m); [reflexivity | lia].
Qed.

(** X19.  The report has eleven lines and one more per alert; the alerts are
    its lines that start with three spaces, in their order, under a header
    that gives their number, and a report without alerts says so. *)
Theorem report_lists_the_alerts (config : Config) (stats : Stats)
    (alerts : list string) :
  List.length (display_lines config stats alerts) = (11 + List.length alerts)%nat
  /\ filter (starts_with "   ") (display_lines config stats alerts)
     = map (fun alert => "   " ++ alert) alerts
  /\ In (if is_empty alerts
         then nl ++ " All systems normal - no alerts"
         else nl ++ "  ACTIVE ALERTS (" ++ str_int (Z.of_nat (List.length alerts)) ++ "):")
        (display_lines config stats alerts).
Proof.
  unfold display_lines. split; [|split].
  - rewrite !length_app. destruct alerts; cbn [is_empty List.length];
      rewrite ?length_map; cbn [List.length]; lia.
  - rewrite !filter_app.
    assert (F : forall l, filter (starts_with "   ") (map (fun a => "   " ++ a) l)
                          = map (fun a => "   " ++ a) l).
    { induction l as [|a l IH]; [reflexivity|]. cbn [map filter].
      change (starts_with "   " ("   " ++ a)) with true. cbn iota. now rewrite IH. }
    match goal with
    | |- (filter _ ?fixed ++ _ ++ _)%list = _ =>
        assert (H9 : filter (starts_with "   ") fixed = [])
    end.
    { unfold cpu_line, memory_line, disk_line, status_marker.
      destruct (Qgtb (Cpu.percent (cpu stats)) _),
               (Qgtb (Memory.percent (memory stats)) _),
               (Qgtb (Disk.percent (disk stats)) _); reflexivity. }
    rewrite H9. cbn [app].
    destruct alerts as [|a l]; cbn [is_empty]; [reflexivity|].
    match goal with
    | |- (filter _ (?header :: ?rest) ++ _)%list = _ =>
        change (filter (starts_with "   ") (header :: rest))
          with (filter (starts_with "   ") rest)
    end.
    rewrite (F (a :: l)). apply app_nil_r.
  - apply in_or_app. right. apply in_or_app. left.
    destruct alerts; cbn [is_empty]; left; reflexivity.
Qed.

(** ** The e-mail of an alert *)

Lemma one_line_app (a b : string) : one_line (a ++ b) = one_line a && one_line b.
Proof.
  induction a as [|c a IH]; [reflexivity|]. simpl. rewrite IH. apply andb_assoc.
Qed.

Lemma digit_one_line (c : ascii) :
  is_digit c = true -> negb (Ascii.eqb c (ascii_of_nat 10)) = true.
Proof.
  destruct c as [[] [] [] [] [] [] [] []]; try discriminate; reflexivity.
Qed.

Lemma all_digits_one_line (s : string) : all_digits s = true -> one_line s = true.
Proof.
  induction s as [|c s IH]; [reflexivity|]. simpl. intro H.
  apply andb_true_iff in H. destruct H as [Hc Hs].
  now rewrite (digit_one_line c Hc), IH.
Qed.

Lemma digits_acc_one_line (fuel : nat) :
  forall (n : Z) (acc : string),
    one_line acc = true -> one_line (digits_acc fuel n acc) = true.
Proof.
  induction fuel as [|fuel IH]; intros n acc H; [exact H|].
  cbn [digits_acc].
  assert (D : one_line (String (digit_char (n mod 10)) acc) = true).
  { cbn [one_line]. rewrite H.
    destruct (digit_char_spec (n mod 10) (Z.mod_pos_bound n 10 ltac:(lia)))
      as (Hd & _).
    now rewrite (digit_one_line _ Hd). }
  destruct (n <? 10); [exact D | now apply IH].
Qed.

Lemma str_nat_one_line (n : Z) : one_line (str_nat n) = true.
Proof. unfold str_nat. now apply digits_acc_one_line. Qed.

Lemma str_int_one_line (z : Z) : one_line (str_int z) = true.
Proof.
  unfold str_int. destruct (z <? 0); [|apply str_nat_one_line].
  cbn [one_line]. now rewrite str_nat_one_line.
Qed.

Lemma format_1f_one_line (q : Q) : one_line (format_1f q) = true.
Proof.
  unfold format_1f. rewrite !one_line_app, !str_int_one_line.
  now destruct (Qgtb 0 q).
Qed.

Lemma zeros_one_line (n : nat) : one_line (zeros n) = true.
Proof. induction n as [|n IH]; [reflexivity | exact IH]. Qed.

Lemma take_one_line (n : nat) (s : string) :
  one_line s = true -> one_line (take n s) = true.
Proof.
  revert s. induction n as [|n IH]; intros [|c s] H; try reflexivity.
  simpl in *. apply andb_true_iff in H. destruct H as [Hc Hs].
  now rewrite Hc, IH.
Qed.

Lemma drop_one_line (n : nat) (s : string) :
  one_line s = true -> one_line (drop n s) = true.
Proof.
  revert s. induction n as [|n IH]; intros [|c s] H; try reflexivity; try exact H.
  simpl in *. apply andb_true_iff in H. destruct H as [Hc Hs]. now apply IH.
Qed.

Lemma layout_repr_one_line (digits : string) (decpt : Z) :
  one_line digits = true -> one_line (layout_repr digits decpt) = true.
Proof.
  intro H. unfold layout_repr.
  destruct ((decpt <=? -4) || (16 <? decpt)).
  - rewrite !one_line_app, (take_one_line 1 digits H).
    cbn [one_line]. rewrite one_line_app, str_nat_one_line.
    destruct (Z.of_nat (String.length digits) <=? 1), (decpt - 1 <? 0),
             (Z.abs (decpt - 1) <? 10);
      cbn [one_line]; rewrite ?(drop_one_line 1 digits H); reflexivity.
  - destruct (decpt <=? 0).
    + cbn [one_line]. now rewrite one_line_app, zeros_one_line, H.
    + destruct (Z.of_nat (String.length digits) <=? decpt).
      * now rewrite !one_line_app, zeros_one_line, H.
      * rewrite one_line_app, (take_one_line _ digits H). cbn [one_line].
        now rewrite (drop_one_line _ digits H).
Qed.

Lemma float_repr_one_line (q : Q) : one_line (float_repr q) = true.
Proof.
  unfold float_repr. destruct (Qeq_bool q 0); [reflexivity|].
  unfold repr_pos.
  destruct (shortest_digits 17 1 (dec_exponent (Qabs q)) (Qabs q)) as [[d e]|];
    [|reflexivity].
  destruct (strip_zeros 17 d e) as [d' e'].
  pose proof (layout_repr_one_line (str_nat d')
                (Z.of_nat (String.length (str_nat d')) + e')
                (str_nat_one_line d')) as L.
  destruct (Qgtb 0 q); [cbn [one_line]; now rewrite L | exact L].
Qed.

Lemma str_number_one_line (n : number) : one_line (str_number n) = true.
Proof. destruct n; [apply str_int_one_line | apply float_repr_one_line]. Qed.

(** The alerts of [check_thresholds] are single lines. *)
Lemma check_thresholds_one_line (config : Config) (stats : Stats) :
  forallb one_line (check_thresholds config stats) = true.
Proof.
  rewrite check_thresholds_unfold.
  assert (C : one_line (cpu_alert config stats) = true).
  { unfold cpu_alert.
    now rewrite !one_line_app, format_1f_one_line, str_number_one_line. }
  assert (M : one_line (memory_alert config stats) = true).
  { unfold memory_alert.
    now rewrite !one_line_app, !format_1f_one_line, str_number_one_line. }
  assert (D : one_line (disk_alert config stats) = true).
  { unfold disk_alert.
    now rewrite !one_line_app, !format_1f_one_line, str_number_one_line. }
  destruct (exceeds config stats MCpu), (exceeds config stats MMemory),
           (exceeds config stats MDisk); cbn [app forallb];
    rewrite ?C, ?M, ?D; reflexivity.
Qed.

Lemma split_lines_nonempty (s : string) : split_lines s <> [].
Proof.
  induction s as [|c s IH]; [discriminate|]. cbn [split_lines].
  destruct (Ascii.eqb c (ascii_of_nat 10)); [discriminate|].
  destruct (split_lines s); [contradiction | discriminate].
Qed.

Lemma split_lines_line (a b : string) :
  one_line a = true -> split_lines (a ++ nl ++ b) = a :: split_lines b.
Proof.
  induction a as [|c a IH]; intro H; [reflexivity|].
  cbn [one_line] in H. apply andb_true_iff in H. destruct H as [Hc Ha].
  apply negb_true_iff in Hc.
  change (String c a ++ nl ++ b) with (String c (a ++ nl ++ b)).
  cbn [split_lines]. rewrite Hc, (IH Ha). reflexivity.
Qed.

(** A text made of single lines splits into them, and a last empty one. *)
Lemma split_lines_unlines (lines : list string) :
  forallb one_line lines = true ->
  split_lines (unlines lines) = (lines ++ [EmptyString])%list.
Proof.
  induction lines as [|l ls IH]; [reflexivity|]. cbn [forallb unlines]. intro H.
  apply andb_true_iff in H. destruct H as [Hl Hls].
  rewrite (split_lines_line l _ Hl), (IH Hls). reflexivity.
Qed.

Lemma unlines_app (xs ys : list string) :
  unlines (xs ++ ys) = unlines xs ++ unlines ys.
Proof.
  induction xs as [|x xs IH]; [reflexivity|]. cbn [app unlines].
  now rewrite IH, !string_app_assoc.
Qed.

Lemma fold_left_bullets (alerts : list string) (body : string) :
  fold_left (fun body alert => body ++ (alert_bullet ++ alert ++ nl)) alerts body
  = body ++ unlines (map (fun alert => alert_bullet ++ alert) alerts).
Proof.
  revert body. induction alerts as [|a alerts IH]; intro body.
  - cbn. now rewrite string_app_nil_r.
  - cbn [fold_left map unlines]. rewrite IH, !string_app_assoc. reflexivity.
Qed.

(** The body, line by line. *)
Lemma alert_body_unlines (alerts : list string) (stats : Stats) :
  alert_body alerts stats
  = unlines (body_heading stats
               ++ map (fun alert => alert_bullet ++ alert) alerts
               ++ body_status stats).
Proof.
  unfold alert_body. cbv zeta. rewrite fold_left_bullets, !unlines_app.
  unfold body_heading, body_status. cbn [unlines].
  rewrite !string_app_assoc. reflexivity.
Qed.

Lemma pad2_one_line (z : Z) : one_line (pad2 z) = true.
Proof.
  unfold pad2. rewrite one_line_app, str_int_one_line. now destruct (z <? 10).
Qed.

Lemma pad4_one_line (z : Z) : one_line (pad4 z) = true.
Proof.
  unfold pad4. rewrite one_line_app, str_int_one_line.
  now destruct (z <? 10), (z <? 100), (z <? 1000).
Qed.

Lemma strftime_stamp_one_line (d : datetime) : one_line (strftime_stamp d) = true.
Proof.
  unfold strftime_stamp.
  now rewrite !one_line_app, pad4_one_line, !pad2_one_line.
Qed.

(** The bullet lines of a body made of single lines are the alerts. *)
Lemma alert_body_bullets (alerts : list string) (stats : Stats) :
  forallb one_line alerts = true ->
  one_line (timestamp stats) = true ->
  filter (starts_with alert_bullet) (split_lines (alert_body alerts stats))
  = map (fun alert => alert_bullet ++ alert) alerts
  /\ List.length (split_lines (alert_body alerts stats))
     = (21 + List.length alerts)%nat.
Proof.
  intros A T. rewrite alert_body_unlines, split_lines_unlines.
  - split.
    + rewrite !filter_app.
      assert (F : forall l, filter (starts_with alert_bullet)
                              (map (fun a => alert_bullet ++ a) l)
                            = map (fun a => alert_bullet ++ a) l).
      { induction l as [|a l IH]; [reflexivity|]. cbn [map filter].
        change (starts_with alert_bullet (alert_bullet ++ a)) with true.
        cbn iota. now rewrite IH. }
      rewrite F.
      change (filter (starts_with alert_bullet) (body_heading stats)) with (@nil string).
      change (filter (starts_with alert_bullet) (body_status stats)) with (@nil string).
      change (filter (starts_with alert_bullet) [EmptyString]) with (@nil string).
      cbn [app]. now rewrite !app_nil_r.
    + rewrite !length_app, length_map. cbn [body_heading body_status List.length]. lia.
  - rewrite !forallb_app. apply andb_true_iff. split; [|apply andb_true_iff; split].
    + unfold body_heading. cbn [forallb].
      rewrite !one_line_app, !str_int_one_line, T. reflexivity.
    + clear - A. induction alerts as [|a l IH]; [reflexivity|].
      cbn [forallb map] in *. apply andb_true_iff in A. destruct A as [Ha Hl].
      rewrite one_line_app, Ha, (IH Hl). reflexivity.
    + unfold body_status. cbn [forallb].
      rewrite !one_line_app, !format_1f_one_line, !str_int_one_line,
        str_number_one_line. reflexivity.
Qed.

(** X20.  The body of the e-mail lists the alerts: for a snapshot built by a
    sampling and the alerts [check_thresholds] gives for it, the lines of
    the body that start with the bullet are these alerts, one line each, in
    their order, among the twenty other lines of the message. *)
Theorem alert_body_lists_the_alerts (config : Config) (r : Readings)
    (stats : Stats) :
  collect r = Ret stats ->
  filter (starts_with alert_bullet)
    (split_lines (alert_body (check_thresholds config stats) stats))
  = map (fun alert => alert_bullet ++ alert) (check_thresholds config stats)
  /\ List.length (split_lines (alert_body (check_thresholds config stats) stats))
     = (21 + List.length (check_thresholds config stats))%nat.
Proof.
  intro C. apply alert_body_bullets.
  - apply check_thresholds_one_line.
  - unfold collect in C.
    destruct (py_truediv (disk_used r) (disk_total r)); [|discriminate].
    inversion C. apply strftime_stamp_one_line.
Qed.

Lemma alert_body_lists_the_alerts_witness :
  filter (starts_with alert_bullet)
    (split_lines
       (alert_body (check_thresholds _get_default_config sample_snapshot)
          sample_snapshot))
  = map (fun alert => alert_bullet ++ alert)
      (check_thresholds _get_default_config sample_snapshot)
  /\ List.length
       (split_lines
          (alert_body (check_thresholds _get_default_config sample_snapshot)
             sample_snapshot))
     = (21 + List.length (check_thresholds _get_default_config sample_snapshot))%nat.
Proof.
  apply (alert_body_lists_the_alerts _get_default_config sample_readings
           sample_snapshot).
  reflexivity.
Defined.
